(** * Player report formatting of koishi-plugin-serverinfo-rest-client

    A shallow embedding of [src/commands/player.ts] and of the helpers it
    imports from [src/index.ts]: the field visibility resolver, the four
    lookup tables, the plain-text formatter, the Typst markup formatter, the
    escaping routine, the output mode resolver and the command action; and,
    of [src/index.ts] itself, the colours of the theme, the REST client and
    the start of the shared renderer.

    Strings are UTF-8 byte strings ([string] of the Standard Library).  Every
    character the code tests or replaces is ASCII, and an ASCII byte never
    occurs inside a multi-byte UTF-8 sequence, so the byte-wise functions
    below agree with the UTF-16 ones of the source on well-formed text. *)

From Stdlib Require Import String Ascii List ZArith Lia Bool.
From Stdlib Require Import DecimalString DecimalPos DecimalZ.
Import ListNotations.
Open Scope string_scope.

Set Implicit Arguments.

(** ** JavaScript string primitives *)

Module JS.

Definition nl : string := String "010"%char EmptyString.
Definition cr : string := String "013"%char EmptyString.
Definition tab : string := String "009"%char EmptyString.
Definition dq : string := String "034"%char EmptyString.

(** [arr.join(sep)] *)
Definition join (arr : list string) (sep : string) : string :=
  String.concat sep arr.

(** A template literal that spans several source lines, one element per
    line. *)
Definition tpl (source_lines : list string) : string :=
  join source_lines nl.

(** [s.replace(/c/g, rep)] for a pattern that matches the single
    character [c]; none of the replacement texts of the source holds a
    [$] pattern that [replace] would expand. *)
Fixpoint replaceAll (c : ascii) (rep : string) (s : string) : string :=
  match s with
  | EmptyString => EmptyString
  | String a rest =>
      if Ascii.eqb a c then rep ++ replaceAll c rep rest
      else String a (replaceAll c rep rest)
  end.

(** White space and line terminators of ECMAScript, in UTF-8. *)
Definition isWhite1 (c : ascii) : bool :=
  match N_of_ascii c with
  | 9%N | 10%N | 11%N | 12%N | 13%N | 32%N => true
  | _ => false
  end.

(** U+00A0 is [C2 A0]. *)
Definition isWhite2 (b1 b2 : ascii) : bool :=
  (N_of_ascii b1 =? 194)%N && (N_of_ascii b2 =? 160)%N.

(** U+1680 is [E1 9A 80]; U+2000..U+200A, U+2028, U+2029 and U+202F are
    [E2 80 80..8A], [E2 80 A8], [E2 80 A9] and [E2 80 AF]; U+205F is
    [E2 81 9F]; U+3000 is [E3 80 80]; U+FEFF is [EF BB BF]. *)
Definition isWhite3 (b1 b2 b3 : ascii) : bool :=
  let n1 := N_of_ascii b1 in
  let n2 := N_of_ascii b2 in
  let n3 := N_of_ascii b3 in
  ((n1 =? 225) && (n2 =? 154) && (n3 =? 128)
   || (n1 =? 226) && (n2 =? 128)
      && ((128 <=? n3) && (n3 <=? 138) || (n3 =? 168) || (n3 =? 169) || (n3 =? 175))
   || (n1 =? 226) && (n2 =? 129) && (n3 =? 159)
   || (n1 =? 227) && (n2 =? 128) && (n3 =? 128)
   || (n1 =? 239) && (n2 =? 187) && (n3 =? 191))%N.

(** Drops the white space at the head of a reversed string. *)
Fixpoint dropWhite (r : list ascii) : list ascii :=
  match r with
  | [] => []
  | c :: r1 =>
      if isWhite1 c then dropWhite r1
      else
        match r1 with
        | [] => r
        | b :: r2 =>
            if isWhite2 b c then dropWhite r2
            else
              match r2 with
              | [] => r
              | a :: r3 => if isWhite3 a b c then dropWhite r3 else r
              end
        end
  end.

(** [s.trimEnd()] *)
Definition trimEnd (s : string) : string :=
  string_of_list_ascii (rev (dropWhite (rev (list_ascii_of_string s)))).

(** A byte that is no white space and no part of a white space sequence:
    [trimEnd] never removes it. *)
Definition solidByte (c : ascii) : Prop :=
  let n := N_of_ascii c in
  isWhite1 c = false
  /\ (n < 128
      \/ 139 <= n /\ n <> 154 /\ n <> 159 /\ n <> 160 /\ n <> 168 /\ n <> 169
         /\ n <> 175 /\ n <> 187 /\ n <> 191 /\ n <> 194 /\ n <> 225
         /\ n <> 226 /\ n <> 227 /\ n <> 239)%N.

(** [a || b] on a possibly missing string: the empty string is falsy. *)
Definition orElse (a : option string) (b : string) : string :=
  match a with
  | Some ((String _ _) as s) => s
  | _ => b
  end.

(** Truthiness of a possibly missing string. *)
Definition truthy (a : option string) : bool :=
  match a with
  | Some (String _ _) => true
  | _ => false
  end.

(** [obj[key]] on an object literal, keys being property names. *)
Fixpoint prop (obj : list (string * string)) (key : string) : option string :=
  match obj with
  | [] => None
  | (k, v) :: rest => if String.eqb k key then Some v else prop rest key
  end.

(** [sub] occurs in [s]. *)
Definition Infix (sub s : string) : Prop :=
  exists before after, s = before ++ sub ++ after.

Fixpoint infixb (sub s : string) : bool :=
  String.prefix sub s
  || match s with
     | EmptyString => false
     | String _ rest => infixb sub rest
     end.

End JS.

Import JS.

Notation "x |> f" := (f x) (at level 65, left associativity, only parsing).

(** ** Values the formatters print but do not inspect

    Numbers and nested JSON values reach the formatters from the REST
    service.  The code prints a number with a template literal, with
    [toFixed(2)], or after multiplying it by 100, and prints an item with
    [JSON.stringify]; it computes nothing else with them. *)

Class JsHost : Type := {
  number : Type;
  (** [`${n}`], also the property name of [n] in [obj[n]] *)
  Number_toString : number -> string;
  (** [n.toFixed(2)] *)
  Number_toFixed2 : number -> string;
  (** [n * 100] *)
  Number_times100 : number -> number;
  object : Type;
  (** [JSON.stringify(o)] *)
  JSON_stringify : object -> string;
  (** [JSON.stringify(arr)] *)
  JSON_stringify_array : list object -> string
}.

(** Integer-valued numbers, printed in decimal, and items given by their
    JSON text.  This is what the primitives above do on the integers of
    absolute value at most 2^53, which a double holds exactly and prints
    with all their digits (the product by 100 included while it stays in
    that range).  A larger integer reaches the code rounded to a double,
    so what is proved of this instance is stated for these integers. *)
Definition decimal (n : Z) : string := NilZero.string_of_int (Z.to_int n).

#[export] Instance IntegerHost : JsHost := {|
  number := Z;
  Number_toString := decimal;
  Number_toFixed2 := fun n => decimal n ++ ".00";
  Number_times100 := fun n => (n * 100)%Z;
  object := string;
  JSON_stringify := fun o => o;
  JSON_stringify_array := fun arr => "[" ++ join arr "," ++ "]"
|}.

(** ** index.ts: the escaping routine *)

Definition escapeTypstText (str : string) : string :=
  str
    |> replaceAll "\" "\\"
    |> replaceAll "[" "\["
    |> replaceAll "]" "\]"
    |> replaceAll "#" "\#"
    |> replaceAll "$" "\$"
    |> replaceAll "`" "\`"
    |> replaceAll "*" "\*"
    |> replaceAll "_" "\_"
    |> replaceAll "<" "\<"
    |> replaceAll ">" "\>"
    |> replaceAll "@" "\@"
    |> replaceAll "010" " "
    |> replaceAll "013" EmptyString
    |> replaceAll "009" " ".

Section Formatters.

Context {host : JsHost}.

(** ** config.ts: the part of [Config] the player command reads *)

Inductive OutputMode : Type :=
| text
| typst_image.

Record FieldFilter : Type := {
  key : string;
  enabled : bool
}.

Record Config : Type := {
  (** read with [?.], so a configuration without the table is allowed *)
  playerFieldFilters : option (list FieldFilter);
  defaultOutputModes : list OutputMode;
  quoteCommandReplies : bool;
  typstRenderScale : number
}.

(** ** index.ts: the theme and the output mode resolver *)

Record TypstTheme : Type := {
  fontFamily : string;
  pageBg : string;
  textColor : string;
  headerFill : string;
  headerStroke : string;
  headerText : string;
  panelFill : string;
  panelStroke : string;
  sectionTitle : string;
  statsText : string
}.

Definition resolveOutputModes (modeArg : option string) (cfg : Config)
  : list OutputMode :=
  if truthy modeArg then
    if String.eqb (orElse modeArg EmptyString) "text" then [text]
    else if String.eqb (orElse modeArg EmptyString) "image" then [typst_image]
    else defaultOutputModes cfg
  else defaultOutputModes cfg.

(** ** player.ts: the field visibility resolver *)

(** [arr.find(f => f.key === key)] *)
Fixpoint find_key (arr : list FieldFilter) (k : string) : option FieldFilter :=
  match arr with
  | [] => None
  | f :: rest => if String.eqb (key f) k then Some f else find_key rest k
  end.

Definition isFieldEnabled (cfg : Config) (k : string) : bool :=
  let filter :=
    match playerFieldFilters cfg with
    | Some arr => find_key arr k
    | None => None
    end in
  match filter with
  | Some f => enabled f
  | None => true
  end.

(** [arr.push(item)] *)
Definition push (arr : list string) (item : string) : list string :=
  app arr [item].

(** [arr.push(...items)] *)
Definition pushAll (arr items : list string) : list string :=
  app arr items.

(** [if (c) arr.push(item)] *)
Definition pushIf (c : bool) (arr : list string) (item : string) : list string :=
  if c then push arr item else arr.

(** ** player.ts: the lookup tables *)

Definition INPUT_MODE_MAP : list (string * string) :=
  [ ("1", "⌨️ 键鼠");
    ("2", "📱 触屏");
    ("3", "🎮 手柄") ].

Definition DIMENSION_MAP : list (string * string) :=
  [ ("0", "🌍 主世界");
    ("1", "🔥 下界");
    ("2", "🌌 末地") ].

Definition GAMEMODE_MAP : list (string * string) :=
  [ ("0", "🗡️ 生存");
    ("1", "🎨 创造");
    ("2", "🎯 冒险");
    ("3", "👁️ 旁观") ].

Definition PERM_LEVEL_MAP : list (string * string) :=
  [ ("0", "👤 成员");
    ("1", "⭐ 操作员");
    ("2", "👑 管理员");
    ("3", "🛡️ 服主") ].

(** [`${n}`] for a number that may be [undefined] ([dimId?: number]). *)
Definition optNumber_toString (n : option number) : string :=
  match n with
  | Some v => Number_toString v
  | None => "undefined"
  end.

Definition getDimension (dimId : option number) : string :=
  orElse (prop DIMENSION_MAP (optNumber_toString dimId))
         ("❓ 未知 (" ++ optNumber_toString dimId ++ ")").

Definition getGameMode (mode : number) : string :=
  orElse (prop GAMEMODE_MAP (Number_toString mode))
         ("❓ 未知 (" ++ Number_toString mode ++ ")").

Definition getPermLevel (level : number) : string :=
  orElse (prop PERM_LEVEL_MAP (Number_toString level))
         ("❓ 未知 (" ++ Number_toString level ++ ")").

Definition getInputMode (mode : number) : string :=
  orElse (prop INPUT_MODE_MAP (Number_toString mode))
         ("❓ 未知 (" ++ Number_toString mode ++ ")").

(** ** player.ts: the record *)

Record Position : Type := {
  x : number;
  y : number;
  z : number;
  dimId : option number
}.

Record BlockPosition : Type := {
  block_x : number;
  block_y : number;
  block_z : number
}.

Record Biome : Type := {
  biome_id : number;
  biome_name : string
}.

Record BlockInfo : Type := {
  block_type : string;
  block_name : string
}.

Record DeviceInfo : Type := {
  ip : string;
  os : string;
  clientId : string;
  inputMode : number;
  serverAddress : string;
  avgPing : number;
  avgPacketLoss : number;
  lastPing : number;
  lastPacketLoss : number
}.

(** Nested objects, [name], [speed], the items and the tags are tested
    for presence by the code, so they are optional here; the other fields
    are read as the interface declares them. *)
Record PlayerResponse : Type := {
  name : option string;
  xuid : string;
  uuid : string;
  uniqueId : string;
  permLevel : number;
  gameMode : number;
  isOP : bool;
  isSimulatedPlayer : bool;
  health : number;
  maxHealth : number;
  pos : option Position;
  blockPos : option BlockPosition;
  feetPos : option Position;
  lastDeathPos : option Position;
  respawnPos : option Position;
  speed : option number;
  biome : option Biome;
  standingOn : option BlockInfo;
  isFlying : bool;
  isSneaking : bool;
  isSprinting : bool;
  isMoving : bool;
  isInAir : bool;
  isInWater : bool;
  isInLava : bool;
  isOnGround : bool;
  isOnFire : bool;
  isSleeping : bool;
  isGliding : bool;
  isRiding : bool;
  isInvisible : bool;
  isHungry : bool;
  canFly : bool;
  canSleep : bool;
  canPickupItems : bool;
  level : number;
  currentExp : number;
  totalExp : number;
  expNeededForNextLevel : number;
  handItem : option object;
  offHandItem : option object;
  armor : option (list object);
  tags : option (list string);
  device : option DeviceInfo;
  langCode : string
}.

(** [b ? '✅ 是' : '❌ 否'] *)
Definition yesNo (b : bool) : string := if b then "✅ 是" else "❌ 否".

(** [player.speed?.toFixed(2) ?? 'N/A'] *)
Definition speedText (player : PlayerResponse) : string :=
  match speed player with
  | Some v => Number_toFixed2 v
  | None => "N/A"
  end.

(** ** player.ts: formatTextOutput, one definition per local array *)

Definition basicInfo (player : PlayerResponse) (cfg : Config) : list string :=
  let basicInfo := [] in
  let basicInfo := pushIf (isFieldEnabled cfg "xuid") basicInfo
    ("  • XUID: " ++ xuid player) in
  let basicInfo := pushIf (isFieldEnabled cfg "uuid") basicInfo
    ("  • UUID: " ++ uuid player) in
  let basicInfo := pushIf (isFieldEnabled cfg "uniqueId") basicInfo
    ("  • UniqueId: " ++ uniqueId player) in
  let basicInfo := pushIf (isFieldEnabled cfg "permLevel") basicInfo
    ("  • 权限等级: " ++ getPermLevel (permLevel player)) in
  let basicInfo := pushIf (isFieldEnabled cfg "isOP") basicInfo
    ("  • OP: " ++ yesNo (isOP player)) in
  let basicInfo := pushIf (isFieldEnabled cfg "isSimulatedPlayer") basicInfo
    ("  • 模拟玩家: " ++ yesNo (isSimulatedPlayer player)) in
  let basicInfo := pushIf (isFieldEnabled cfg "langCode") basicInfo
    ("  • 语言: " ++ langCode player) in
  basicInfo.

Definition flags (player : PlayerResponse) (cfg : Config) : list string :=
  let flags := [] in
  let flags := pushIf (isFieldEnabled cfg "isFlying" && isFlying player) flags "🦅 飞行" in
  let flags := pushIf (isFieldEnabled cfg "isSneaking" && isSneaking player) flags "🐍 潜行" in
  let flags := pushIf (isFieldEnabled cfg "isSprinting" && isSprinting player) flags "🏃 疾跑" in
  let flags := pushIf (isFieldEnabled cfg "isMoving" && isMoving player) flags "🚶 移动中" in
  let flags := pushIf (isFieldEnabled cfg "isInAir" && isInAir player) flags "☁️ 空中" in
  let flags := pushIf (isFieldEnabled cfg "isInWater" && isInWater player) flags "💧 水中" in
  let flags := pushIf (isFieldEnabled cfg "isInLava" && isInLava player) flags "🔥 岩浆中" in
  let flags := pushIf (isFieldEnabled cfg "isOnGround" && isOnGround player) flags "🧱 地面" in
  let flags := pushIf (isFieldEnabled cfg "isOnFire" && isOnFire player) flags "🔥 着火" in
  let flags := pushIf (isFieldEnabled cfg "isSleeping" && isSleeping player) flags "😴 睡觉" in
  let flags := pushIf (isFieldEnabled cfg "isGliding" && isGliding player) flags "🪂 滑翔" in
  let flags := pushIf (isFieldEnabled cfg "isRiding" && isRiding player) flags "🐴 骑乘" in
  let flags := pushIf (isFieldEnabled cfg "isInvisible" && isInvisible player) flags "👻 隐身" in
  let flags := pushIf (isFieldEnabled cfg "isHungry" && isHungry player) flags "🍖 饥饿" in
  let flags := pushIf (isFieldEnabled cfg "canFly" && canFly player) flags "✈️ 可飞行" in
  flags.

Definition gameStatus (player : PlayerResponse) (cfg : Config) : list string :=
  let gameStatus := [] in
  let gameStatus := pushIf (isFieldEnabled cfg "gameMode") gameStatus
    ("  • 游戏模式: " ++ getGameMode (gameMode player)) in
  let gameStatus :=
    pushIf (isFieldEnabled cfg "health" && isFieldEnabled cfg "maxHealth") gameStatus
    ("  • 生命值: " ++ Number_toString (health player) ++ "/"
       ++ Number_toString (maxHealth player) ++ " ❤️") in
  let gameStatus := pushIf (isFieldEnabled cfg "speed") gameStatus
    ("  • 移动速度: " ++ speedText player) in
  let flags := flags player cfg in
  let gameStatus := pushIf (0 <? length flags)%nat gameStatus
    ("  • 状态: " ++ join flags " | ") in
  gameStatus.

Definition expInfo (player : PlayerResponse) (cfg : Config) : list string :=
  let expInfo := [] in
  let expInfo := pushIf (isFieldEnabled cfg "level") expInfo
    ("  • 等级: " ++ Number_toString (level player)) in
  let expInfo := pushIf (isFieldEnabled cfg "currentExp") expInfo
    ("  • 当前经验: " ++ Number_toString (currentExp player)) in
  let expInfo := pushIf (isFieldEnabled cfg "totalExp") expInfo
    ("  • 总经验: " ++ Number_toString (totalExp player)) in
  let expInfo := pushIf (isFieldEnabled cfg "expNeededForNextLevel") expInfo
    ("  • 升级所需: " ++ Number_toString (expNeededForNextLevel player)) in
  expInfo.

Definition posInfo (player : PlayerResponse) (cfg : Config) : list string :=
  let posInfo := [] in
  let posInfo :=
    match isFieldEnabled cfg "pos.dimId", pos player with
    | true, Some p => push posInfo ("  • 维度: " ++ getDimension (dimId p))
    | _, _ => posInfo
    end in
  let posInfo :=
    match isFieldEnabled cfg "pos", pos player with
    | true, Some p =>
        push posInfo ("  • 精确坐标: " ++ Number_toFixed2 (x p) ++ ", "
                      ++ Number_toFixed2 (y p) ++ ", " ++ Number_toFixed2 (z p))
    | _, _ => posInfo
    end in
  let posInfo :=
    match isFieldEnabled cfg "blockPos", blockPos player with
    | true, Some p =>
        push posInfo ("  • 方块坐标: " ++ Number_toString (block_x p) ++ ", "
                      ++ Number_toString (block_y p) ++ ", "
                      ++ Number_toString (block_z p))
    | _, _ => posInfo
    end in
  let posInfo :=
    match isFieldEnabled cfg "feetPos", feetPos player with
    | true, Some p =>
        push posInfo ("  • 脚部坐标: " ++ Number_toFixed2 (x p) ++ ", "
                      ++ Number_toFixed2 (y p) ++ ", " ++ Number_toFixed2 (z p))
    | _, _ => posInfo
    end in
  let posInfo :=
    match isFieldEnabled cfg "lastDeathPos", lastDeathPos player with
    | true, Some p =>
        push posInfo ("  • 上次死亡: " ++ Number_toString (x p) ++ ", "
                      ++ Number_toString (y p) ++ ", " ++ Number_toString (z p)
                      ++ " (" ++ getDimension (dimId p) ++ ")")
    | _, _ => posInfo
    end in
  let posInfo :=
    match isFieldEnabled cfg "respawnPos", respawnPos player with
    | true, Some p =>
        push posInfo ("  • 重生点: " ++ Number_toString (x p) ++ ", "
                      ++ Number_toString (y p) ++ ", " ++ Number_toString (z p)
                      ++ " (" ++ getDimension (dimId p) ++ ")")
    | _, _ => posInfo
    end in
  posInfo.

Definition envInfo (player : PlayerResponse) (cfg : Config) : list string :=
  let envInfo := [] in
  let envInfo :=
    if isFieldEnabled cfg "biome" || isFieldEnabled cfg "biome.name" then
      match biome player with
      | Some b =>
          let biomeDisplay :=
            if isFieldEnabled cfg "biome.id"
            then biome_name b ++ " (ID: " ++ Number_toString (biome_id b) ++ ")"
            else biome_name b in
          push envInfo ("  • 生物群系: " ++ biomeDisplay)
      | None => envInfo
      end
    else envInfo in
  let envInfo :=
    if isFieldEnabled cfg "standingOn" || isFieldEnabled cfg "standingOn.name" then
      match standingOn player with
      | Some b =>
          let blockDisplay :=
            if isFieldEnabled cfg "standingOn.type"
            then block_name b ++ " (" ++ block_type b ++ ")"
            else block_name b in
          push envInfo ("  • 脚下方块: " ++ blockDisplay)
      | None => envInfo
      end
    else envInfo in
  envInfo.

Definition deviceInfo (d : DeviceInfo) (cfg : Config) : list string :=
  let deviceInfo := [] in
  let deviceInfo := pushIf (isFieldEnabled cfg "device.os") deviceInfo
    ("  • 操作系统: " ++ os d) in
  let deviceInfo := pushIf (isFieldEnabled cfg "device.inputMode") deviceInfo
    ("  • 输入方式: " ++ getInputMode (inputMode d)) in
  let deviceInfo := pushIf (isFieldEnabled cfg "device.ip") deviceInfo
    ("  • IP 地址: " ++ ip d) in
  let deviceInfo := pushIf (isFieldEnabled cfg "device.clientId") deviceInfo
    ("  • 客户端 ID: " ++ clientId d) in
  let deviceInfo := pushIf (isFieldEnabled cfg "device.serverAddress") deviceInfo
    ("  • 服务器地址: " ++ serverAddress d) in
  let deviceInfo := pushIf (isFieldEnabled cfg "device.avgPing") deviceInfo
    ("  • 平均延迟: " ++ Number_toString (avgPing d) ++ "ms") in
  let deviceInfo := pushIf (isFieldEnabled cfg "device.lastPing") deviceInfo
    ("  • 最近延迟: " ++ Number_toString (lastPing d) ++ "ms") in
  let deviceInfo := pushIf (isFieldEnabled cfg "device.avgPacketLoss") deviceInfo
    ("  • 平均丢包率: " ++ Number_toFixed2 (Number_times100 (avgPacketLoss d)) ++ "%") in
  let deviceInfo := pushIf (isFieldEnabled cfg "device.lastPacketLoss") deviceInfo
    ("  • 最近丢包率: " ++ Number_toFixed2 (Number_times100 (lastPacketLoss d)) ++ "%") in
  deviceInfo.

Definition itemInfo (player : PlayerResponse) (cfg : Config) : list string :=
  let itemInfo := [] in
  let itemInfo :=
    match isFieldEnabled cfg "handItem", handItem player with
    | true, Some item => push itemInfo ("  • 主手物品: " ++ JSON_stringify item)
    | _, _ => itemInfo
    end in
  let itemInfo :=
    match isFieldEnabled cfg "offHandItem", offHandItem player with
    | true, Some item => push itemInfo ("  • 副手物品: " ++ JSON_stringify item)
    | _, _ => itemInfo
    end in
  let itemInfo :=
    match isFieldEnabled cfg "armor", armor player with
    | true, Some ((_ :: _) as arr) =>
        push itemInfo ("  • 装备: " ++ JSON_stringify_array arr)
    | _, _ => itemInfo
    end in
  let itemInfo :=
    match isFieldEnabled cfg "tags", tags player with
    | true, Some ((_ :: _) as arr) => push itemInfo ("  • 标签: " ++ join arr ", ")
    | _, _ => itemInfo
    end in
  itemInfo.

(** [if (sec.length > 0) { lines.push(heading); lines.push(...sec);
    lines.push('') }] *)
Definition pushSection (lines : list string) (heading : string)
  (sec : list string) : list string :=
  if (0 <? length sec)%nat
  then push (pushAll (push lines heading) sec) EmptyString
  else lines.

(** The array [lines] of a record that has a name, as it stands at the
    final [join]. *)
Definition textLines (player : PlayerResponse) (playerName : string)
  (cfg : Config) (label : string) : list string :=
  let lines := [] in
  let lines := push lines (label ++ " 👤 玩家详情: " ++ playerName) in
  let lines := push lines EmptyString in
  let lines := pushSection lines "📋 基本信息:" (basicInfo player cfg) in
  let lines := pushSection lines "🎮 游戏状态:" (gameStatus player cfg) in
  let lines := pushSection lines "⭐ 经验信息:" (expInfo player cfg) in
  let lines := pushSection lines "📍 位置信息:" (posInfo player cfg) in
  let lines := pushSection lines "🌍 环境信息:" (envInfo player cfg) in
  let lines :=
    match isFieldEnabled cfg "device", device player with
    | true, Some d => pushSection lines "📱 设备信息:" (deviceInfo d cfg)
    | _, _ => lines
    end in
  let lines :=
    let itemInfo := itemInfo player cfg in
    if (0 <? length itemInfo)%nat
    then pushAll (push lines "🎒 物品信息:") itemInfo
    else lines in
  lines.

Definition formatTextOutput (player : option PlayerResponse)
  (queryName : string) (cfg : Config) (label : string) : string :=
  match player with
  | Some p =>
      match name p with
      | Some ((String _ _) as playerName) =>
          trimEnd (join (textLines p playerName cfg label) nl)
      | _ =>
          tpl [ label ++ " 👤 玩家查询";
                EmptyString;
                "❌ 未找到玩家: " ++ queryName ]
      end
  | None =>
      tpl [ label ++ " 👤 玩家查询";
            EmptyString;
            "❌ 未找到玩家: " ++ queryName ]
  end.

(** ** player.ts: generateTypstCode, one definition per local array *)

Definition typstFlags (player : PlayerResponse) (cfg : Config) : list string :=
  let flags := [] in
  let flags := pushIf (isFieldEnabled cfg "isOP" && isOP player) flags "👑 OP" in
  let flags := pushIf (isFieldEnabled cfg "isFlying" && isFlying player) flags "🦅 飞行" in
  let flags := pushIf (isFieldEnabled cfg "isSneaking" && isSneaking player) flags "🐍 潜行" in
  let flags := pushIf (isFieldEnabled cfg "isSprinting" && isSprinting player) flags "🏃 疾跑" in
  let flags := pushIf (isFieldEnabled cfg "isInWater" && isInWater player) flags "💧 水中" in
  let flags := pushIf (isFieldEnabled cfg "isInLava" && isInLava player) flags "🔥 岩浆" in
  let flags := pushIf (isFieldEnabled cfg "isOnFire" && isOnFire player) flags "🔥 着火" in
  let flags := pushIf (isFieldEnabled cfg "isGliding" && isGliding player) flags "🪂 滑翔" in
  let flags := pushIf (isFieldEnabled cfg "isRiding" && isRiding player) flags "🐴 骑乘" in
  let flags := pushIf (isFieldEnabled cfg "isInvisible" && isInvisible player) flags "👻 隐身" in
  flags.

Definition basicInfoRows (player : PlayerResponse) (cfg : Config) : list string :=
  let basicInfoRows := [] in
  let basicInfoRows := pushIf (isFieldEnabled cfg "xuid") basicInfoRows
    ("[XUID], [#text(size: 9pt)[" ++ escapeTypstText (xuid player) ++ "]],") in
  let basicInfoRows := pushIf (isFieldEnabled cfg "uuid") basicInfoRows
    ("[UUID], [#text(size: 9pt)[" ++ escapeTypstText (uuid player) ++ "]],") in
  let basicInfoRows := pushIf (isFieldEnabled cfg "uniqueId") basicInfoRows
    ("[UniqueId], [#text(size: 9pt)[" ++ escapeTypstText (uniqueId player) ++ "]],") in
  let basicInfoRows := pushIf (isFieldEnabled cfg "permLevel") basicInfoRows
    ("[权限等级], [" ++ escapeTypstText (getPermLevel (permLevel player)) ++ "],") in
  let basicInfoRows := pushIf (isFieldEnabled cfg "isSimulatedPlayer") basicInfoRows
    ("[模拟玩家], [" ++ yesNo (isSimulatedPlayer player) ++ "],") in
  let basicInfoRows := pushIf (isFieldEnabled cfg "langCode") basicInfoRows
    ("[语言], [" ++ escapeTypstText (langCode player) ++ "],") in
  basicInfoRows.

Definition gameStatusItems (player : PlayerResponse) (cfg : Config) : list string :=
  let gameStatusItems := [] in
  let gameStatusItems := pushIf (isFieldEnabled cfg "gameMode") gameStatusItems
    ("[游戏模式: " ++ escapeTypstText (getGameMode (gameMode player)) ++ "]") in
  let gameStatusItems :=
    pushIf (isFieldEnabled cfg "health" && isFieldEnabled cfg "maxHealth") gameStatusItems
    ("[生命值: ❤️ " ++ Number_toString (health player) ++ "/"
       ++ Number_toString (maxHealth player) ++ "]") in
  let gameStatusItems := pushIf (isFieldEnabled cfg "speed") gameStatusItems
    ("[移动速度: 🏃 " ++ speedText player ++ "]") in
  let gameStatusItems := pushIf (isFieldEnabled cfg "isHungry") gameStatusItems
    ("[饥饿: " ++ (if isHungry player then "🍖 是" else "🍗 否") ++ "]") in
  gameStatusItems.

Definition expItems (player : PlayerResponse) (cfg : Config) : list string :=
  let expItems := [] in
  let expItems := pushIf (isFieldEnabled cfg "level") expItems
    ("[等级: ⭐ " ++ Number_toString (level player) ++ "]") in
  let expItems := pushIf (isFieldEnabled cfg "currentExp") expItems
    ("[当前经验: " ++ Number_toString (currentExp player) ++ "]") in
  let expItems := pushIf (isFieldEnabled cfg "totalExp") expItems
    ("[总经验: " ++ Number_toString (totalExp player) ++ "]") in
  let expItems := pushIf (isFieldEnabled cfg "expNeededForNextLevel") expItems
    ("[升级所需: " ++ Number_toString (expNeededForNextLevel player) ++ "]") in
  expItems.

Definition posInfoRows (player : PlayerResponse) (cfg : Config) : list string :=
  let posInfoRows := [] in
  let posInfoRows :=
    match isFieldEnabled cfg "pos.dimId", pos player with
    | true, Some p =>
        push posInfoRows ("[维度], [" ++ escapeTypstText (getDimension (dimId p)) ++ "],")
    | _, _ => posInfoRows
    end in
  let posInfoRows :=
    match isFieldEnabled cfg "pos", pos player with
    | true, Some p =>
        push posInfoRows ("[精确坐标], [" ++ Number_toFixed2 (x p) ++ ", "
                            ++ Number_toFixed2 (y p) ++ ", "
                            ++ Number_toFixed2 (z p) ++ "],")
    | _, _ => posInfoRows
    end in
  let posInfoRows :=
    match isFieldEnabled cfg "blockPos", blockPos player with
    | true, Some p =>
        push posInfoRows ("[方块坐标], [" ++ Number_toString (block_x p) ++ ", "
                            ++ Number_toString (block_y p) ++ ", "
                            ++ Number_toString (block_z p) ++ "],")
    | _, _ => posInfoRows
    end in
  let posInfoRows :=
    match isFieldEnabled cfg "lastDeathPos", lastDeathPos player with
    | true, Some p =>
        push posInfoRows ("[上次死亡], [" ++ Number_toString (x p) ++ ", "
                            ++ Number_toString (y p) ++ ", "
                            ++ Number_toString (z p) ++ "],")
    | _, _ => posInfoRows
    end in
  let posInfoRows :=
    match isFieldEnabled cfg "respawnPos", respawnPos player with
    | true, Some p =>
        push posInfoRows ("[重生点], [" ++ Number_toString (x p) ++ ", "
                            ++ Number_toString (y p) ++ ", "
                            ++ Number_toString (z p) ++ "],")
    | _, _ => posInfoRows
    end in
  posInfoRows.

Definition envInfoRows (player : PlayerResponse) (cfg : Config) : list string :=
  let envInfoRows := [] in
  let envInfoRows :=
    match isFieldEnabled cfg "biome" || isFieldEnabled cfg "biome.name", biome player with
    | true, Some b =>
        let biomeDisplay :=
          if isFieldEnabled cfg "biome.id"
          then biome_name b ++ " (ID: " ++ Number_toString (biome_id b) ++ ")"
          else biome_name b in
        push envInfoRows ("[生物群系], [" ++ escapeTypstText biomeDisplay ++ "],")
    | _, _ => envInfoRows
    end in
  let envInfoRows :=
    match isFieldEnabled cfg "standingOn" || isFieldEnabled cfg "standingOn.name",
          standingOn player with
    | true, Some b =>
        push envInfoRows ("[脚下方块], [" ++ escapeTypstText (block_name b) ++ "],")
    | _, _ => envInfoRows
    end in
  envInfoRows.

Definition deviceInfoRows (player : PlayerResponse) (cfg : Config) : list string :=
  let deviceInfoRows := [] in
  match isFieldEnabled cfg "device", device player with
  | true, Some d =>
      let deviceInfoRows := pushIf (isFieldEnabled cfg "device.os") deviceInfoRows
        ("[操作系统], [" ++ escapeTypstText (os d) ++ "],") in
      let deviceInfoRows := pushIf (isFieldEnabled cfg "device.inputMode") deviceInfoRows
        ("[输入方式], [" ++ escapeTypstText (getInputMode (inputMode d)) ++ "],") in
      let deviceInfoRows := pushIf (isFieldEnabled cfg "device.ip") deviceInfoRows
        ("[IP 地址], [#text(size: 9pt)[" ++ escapeTypstText (ip d) ++ "]],") in
      let deviceInfoRows := pushIf (isFieldEnabled cfg "device.serverAddress") deviceInfoRows
        ("[服务器地址], [#text(size: 9pt)[" ++ escapeTypstText (serverAddress d) ++ "]],") in
      let deviceInfoRows := pushIf (isFieldEnabled cfg "device.avgPing") deviceInfoRows
        ("[平均延迟], [" ++ Number_toString (avgPing d) ++ "ms],") in
      let deviceInfoRows := pushIf (isFieldEnabled cfg "device.lastPing") deviceInfoRows
        ("[最近延迟], [" ++ Number_toString (lastPing d) ++ "ms],") in
      let deviceInfoRows := pushIf (isFieldEnabled cfg "device.avgPacketLoss") deviceInfoRows
        ("[平均丢包], [" ++ Number_toFixed2 (Number_times100 (avgPacketLoss d)) ++ "%],") in
      deviceInfoRows
  | _, _ => deviceInfoRows
  end.

(** The panel with a two-column table that the code pushes for the basic,
    position, environment and device sections (lines 495-510, 553-568,
    573-588 and 593-608 of player.ts, equal up to the title and the rows). *)
Definition tablePanel (theme : TypstTheme) (title : string) (rows : list string)
  : string :=
  tpl [ "#block(";
        "  fill: " ++ panelFill theme ++ ",";
        "  stroke: 1pt + " ++ panelStroke theme ++ ",";
        "  radius: 4pt,";
        "  inset: 12pt,";
        "  width: 100%";
        ")[";
        "  #text(weight: " ++ dq ++ "bold" ++ dq ++ ", fill: " ++ sectionTitle theme
          ++ ")[" ++ title ++ "]";
        "  #v(6pt)";
        "  #table(";
        "    columns: (auto, 1fr),";
        "    stroke: none,";
        "    row-gutter: 4pt,";
        "    " ++ join rows (nl ++ "    ");
        "  )";
        "]" ].

(** The panel with a two-column grid that the code pushes for the game
    status and experience sections (lines 515-529 and 534-548, equal up to
    the title and the items). *)
Definition gridPanel (theme : TypstTheme) (title : string) (items : list string)
  : string :=
  tpl [ "#block(";
        "  fill: " ++ panelFill theme ++ ",";
        "  stroke: 1pt + " ++ panelStroke theme ++ ",";
        "  radius: 4pt,";
        "  inset: 12pt,";
        "  width: 100%";
        ")[";
        "  #text(weight: " ++ dq ++ "bold" ++ dq ++ ", fill: " ++ sectionTitle theme
          ++ ")[" ++ title ++ "]";
        "  #v(6pt)";
        "  #grid(";
        "    columns: (1fr, 1fr),";
        "    gutter: 8pt,";
        "    " ++ join items ("," ++ nl ++ "    ") ++ ",";
        "  )";
        "]" ].

Definition panels (player : PlayerResponse) (theme : TypstTheme) (cfg : Config)
  : list string :=
  let panels := [] in
  let panels := pushIf (0 <? length (basicInfoRows player cfg))%nat panels
    (tablePanel theme "📋 基本信息" (basicInfoRows player cfg)) in
  let panels := pushIf (0 <? length (gameStatusItems player cfg))%nat panels
    (gridPanel theme "🎮 游戏状态" (gameStatusItems player cfg)) in
  let panels := pushIf (0 <? length (expItems player cfg))%nat panels
    (gridPanel theme "⭐ 经验信息" (expItems player cfg)) in
  let panels := pushIf (0 <? length (posInfoRows player cfg))%nat panels
    (tablePanel theme "📍 位置信息" (posInfoRows player cfg)) in
  let panels := pushIf (0 <? length (envInfoRows player cfg))%nat panels
    (tablePanel theme "🌍 环境信息" (envInfoRows player cfg)) in
  let panels := pushIf (0 <? length (deviceInfoRows player cfg))%nat panels
    (tablePanel theme "📱 设备信息" (deviceInfoRows player cfg)) in
  panels.

(** The document returned when the record is missing or has no name. *)
Definition notFoundDocument (timestamp queryName : string) (theme : TypstTheme)
  (label : string) : string :=
  tpl [ "#set page(";
        "  width: 400pt,";
        "  height: auto,";
        "  margin: (x: 14pt, y: 14pt),";
        "  fill: " ++ pageBg theme;
        ")";
        EmptyString;
        "#set text(";
        "  font: (" ++ dq ++ fontFamily theme ++ dq ++ ", " ++ dq ++ "Noto Sans CJK SC"
          ++ dq ++ ", " ++ dq ++ "Microsoft YaHei" ++ dq ++ "),";
        "  size: 11pt,";
        "  fill: " ++ textColor theme ++ ",";
        "  lang: " ++ dq ++ "zh" ++ dq;
        ")";
        EmptyString;
        "#align(center)[";
        "  #block(";
        "    fill: " ++ headerFill theme ++ ",";
        "    stroke: 2pt + " ++ headerStroke theme ++ ",";
        "    radius: 6pt,";
        "    inset: 10pt,";
        "    width: 100%";
        "  )[";
        "    #text(size: 16pt, weight: " ++ dq ++ "bold" ++ dq ++ ", fill: "
          ++ headerText theme ++ ")[";
        "      " ++ escapeTypstText label ++ " 👤 玩家查询";
        "    ]";
        "  ]";
        "]";
        EmptyString;
        "#v(8pt)";
        EmptyString;
        "#block(";
        "  fill: " ++ panelFill theme ++ ",";
        "  stroke: 1pt + " ++ panelStroke theme ++ ",";
        "  radius: 4pt,";
        "  inset: 12pt,";
        "  width: 100%";
        ")[";
        "  #align(center)[";
        "    #text(size: 12pt)[❌ 未找到玩家: " ++ escapeTypstText queryName ++ "]";
        "  ]";
        "]";
        EmptyString;
        "#v(8pt)";
        EmptyString;
        "#align(center)[";
        "  #text(size: 8pt, fill: " ++ statsText theme ++ ")[";
        "    Generated by serverinfo-rest-client · " ++ escapeTypstText timestamp;
        "  ]";
        "]";
        EmptyString ].

(** The document returned for a record named [playerName]. *)
Definition playerDocument (timestamp : string) (player : PlayerResponse)
  (playerName : string) (theme : TypstTheme) (cfg : Config) (label : string)
  : string :=
  let flags := typstFlags player cfg in
  let panels := panels player theme cfg in
  tpl [ "#set page(";
        "  width: 450pt,";
        "  height: auto,";
        "  margin: (x: 14pt, y: 14pt),";
        "  fill: " ++ pageBg theme;
        ")";
        EmptyString;
        "#set text(";
        "  font: (" ++ dq ++ fontFamily theme ++ dq ++ ", " ++ dq ++ "Noto Sans CJK SC"
          ++ dq ++ ", " ++ dq ++ "Microsoft YaHei" ++ dq ++ "),";
        "  size: 11pt,";
        "  fill: " ++ textColor theme ++ ",";
        "  lang: " ++ dq ++ "zh" ++ dq;
        ")";
        EmptyString;
        "#align(center)[";
        "  #block(";
        "    fill: " ++ headerFill theme ++ ",";
        "    stroke: 2pt + " ++ headerStroke theme ++ ",";
        "    radius: 6pt,";
        "    inset: 10pt,";
        "    width: 100%";
        "  )[";
        "    #text(size: 16pt, weight: " ++ dq ++ "bold" ++ dq ++ ", fill: "
          ++ headerText theme ++ ")[";
        "      " ++ escapeTypstText label ++ " 👤 " ++ escapeTypstText playerName;
        "    ]";
        "    " ++ (if (0 <? length flags)%nat
                   then "#h(8pt) #text(size: 11pt, fill: " ++ headerText theme ++ ")["
                          ++ join flags " " ++ "]"
                   else EmptyString);
        "  ]";
        "]";
        EmptyString;
        "#v(8pt)";
        EmptyString;
        join panels (nl ++ nl ++ "#v(6pt)" ++ nl ++ nl);
        EmptyString;
        "#v(8pt)";
        EmptyString;
        "#align(center)[";
        "  #text(size: 8pt, fill: " ++ statsText theme ++ ")[";
        "    Generated by serverinfo-rest-client · " ++ escapeTypstText timestamp;
        "  ]";
        "]";
        EmptyString ].

(** [timestamp] is what [new Date().toLocaleString('zh-CN')] returns when
    the function is entered: the function reads the wall clock, and the
    reading is an input here. *)
Definition generateTypstCode (timestamp : string) (player : option PlayerResponse)
  (queryName : string) (theme : TypstTheme) (cfg : Config) (label : string)
  : string :=
  match player with
  | Some p =>
      match name p with
      | Some ((String _ _) as playerName) =>
          playerDocument timestamp p playerName theme cfg label
      | _ => notFoundDocument timestamp queryName theme label
      end
  | None => notFoundDocument timestamp queryName theme label
  end.

End Formatters.

(** ** player.ts: the action of the [player] command

    The action awaits the REST client, the shared renderer and the
    rasteriser.  They are collaborators of this file: each is a
    transformer of an abstract world that returns a value or throws. *)

(** An [Error] object, as far as the code reads it. *)
Record JsError : Type := {
  error_name : string;
  message : string
}.

(** [`${err}`], that is [Error.prototype.toString] *)
Definition errorToString (e : JsError) : string :=
  match error_name e, message e with
  | EmptyString, msg => msg
  | n, EmptyString => n
  | n, msg => n ++ ": " ++ msg
  end.

Inductive nullish : Type :=
| js_null
| js_undefined.

(** [`${v}`] *)
Definition nullishText (v : nullish) : string :=
  match v with
  | js_null => "null"
  | js_undefined => "undefined"
  end.

(** What a [throw] or a rejected promise carries: an [Error] object, or
    [null] or [undefined].  A [catch] clause receives the value as it is;
    the clauses of this code read [err.message] or [error.name] from it,
    which throws a [TypeError] on [null] and on [undefined].  (A primitive
    or an object without these two strings is not modelled.) *)
Inductive thrown : Type :=
| ErrorObject (e : JsError)
| Nullish (v : nullish).

Coercion ErrorObject : JsError >-> thrown.

(** [`${err}`] in a [catch] clause *)
Definition thrownToString (err : thrown) : string :=
  match err with
  | ErrorObject e => errorToString e
  | Nullish v => nullishText v
  end.

(** The [TypeError] of reading the property [key] of [null] or
    [undefined], with the message of V8, the engine of Node.js. *)
Definition propertyTypeError (v : nullish) (key : string) : JsError :=
  {| error_name := "TypeError";
     message := "Cannot read properties of " ++ nullishText v
                  ++ " (reading '" ++ key ++ "')" |}.

Inductive outcome (A : Type) : Type :=
| Returned (a : A)
| Thrown (err : thrown).

Arguments Returned {A} a.
Arguments Thrown {A} err.

Section Command.

Context {host : JsHost}.

Variable World : Type.
Variable Buffer : Type.
Variable Renderer : Type.

Definition Async (A : Type) : Type := World -> outcome A * World.

Definition ret {A : Type} (a : A) : Async A := fun w => (Returned a, w).

Definition bind {A B : Type} (c : Async A) (k : A -> Async B) : Async B :=
  fun w =>
    match c w with
    | (Returned a, w') => k a w'
    | (Thrown e, w') => (Thrown e, w')
    end.

(** [try { c } catch (err) { handler }] *)
Definition tryCatch {A : Type} (c : Async A) (handler : thrown -> Async A)
  : Async A :=
  fun w =>
    match c w with
    | (Returned a, w') => (Returned a, w')
    | (Thrown e, w') => handler e w'
    end.

Notation "x <- c ;; k" := (bind c (fun x => k))
  (at level 61, c at next level, right associativity).

(** [apiClient.get<PlayerResponse>(endpoint, { name })] *)
Variable apiClient_get : string -> string -> Async (option PlayerResponse).
(** [getTypstRenderer(ctx, cfg, logger)] *)
Variable getTypstRenderer : Config -> Async Renderer.
(** [renderer.toPng(typstCode, scale)] *)
Variable toPng : Renderer -> string -> number -> Async Buffer.
(** [buildTypstTheme(cfg)] *)
Variable buildTypstTheme : Config -> TypstTheme.
(** [new Date().toLocaleString('zh-CN')] *)
Variable clock : World -> string.
Variable logger_warn : string -> World -> World.
Variable logger_error : string -> World -> World.

Definition warn (msg : string) : Async unit :=
  fun w => (Returned tt, logger_warn msg w).

Definition error (msg : string) : Async unit :=
  fun w => (Returned tt, logger_error msg w).

(** [err.message] and [error.name] on a caught value: [field] is the
    property of an [Error] object and [key] its name. *)
Definition readProperty (field : JsError -> string) (key : string) (err : thrown)
  : Async string :=
  fun w =>
    match err with
    | ErrorObject e => (Returned (field e), w)
    | Nullish v => (Thrown (propertyTypeError v key), w)
    end.

Inductive h : Type :=
| h_text (content : string)
| h_image (data : Buffer) (mime : string)
| h_quote (id : string).

Inductive Reply : Type :=
| ReplyText (content : string)
| ReplyElements (results : list h)
(** [h('', children)] *)
| ReplyFragment (children : list h).

(** The [typst-image] branch of the loop body, with its own [try]. *)
Definition renderTypstImage (data : option PlayerResponse) (name : string)
  (cfg : Config) (label : string) (results : list h) : Async (list h) :=
  tryCatch
    (renderer <- getTypstRenderer cfg ;;
     let theme := buildTypstTheme cfg in
     typstCode <- (fun w =>
       (Returned (generateTypstCode (clock w) data name theme cfg label), w)) ;;
     pngBuffer <- toPng renderer typstCode (typstRenderScale cfg) ;;
     ret (app results [h_image pngBuffer "image/png"]))
    (fun err =>
       _ <- warn ("Typst 渲染失败: " ++ thrownToString err) ;;
       err_message <- readProperty message "message" err ;;
       ret (app results [h_text ("[Typst 渲染失败: " ++ err_message ++ "]")])).

(** [for (const mode of modes) { ... }] *)
Fixpoint forModes (modes : list OutputMode) (data : option PlayerResponse)
  (name : string) (cfg : Config) (label : string) (results : list h)
  : Async (list h) :=
  match modes with
  | [] => ret results
  | mode :: rest =>
      results <-
        match mode with
        | text => ret (app results [h_text (formatTextOutput data name cfg label)])
        | typst_image => renderTypstImage data name cfg label results
        end ;;
      forModes rest data name cfg label results
  end.

Definition playerAction (cfg : Config) (prefix label : string)
  (session_messageId : option string) (options_mode : option string)
  (name : option string) : Async Reply :=
  if negb (truthy name) then
    ret (ReplyText ("❌ 请指定玩家名称，例如: " ++ prefix ++ ".player Steve"))
  else
    let name := orElse name EmptyString in
    tryCatch
      (data <- apiClient_get "/player" name ;;
       let modes := resolveOutputModes options_mode cfg in
       results <- forModes modes data name cfg label [] ;;
       if quoteCommandReplies cfg && truthy session_messageId
       then ret (ReplyFragment
                   (h_quote (orElse session_messageId EmptyString) :: results))
       else ret (ReplyElements results))
      (fun err =>
         _ <- error ("查询玩家失败: " ++ thrownToString err) ;;
         err_message <- readProperty message "message" err ;;
         ret (ReplyText ("❌ 查询玩家失败: " ++ err_message))).

(** The note that stands in for an image that could not be rendered. *)
Definition failureNote (err : JsError) : h :=
  h_text ("[Typst 渲染失败: " ++ message err ++ "]").


(** The reply the action builds from the results. *)
Definition replyOf (cfg : Config) (session_messageId : option string)
  (results : list h) : Reply :=
  if quoteCommandReplies cfg && truthy session_messageId
  then ReplyFragment (h_quote (orElse session_messageId EmptyString) :: results)
  else ReplyElements results.

End Command.

(** ** index.ts: colours and the theme *)

(** Drops the white space at the head of a string, the bytes in reading
    order. *)
Fixpoint skipWhite (l : list ascii) : list ascii :=
  match l with
  | [] => []
  | c :: r1 =>
      if isWhite1 c then skipWhite r1
      else
        match r1 with
        | [] => l
        | b :: r2 =>
            if isWhite2 c b then skipWhite r2
            else
              match r2 with
              | [] => l
              | a :: r3 => if isWhite3 c b a then skipWhite r3 else l
              end
        end
  end.

(** [s.trim()] *)
Definition trim (s : string) : string :=
  string_of_list_ascii (skipWhite (list_ascii_of_string (trimEnd s))).

(** [s.startsWith('#')] *)
Definition startsWithHash (s : string) : bool :=
  match s with
  | String c _ => Ascii.eqb c "#"
  | EmptyString => false
  end.

(** [\d] *)
Definition isDigit (c : ascii) : bool :=
  ((48 <=? N_of_ascii c) && (N_of_ascii c <=? 57))%N.

Definition andThen {A B : Type} (o : option A) (k : A -> option B) : option B :=
  match o with
  | Some a => k a
  | None => None
  end.

(** One literal character of a pattern, with the flag [i] when the two
    cases are given. *)
Definition expect (lower upper : ascii) (l : list ascii) : option (list ascii) :=
  match l with
  | c :: rest => if Ascii.eqb c lower || Ascii.eqb c upper then Some rest else None
  | [] => None
  end.

(** [(\d{1,3})]: the longest run of one to three digits.  What follows the
    group in the pattern never matches a digit, so a shorter run cannot
    lead to a match. *)
Definition digits1to3 (l : list ascii) : option (string * list ascii) :=
  match l with
  | d1 :: r1 =>
      if isDigit d1 then
        match r1 with
        | d2 :: r2 =>
            if isDigit d2 then
              match r2 with
              | d3 :: r3 =>
                  if isDigit d3
                  then Some (String d1 (String d2 (String d3 EmptyString)), r3)
                  else Some (String d1 (String d2 EmptyString), r2)
              | [] => Some (String d1 (String d2 EmptyString), r2)
              end
            else Some (String d1 EmptyString, r1)
        | [] => Some (String d1 EmptyString, r1)
        end
      else None
  | [] => None
  end.

(** [v.match(/^rgb\s*\(\s*(\d{1,3})\s*,\s*(\d{1,3})\s*,\s*(\d{1,3})\s*\)$/i)],
    the three groups.  [\s*] is followed by a character that is no white
    space, so it takes all the white space there is. *)
Definition matchRgb (v : string) : option (string * string * string) :=
  andThen (expect "r" "R" (list_ascii_of_string v)) (fun l =>
  andThen (expect "g" "G" l) (fun l =>
  andThen (expect "b" "B" l) (fun l =>
  andThen (expect "(" "(" (skipWhite l)) (fun l =>
  andThen (digits1to3 (skipWhite l)) (fun '(red, l) =>
  andThen (expect "," "," (skipWhite l)) (fun l =>
  andThen (digits1to3 (skipWhite l)) (fun '(green, l) =>
  andThen (expect "," "," (skipWhite l)) (fun l =>
  andThen (digits1to3 (skipWhite l)) (fun '(blue, l) =>
  andThen (expect ")" ")" (skipWhite l)) (fun l =>
  match l with
  | [] => Some (red, green, blue)
  | _ :: _ => None
  end)))))))))).

(** [`rgb("${x}")`] *)
Definition rgbQuoted (x : string) : string := "rgb(" ++ dq ++ x ++ dq ++ ")".

Definition toTypstColor (value : option string) (fallback : string) : string :=
  let v := trim (orElse value EmptyString) in
  match v with
  | EmptyString => rgbQuoted fallback
  | String _ _ =>
      if startsWithHash v then rgbQuoted v
      else
        match matchRgb v with
        | Some (red, green, blue) =>
            "rgb(" ++ red ++ ", " ++ green ++ ", " ++ blue ++ ")"
        | None => rgbQuoted fallback
        end
  end.

(** The fields of the configuration that [buildTypstTheme] reads. *)
Record ThemeConfig : Type := {
  typstFontFamily : option string;
  typstPageBgColor : option string;
  typstTextColor : option string;
  typstHeaderFillColor : option string;
  typstHeaderStrokeColor : option string;
  typstHeaderTextColor : option string;
  typstPanelFillColor : option string;
  typstPanelStrokeColor : option string;
  typstSectionTitleColor : option string;
  typstStatsTextColor : option string
}.

Definition buildTypstTheme (cfg : ThemeConfig) : TypstTheme :=
  {| fontFamily := orElse (typstFontFamily cfg) "LXGW WenKai Mono";
     pageBg := toTypstColor (typstPageBgColor cfg) "#f9efe2";
     textColor := toTypstColor (typstTextColor cfg) "#2f2f35";
     headerFill := toTypstColor (typstHeaderFillColor cfg) "#5dade2";
     headerStroke := toTypstColor (typstHeaderStrokeColor cfg) "#3498db";
     headerText := toTypstColor (typstHeaderTextColor cfg) "#ffffff";
     panelFill := toTypstColor (typstPanelFillColor cfg) "#fffbf8";
     panelStroke := toTypstColor (typstPanelStrokeColor cfg) "#f3efe5";
     sectionTitle := toTypstColor (typstSectionTitleColor cfg) "#2980b9";
     statsText := toTypstColor (typstStatsTextColor cfg) "#8788a5" |}.


(** ** index.ts: the REST client *)

(** The characters [encodeURIComponent] keeps: letters, digits and
    [- _ . ! ~ * ' ( )]. *)
Definition isUnreserved (c : ascii) : bool :=
  let n := N_of_ascii c in
  ((65 <=? n) && (n <=? 90) || (97 <=? n) && (n <=? 122)
   || (48 <=? n) && (n <=? 57))%N
  || existsb (Ascii.eqb c) ["-"; "_"; "."; "!"; "~"; "*"; "'"; "("; ")"]%char.

Definition hexDigit (n : N) : ascii :=
  match n with
  | 0 => "0" | 1 => "1" | 2 => "2" | 3 => "3" | 4 => "4" | 5 => "5"
  | 6 => "6" | 7 => "7" | 8 => "8" | 9 => "9" | 10 => "A" | 11 => "B"
  | 12 => "C" | 13 => "D" | 14 => "E" | _ => "F"
  end%N%char.

(** A byte as a percent sign and two capital hexadecimal digits. *)
Definition percentByte (c : ascii) : string :=
  String "%"
    (String (hexDigit (N_of_ascii c / 16))
       (String (hexDigit (N_of_ascii c mod 16)) EmptyString)).

(** [encodeURIComponent(s)]: the code points of [s] are written in UTF-8 and
    every byte that is not an unreserved character is percent-encoded, so on
    UTF-8 text the function works byte by byte.  (It throws on a lone
    surrogate, which has no UTF-8 form.) *)
Fixpoint encodeURIComponent (s : string) : string :=
  match s with
  | EmptyString => EmptyString
  | String c rest =>
      (if isUnreserved c then String c EmptyString else percentByte c)
      ++ encodeURIComponent rest
  end.

(** [obj[key] = value] on an object given by its entries in property order:
    the value of an own key is replaced where it stands; a new key that is
    no array index, as [token], goes last. *)
Fixpoint setProp (obj : list (string * string)) (key value : string)
  : list (string * string) :=
  match obj with
  | [] => [(key, value)]
  | (k, v) :: rest =>
      if String.eqb k key then (k, value) :: rest
      else (k, v) :: setProp rest key value
  end.

Section ApiClient.

Context {host : JsHost}.

(** The response of [fetch], as far as the client reads it. *)
Record Response : Type := {
  ok : bool;
  status : number;
  statusText : string
}.

(** The part of [Config] the client reads. *)
Record ApiConfig : Type := {
  serverIp : string;
  serverPort : number;
  token : option string;
  apiPrefix : string;
  timeout : number
}.

Definition baseUrl (cfg : ApiConfig) : string :=
  "http://" ++ serverIp cfg ++ ":" ++ Number_toString (serverPort cfg).

Definition apiBase (cfg : ApiConfig) : string :=
  baseUrl cfg ++ apiPrefix cfg.

(** [params] holds the entries of the object in the order of
    [Object.entries]; [None] is a missing argument. *)
Definition buildUrl (cfg : ApiConfig) (endpoint : string)
  (params : option (list (string * string))) : string :=
  let allParams := match params with Some entries => entries | None => [] end in
  let allParams :=
    if truthy (token cfg)
    then setProp allParams "token" (orElse (token cfg) EmptyString)
    else allParams in
  let queryString :=
    join (map (fun '(k, v) => encodeURIComponent k ++ "=" ++ encodeURIComponent v)
            allParams) "&" in
  match queryString with
  | String _ _ => endpoint ++ "?" ++ queryString
  | EmptyString => endpoint
  end.

Variable World : Type.
(** the type argument [T] of [get<T>] *)
Variable T : Type.

(** [fetch(url, { method: 'GET', headers, signal })] *)
Variable fetch : string -> Async World Response.
(** [response.json()] *)
Variable response_json : Response -> Async World T.
(** [JSON.stringify(data).substring(0, 200)] *)
Variable responseText : T -> string.
Variable logger_debug : list string -> World -> World.
(** [setTimeout(() => controller.abort(), ms)] *)
Variable setTimeout : number -> World -> World.
Variable clearTimeout : World -> World.

Notation "x <- c ;; k" := (bind c (fun x => k))
  (at level 61, c at next level, right associativity).

Definition effect (f : World -> World) : Async World unit :=
  fun w => (Returned tt, f w).

Definition throw {A : Type} (err : thrown) : Async World A :=
  fun w => (Thrown err, w).

(** [new Error(message)] *)
Definition newError (msg : string) : JsError :=
  {| error_name := "Error"; message := msg |}.

Definition get (cfg : ApiConfig) (endpoint : string)
  (params : option (list (string * string))) : Async World T :=
  let url := buildUrl cfg (apiBase cfg ++ endpoint) params in
  _ <- effect (logger_debug ["[API] GET " ++ url]) ;;
  _ <- effect (setTimeout (timeout cfg)) ;;
  tryCatch
    (response <- fetch url ;;
     _ <- effect clearTimeout ;;
     if negb (ok response) then
       throw (newError ("HTTP " ++ Number_toString (status response) ++ ": "
                          ++ statusText response))
     else
       data <- response_json response ;;
       _ <- effect (logger_debug ["[API] Response:"; responseText data]) ;;
       ret data)
    (fun error =>
       _ <- effect clearTimeout ;;
       name <- @readProperty World error_name "name" error ;;
       if String.eqb name "AbortError" then
         throw (newError ("请求超时 (" ++ Number_toString (timeout cfg) ++ "ms)"))
       else throw error).

End ApiClient.

(** ** index.ts: the shared renderer

    [init] waits for the rasteriser of [to-image-service] and loads the
    typst module; [getTypstRenderer] keeps one renderer in the module
    variable [sharedRenderer].  The services of the Koishi context, the
    timer and the module loader are collaborators that read and change an
    environment.  Calls are taken one after the other: a second call that
    starts while the first one waits is outside this model. *)

Section Renderer.

Context {host : JsHost}.

Variable Env : Type.
(** the typst module *)
Variable Module : Type.

(** [!!this.ctx.node] *)
Variable ctx_node : Env -> bool.
(** [!!this.ctx.toImageService] *)
Variable ctx_toImageService : Env -> bool.
(** [!!this.ctx.toImageService?.svgToImage?.resvg] *)
Variable resvg : Env -> bool.
(** [await new Promise(resolve => setTimeout(resolve, ms))] *)
Variable sleep : Z -> Env -> Env.
(** [await this.ctx.node.safeImport(name)]; a module that is [null] or
    [undefined] is [None] *)
Variable safeImport : string -> Async Env (option Module).
Variable logger_info : string -> Env -> Env.

(** The fields of a [TypstRenderer] that [init], [isReady] and
    [getTypstRenderer] read or write. *)
Record TypstRenderer : Type := {
  renderer_cfg : Config;
  typst : option Module;
  initialized : bool
}.

Definition typstModuleName : string := "@myriaddreamin/typst-ts-node-compiler".

Definition maxWaitMs : Z := 10000.
Definition intervalMs : Z := 200.

(** The [while] loop of [init], with the value of [waited]; [None] when
    the fuel is used up. *)
Fixpoint waitForResvg (fuel : nat) (waited : Z) (e : Env) : option Env :=
  match fuel with
  | O => if negb (resvg e) && (waited <? maxWaitMs)%Z then None else Some e
  | S fuel' =>
      if negb (resvg e) && (waited <? maxWaitMs)%Z
      then waitForResvg fuel' (waited + intervalMs) (sleep intervalMs e)
      else Some e
  end.

(** [this.init()]: the outcome, the fields of [this] and the environment
    afterwards. *)
Definition init (fuel : nat) (this : TypstRenderer) (e : Env)
  : option (outcome unit * (TypstRenderer * Env)) :=
  if negb (ctx_node e) then
    Some (Thrown (newError "w-node 服务未启用，无法使用 Typst 渲染"), (this, e))
  else if negb (ctx_toImageService e) then
    Some (Thrown (newError "to-image-service 服务未启用，无法使用 Typst 渲染"),
          (this, e))
  else
    match waitForResvg fuel 0 e with
    | None => None
    | Some e1 =>
        if negb (resvg e1) then
          Some (Thrown (newError ("to-image-service 的 svgToImage.resvg 在 "
                                    ++ decimal maxWaitMs ++ "ms 内未就绪")),
                (this, e1))
        else
          match safeImport typstModuleName e1 with
          | (Thrown err, e2) => Some (Thrown err, (this, e2))
          | (Returned m, e2) =>
              Some (Returned tt,
                    ({| renderer_cfg := renderer_cfg this; typst := m;
                        initialized := true |},
                     logger_info "Typst 模块加载成功" e2))
          end
    end.

(** [this.isReady()] *)
Definition isReady (this : TypstRenderer) : bool :=
  initialized this && match typst this with Some _ => true | None => false end.

(** [new TypstRenderer(ctx, logger, cfg)] *)
Definition newTypstRenderer (cfg : Config) : TypstRenderer :=
  {| renderer_cfg := cfg; typst := None; initialized := false |}.

(** [getTypstRenderer(ctx, cfg, logger)] on the module variable
    [sharedRenderer] and the environment.  The renderer is the one object
    the variable holds, so what [init] writes is seen through the
    variable, also when [init] throws. *)
Definition getTypstRenderer (fuel : nat) (cfg : Config)
  (w : option TypstRenderer * Env)
  : option (outcome TypstRenderer * (option TypstRenderer * Env)) :=
  let (sharedRenderer, e) := w in
  let renderer :=
    match sharedRenderer with
    | Some r => r
    | None => newTypstRenderer cfg
    end in
  if negb (isReady renderer) then
    match init fuel renderer e with
    | None => None
    | Some (Returned _, (renderer', e')) =>
        Some (Returned renderer', (Some renderer', e'))
    | Some (Thrown err, (renderer', e')) =>
        Some (Thrown err, (Some renderer', e'))
    end
  else Some (Returned renderer, (Some renderer, e)).

End Renderer.

(** * Vocabulary of the properties *)

(** ** Escaping, character by character *)

Fixpoint mapChars (f : ascii -> string) (s : string) : string :=
  match s with
  | EmptyString => EmptyString
  | String a rest => f a ++ mapChars f rest
  end.

(** The eleven characters of the escaping contract. *)
Definition isSpecial (c : ascii) : bool :=
  match N_of_ascii c with
  | 92%N  (* backslash *)
  | 91%N  (* [ *)
  | 93%N  (* ] *)
  | 35%N  (* # *)
  | 36%N  (* $ *)
  | 96%N  (* backtick *)
  | 42%N  (* * *)
  | 95%N  (* _ *)
  | 60%N  (* < *)
  | 62%N  (* > *)
  | 64%N  (* @ *) => true
  | _ => false
  end.

(** What [escapeTypstText] makes of one character. *)
Definition escapeChar (c : ascii) : string :=
  if isSpecial c then String "\" (String c EmptyString)
  else
    match N_of_ascii c with
    | 10%N => " "
    | 13%N => EmptyString
    | 9%N => " "
    | _ => String c EmptyString
    end.

(** The same as the specification words it: a carriage return becomes a
    space like a newline and a tab. *)
Definition escapeChar_as_specified (c : ascii) : string :=
  if isSpecial c then String "\" (String c EmptyString)
  else
    match N_of_ascii c with
    | 10%N | 13%N | 9%N => " "
    | _ => String c EmptyString
    end.

(** The escaping rules read backwards: a backslash yields the character that
    follows it. *)
Fixpoint unescapeTypstText (s : string) : string :=
  match s with
  | EmptyString => EmptyString
  | String c rest =>
      if Ascii.eqb c "\" then
        match rest with
        | EmptyString => String c EmptyString
        | String d rest' => String d (unescapeTypstText rest')
        end
      else String c (unescapeTypstText rest)
  end.

(** No special character occurs bare: each is the second character of a
    pair that a backslash opens, and no backslash is left dangling. *)
Fixpoint wellEscaped (s : string) : bool :=
  match s with
  | EmptyString => true
  | String c rest =>
      if Ascii.eqb c "\" then
        match rest with
        | EmptyString => false
        | String d rest' => isSpecial d && wellEscaped rest'
        end
      else negb (isSpecial c) && wellEscaped rest
  end.

Section Vocabulary.

Context {host : JsHost}.

(** Text that is safe between the brackets of a markup cell: well escaped
    text, printed numbers, and their concatenations. *)
Inductive Safe : string -> Prop :=
| Safe_escaped (s : string) : wellEscaped s = true -> Safe s
| Safe_number (n : number) : Safe (Number_toString n)
| Safe_fixed (n : number) : Safe (Number_toFixed2 n)
| Safe_app (a b : string) : Safe a -> Safe b -> Safe (a ++ b).

(** A row of a two-column table. *)
Definition TableRow (row : string) : Prop :=
  exists k v,
    Safe k /\ Safe v /\
    (row = "[" ++ k ++ "], [" ++ v ++ "],"
     \/ row = "[" ++ k ++ "], [#text(size: 9pt)[" ++ v ++ "]],").

(** An item of a grid. *)
Definition GridItem (item : string) : Prop :=
  exists v, Safe v /\ item = "[" ++ v ++ "]".

(** ** The parts of a markup document *)

Definition pageSetup (width : string) (theme : TypstTheme) : string :=
  tpl [ "#set page(";
        "  width: " ++ width ++ ",";
        "  height: auto,";
        "  margin: (x: 14pt, y: 14pt),";
        "  fill: " ++ pageBg theme;
        ")";
        EmptyString;
        EmptyString ].

Definition textSetup (theme : TypstTheme) : string :=
  tpl [ "#set text(";
        "  font: (" ++ dq ++ fontFamily theme ++ dq ++ ", " ++ dq ++ "Noto Sans CJK SC"
          ++ dq ++ ", " ++ dq ++ "Microsoft YaHei" ++ dq ++ "),";
        "  size: 11pt,";
        "  fill: " ++ textColor theme ++ ",";
        "  lang: " ++ dq ++ "zh" ++ dq;
        ")";
        EmptyString;
        EmptyString ].

(** The header block; [extra] is what follows the title inside the block. *)
Definition headerBlock (theme : TypstTheme) (title extra : string) : string :=
  tpl [ "#align(center)[";
        "  #block(";
        "    fill: " ++ headerFill theme ++ ",";
        "    stroke: 2pt + " ++ headerStroke theme ++ ",";
        "    radius: 6pt,";
        "    inset: 10pt,";
        "    width: 100%";
        "  )[";
        "    #text(size: 16pt, weight: " ++ dq ++ "bold" ++ dq ++ ", fill: "
          ++ headerText theme ++ ")[";
        "      " ++ title;
        "    ]" ++ extra;
        "  ]";
        "]";
        EmptyString;
        "#v(8pt)";
        EmptyString;
        EmptyString ].

Definition footerBlock (theme : TypstTheme) (stamp : string) : string :=
  tpl [ EmptyString;
        EmptyString;
        "#v(8pt)";
        EmptyString;
        "#align(center)[";
        "  #text(size: 8pt, fill: " ++ statsText theme ++ ")[";
        "    Generated by serverinfo-rest-client · " ++ stamp;
        "  ]";
        "]";
        EmptyString ].

(** The only panel of the not-found document. *)
Definition messagePanel (theme : TypstTheme) (queryName : string) : string :=
  tpl [ "#block(";
        "  fill: " ++ panelFill theme ++ ",";
        "  stroke: 1pt + " ++ panelStroke theme ++ ",";
        "  radius: 4pt,";
        "  inset: 12pt,";
        "  width: 100%";
        ")[";
        "  #align(center)[";
        "    #text(size: 12pt)[❌ 未找到玩家: " ++ escapeTypstText queryName ++ "]";
        "  ]";
        "]" ].

(** The flags line of the header of a player document. *)
Definition flagsLine (theme : TypstTheme) (flags : list string) : string :=
  nl ++ "    "
     ++ (if (0 <? length flags)%nat
         then "#h(8pt) #text(size: 11pt, fill: " ++ headerText theme ++ ")["
                ++ join flags " " ++ "]"
         else EmptyString).

(** What precedes the title in every panel. *)
Definition panelHead (theme : TypstTheme) : string :=
  tpl [ "#block(";
        "  fill: " ++ panelFill theme ++ ",";
        "  stroke: 1pt + " ++ panelStroke theme ++ ",";
        "  radius: 4pt,";
        "  inset: 12pt,";
        "  width: 100%";
        ")[";
        "  #text(weight: " ++ dq ++ "bold" ++ dq ++ ", fill: " ++ sectionTitle theme
          ++ ")[" ].

(** The text of a document up to its first empty line. *)
Fixpoint firstParagraph (doc : string) : string :=
  match doc with
  | EmptyString => EmptyString
  | String c rest =>
      if Ascii.eqb c "010" then
        match rest with
        | String d _ =>
            if Ascii.eqb d "010" then EmptyString
            else String c (firstParagraph rest)
        | EmptyString => String c EmptyString
        end
      else String c (firstParagraph rest)
  end.

(** ** The themed sections of the two formatters *)

Inductive TextSection : Type :=
| SecBasic | SecGame | SecExp | SecPos | SecEnv | SecDevice | SecItems.

Definition heading (s : TextSection) : string :=
  match s with
  | SecBasic => "📋 基本信息:"
  | SecGame => "🎮 游戏状态:"
  | SecExp => "⭐ 经验信息:"
  | SecPos => "📍 位置信息:"
  | SecEnv => "🌍 环境信息:"
  | SecDevice => "📱 设备信息:"
  | SecItems => "🎒 物品信息:"
  end.

(** The lines a section produced. *)
Definition sectionLines (s : TextSection) (player : PlayerResponse) (cfg : Config)
  : list string :=
  match s with
  | SecBasic => basicInfo player cfg
  | SecGame => gameStatus player cfg
  | SecExp => expInfo player cfg
  | SecPos => posInfo player cfg
  | SecEnv => envInfo player cfg
  | SecDevice =>
      match isFieldEnabled cfg "device", device player with
      | true, Some d => deviceInfo d cfg
      | _, _ => []
      end
  | SecItems => itemInfo player cfg
  end.

(** Every line of a section starts with the bullet. *)
Definition bulleted (line : string) : Prop := String.prefix "  • " line = true.

Definition allSections : list TextSection :=
  [SecBasic; SecGame; SecExp; SecPos; SecEnv; SecDevice; SecItems].

(** What a section contributes to [lines]: nothing when it produced no
    line, and otherwise its heading, its lines and, except after the last
    section, an empty line. *)
Definition sectionBlock (s : TextSection) (player : PlayerResponse) (cfg : Config)
  : list string :=
  match sectionLines s player cfg with
  | [] => []
  | ls =>
      heading s ::
      app ls match s with
             | SecItems => []
             | _ => [EmptyString]
             end
  end.

(** The field paths that enable the lines of a section. *)
Definition sectionPaths (s : TextSection) : list string :=
  match s with
  | SecBasic =>
      ["xuid"; "uuid"; "uniqueId"; "permLevel"; "isOP"; "isSimulatedPlayer";
       "langCode"]
  | SecGame =>
      ["gameMode"; "health"; "maxHealth"; "speed"; "isFlying"; "isSneaking";
       "isSprinting"; "isMoving"; "isInAir"; "isInWater"; "isInLava";
       "isOnGround"; "isOnFire"; "isSleeping"; "isGliding"; "isRiding";
       "isInvisible"; "isHungry"; "canFly"]
  | SecExp => ["level"; "currentExp"; "totalExp"; "expNeededForNextLevel"]
  | SecPos =>
      ["pos.dimId"; "pos"; "blockPos"; "feetPos"; "lastDeathPos"; "respawnPos"]
  | SecEnv => ["biome"; "biome.name"; "standingOn"; "standingOn.name"]
  | SecDevice =>
      ["device.os"; "device.inputMode"; "device.ip"; "device.clientId";
       "device.serverAddress"; "device.avgPing"; "device.lastPing";
       "device.avgPacketLoss"; "device.lastPacketLoss"]
  | SecItems => ["handItem"; "offHandItem"; "armor"; "tags"]
  end.

Inductive Panel : Type :=
| PanBasic | PanGame | PanExp | PanPos | PanEnv | PanDevice.

Definition panelRows (s : Panel) (player : PlayerResponse) (cfg : Config)
  : list string :=
  match s with
  | PanBasic => basicInfoRows player cfg
  | PanGame => gameStatusItems player cfg
  | PanExp => expItems player cfg
  | PanPos => posInfoRows player cfg
  | PanEnv => envInfoRows player cfg
  | PanDevice => deviceInfoRows player cfg
  end.

Definition allPanels : list Panel :=
  [PanBasic; PanGame; PanExp; PanPos; PanEnv; PanDevice].

Definition panelTitle (s : Panel) : string :=
  match s with
  | PanBasic => "📋 基本信息"
  | PanGame => "🎮 游戏状态"
  | PanExp => "⭐ 经验信息"
  | PanPos => "📍 位置信息"
  | PanEnv => "🌍 环境信息"
  | PanDevice => "📱 设备信息"
  end.

(** The panel of a section, as the code renders it from the rows. *)
Definition panelOf (s : Panel) (theme : TypstTheme) (rows : list string) : string :=
  match s with
  | PanBasic => tablePanel theme "📋 基本信息" rows
  | PanGame => gridPanel theme "🎮 游戏状态" rows
  | PanExp => gridPanel theme "⭐ 经验信息" rows
  | PanPos => tablePanel theme "📍 位置信息" rows
  | PanEnv => tablePanel theme "🌍 环境信息" rows
  | PanDevice => tablePanel theme "📱 设备信息" rows
  end.

(** What a section contributes to [panels]. *)
Definition panelBlock (s : Panel) (player : PlayerResponse) (theme : TypstTheme)
  (cfg : Config) : list string :=
  match panelRows s player cfg with
  | [] => []
  | rows => [panelOf s theme rows]
  end.

Definition panelPaths (s : Panel) : list string :=
  match s with
  | PanBasic =>
      ["xuid"; "uuid"; "uniqueId"; "permLevel"; "isSimulatedPlayer"; "langCode"]
  | PanGame => ["gameMode"; "health"; "maxHealth"; "speed"; "isHungry"]
  | PanExp => ["level"; "currentExp"; "totalExp"; "expNeededForNextLevel"]
  | PanPos => ["pos.dimId"; "pos"; "blockPos"; "lastDeathPos"; "respawnPos"]
  | PanEnv => ["biome"; "biome.name"; "standingOn"; "standingOn.name"]
  | PanDevice =>
      ["device.os"; "device.inputMode"; "device.ip"; "device.serverAddress";
       "device.avgPing"; "device.lastPing"; "device.avgPacketLoss"]
  end.

(** The record is absent or has no identifying name ([!player ||
    !player.name]). *)
Definition hasNoName (player : option PlayerResponse) : Prop :=
  match player with
  | Some p => truthy (name p) = false
  | None => True
  end.

(** The record with other health values. *)
Definition withHealth (h m : number) (p : PlayerResponse) : PlayerResponse :=
  {| name := name p; xuid := xuid p; uuid := uuid p; uniqueId := uniqueId p;
     permLevel := permLevel p; gameMode := gameMode p; isOP := isOP p;
     isSimulatedPlayer := isSimulatedPlayer p;
     health := h; maxHealth := m;
     pos := pos p; blockPos := blockPos p; feetPos := feetPos p;
     lastDeathPos := lastDeathPos p; respawnPos := respawnPos p;
     speed := speed p; biome := biome p; standingOn := standingOn p;
     isFlying := isFlying p; isSneaking := isSneaking p;
     isSprinting := isSprinting p; isMoving := isMoving p; isInAir := isInAir p;
     isInWater := isInWater p; isInLava := isInLava p;
     isOnGround := isOnGround p; isOnFire := isOnFire p;
     isSleeping := isSleeping p; isGliding := isGliding p;
     isRiding := isRiding p; isInvisible := isInvisible p;
     isHungry := isHungry p; canFly := canFly p; canSleep := canSleep p;
     canPickupItems := canPickupItems p; level := level p;
     currentExp := currentExp p; totalExp := totalExp p;
     expNeededForNextLevel := expNeededForNextLevel p;
     handItem := handItem p; offHandItem := offHandItem p; armor := armor p;
     tags := tags p; device := device p; langCode := langCode p |}.

End Vocabulary.

(** ** Vocabulary of the further properties *)

(** The number of characters of [s] that satisfy [f]. *)
Fixpoint countIf (f : ascii -> bool) (s : string) : nat :=
  match s with
  | EmptyString => 0
  | String c rest => (if f c then 1 else 0) + countIf f rest
  end.

Definition isCarriageReturn (c : ascii) : bool := Ascii.eqb c "013".

(** Newline, carriage return or tab. *)
Definition isLayout (c : ascii) : bool :=
  Ascii.eqb c "010" || Ascii.eqb c "013" || Ascii.eqb c "009".

(** One to three decimal digits. *)
Definition digitGroup (s : string) : Prop :=
  1 <= String.length s <= 3 /\ countIf isDigit s = String.length s.

(** A colour expression of the markup language as the theme holds it: a
    quoted text, or three digit groups. *)
Definition IsColour (s : string) : Prop :=
  (exists x, s = rgbQuoted x)
  \/ (exists red green blue,
        digitGroup red /\ digitGroup green /\ digitGroup blue
        /\ s = "rgb(" ++ red ++ ", " ++ green ++ ", " ++ blue ++ ")").

(** [n] spaces. *)
Fixpoint spaces (n : nat) : string :=
  match n with
  | O => EmptyString
  | S m => String " " (spaces m)
  end.

(** The word [rgb] with chosen capitals. *)
Definition rgbWord (u1 u2 u3 : bool) : string :=
  String (if u1 then "R" else "r")
    (String (if u2 then "G" else "g")
       (String (if u3 then "B" else "b") EmptyString)).


(** The text does not start with a digit. *)
Definition headNotDigit (s : string) : Prop :=
  match s with
  | String c _ => isDigit c = false
  | EmptyString => True
  end.


(** The integers a double holds exactly. *)
Definition safeInteger (n : Z) : Prop :=
  (- 9007199254740992 <= n <= 9007199254740992)%Z.

Section FurtherVocabulary.

Context {host : JsHost}.

(** The record with another device. *)
Definition withDevice (d : option DeviceInfo) (p : PlayerResponse)
  : PlayerResponse :=
  {| name := name p; xuid := xuid p; uuid := uuid p; uniqueId := uniqueId p;
     permLevel := permLevel p; gameMode := gameMode p; isOP := isOP p;
     isSimulatedPlayer := isSimulatedPlayer p;
     health := health p; maxHealth := maxHealth p;
     pos := pos p; blockPos := blockPos p; feetPos := feetPos p;
     lastDeathPos := lastDeathPos p; respawnPos := respawnPos p;
     speed := speed p; biome := biome p; standingOn := standingOn p;
     isFlying := isFlying p; isSneaking := isSneaking p;
     isSprinting := isSprinting p; isMoving := isMoving p; isInAir := isInAir p;
     isInWater := isInWater p; isInLava := isInLava p;
     isOnGround := isOnGround p; isOnFire := isOnFire p;
     isSleeping := isSleeping p; isGliding := isGliding p;
     isRiding := isRiding p; isInvisible := isInvisible p;
     isHungry := isHungry p; canFly := canFly p; canSleep := canSleep p;
     canPickupItems := canPickupItems p; level := level p;
     currentExp := currentExp p; totalExp := totalExp p;
     expNeededForNextLevel := expNeededForNextLevel p;
     handItem := handItem p; offHandItem := offHandItem p; armor := armor p;
     tags := tags p; device := d; langCode := langCode p |}.

(** The device with another address. *)
Definition withIp (address : string) (d : DeviceInfo) : DeviceInfo :=
  {| ip := address; os := os d; clientId := clientId d;
     inputMode := inputMode d; serverAddress := serverAddress d;
     avgPing := avgPing d; avgPacketLoss := avgPacketLoss d;
     lastPing := lastPing d; lastPacketLoss := lastPacketLoss d |}.

(** The device with another client id and another last packet loss, the
    two device fields that only the text formatter prints. *)
Definition withClient (id : string) (loss : number) (d : DeviceInfo) : DeviceInfo :=
  {| ip := ip d; os := os d; clientId := id;
     inputMode := inputMode d; serverAddress := serverAddress d;
     avgPing := avgPing d; avgPacketLoss := avgPacketLoss d;
     lastPing := lastPing d; lastPacketLoss := loss |}.

(** The record with other values in the fields that only the text
    formatter prints: feet position, items, armor, tags, and the flags
    [isMoving], [isInAir], [isOnGround], [isSleeping] and [canFly]. *)
Definition withTextOnly (feet : option Position) (hand off : option object)
  (worn : option (list object)) (labels : option (list string))
  (moving inAir onGround sleeping fly : bool) (p : PlayerResponse)
  : PlayerResponse :=
  {| name := name p; xuid := xuid p; uuid := uuid p; uniqueId := uniqueId p;
     permLevel := permLevel p; gameMode := gameMode p; isOP := isOP p;
     isSimulatedPlayer := isSimulatedPlayer p;
     health := health p; maxHealth := maxHealth p;
     pos := pos p; blockPos := blockPos p; feetPos := feet;
     lastDeathPos := lastDeathPos p; respawnPos := respawnPos p;
     speed := speed p; biome := biome p; standingOn := standingOn p;
     isFlying := isFlying p; isSneaking := isSneaking p;
     isSprinting := isSprinting p; isMoving := moving; isInAir := inAir;
     isInWater := isInWater p; isInLava := isInLava p;
     isOnGround := onGround; isOnFire := isOnFire p;
     isSleeping := sleeping; isGliding := isGliding p;
     isRiding := isRiding p; isInvisible := isInvisible p;
     isHungry := isHungry p; canFly := fly; canSleep := canSleep p;
     canPickupItems := canPickupItems p; level := level p;
     currentExp := currentExp p; totalExp := totalExp p;
     expNeededForNextLevel := expNeededForNextLevel p;
     handItem := hand; offHandItem := off; armor := worn;
     tags := labels; device := device p; langCode := langCode p |}.

(** [o] is present. *)
Definition isSome {A : Type} (o : option A) : bool :=
  match o with
  | Some _ => true
  | None => false
  end.

(** The position with other coordinates in the same dimension. *)
Definition relocate (x' y' z' : number) (q : Position) : Position :=
  {| x := x'; y := y'; z := z'; dimId := dimId q |}.

(** The record with another precise position. *)
Definition withPos (q : option Position) (p : PlayerResponse) : PlayerResponse :=
  {| name := name p; xuid := xuid p; uuid := uuid p; uniqueId := uniqueId p;
     permLevel := permLevel p; gameMode := gameMode p; isOP := isOP p;
     isSimulatedPlayer := isSimulatedPlayer p;
     health := health p; maxHealth := maxHealth p;
     pos := q; blockPos := blockPos p; feetPos := feetPos p;
     lastDeathPos := lastDeathPos p; respawnPos := respawnPos p;
     speed := speed p; biome := biome p; standingOn := standingOn p;
     isFlying := isFlying p; isSneaking := isSneaking p;
     isSprinting := isSprinting p; isMoving := isMoving p; isInAir := isInAir p;
     isInWater := isInWater p; isInLava := isInLava p;
     isOnGround := isOnGround p; isOnFire := isOnFire p;
     isSleeping := isSleeping p; isGliding := isGliding p;
     isRiding := isRiding p; isInvisible := isInvisible p;
     isHungry := isHungry p; canFly := canFly p; canSleep := canSleep p;
     canPickupItems := canPickupItems p; level := level p;
     currentExp := currentExp p; totalExp := totalExp p;
     expNeededForNextLevel := expNeededForNextLevel p;
     handItem := handItem p; offHandItem := offHandItem p; armor := armor p;
     tags := tags p; device := device p; langCode := langCode p |}.


End FurtherVocabulary.


(** The value of a capital hexadecimal digit. *)
Definition hexValue (c : ascii) : N :=
  let n := N_of_ascii c in
  (if n <? 58 then n - 48 else n - 55)%N.

(** Reads percent-encoded text back: a percent sign and two digits give a
    byte, any other character stands for itself. *)
Fixpoint percentDecode (s : string) : string :=
  match s with
  | EmptyString => EmptyString
  | String c rest =>
      match rest with
      | String hi (String lo rest') =>
          if Ascii.eqb c "%"
          then String (ascii_of_N (16 * hexValue hi + hexValue lo))
                 (percentDecode rest')
          else String c (percentDecode rest)
      | _ => String c (percentDecode rest)
      end
  end.

(** The configuration with another token. *)
Definition withToken {host : JsHost} (t : option string) (cfg : ApiConfig)
  : ApiConfig :=
  {| serverIp := serverIp cfg; serverPort := serverPort cfg; token := t;
     apiPrefix := apiPrefix cfg; timeout := timeout cfg |}.

(** The environment after [k] rounds of the wait loop. *)
Fixpoint sleeps {Env : Type} (sleep : Z -> Env -> Env) (k : nat) (e : Env)
  : Env :=
  match k with
  | O => e
  | S k' => sleeps sleep k' (sleep intervalMs e)
  end.

Section RendererVocabulary.

Context {host : JsHost}.

Variable Env : Type.
Variable Module : Type.
Variable ctx_node : Env -> bool.
Variable ctx_toImageService : Env -> bool.
Variable resvg : Env -> bool.
Variable sleep : Z -> Env -> Env.
Variable safeImport : string -> Async Env (option Module).
Variable logger_info : string -> Env -> Env.

(** Calls of [getTypstRenderer] one after the other, one per
    configuration: the module variable and the environment after the last
    one. *)
Fixpoint rendererCalls (fuel : nat) (cfgs : list Config)
  (w : option (TypstRenderer Module) * Env)
  : option (option (TypstRenderer Module) * Env) :=
  match cfgs with
  | [] => Some w
  | cfg :: rest =>
      match getTypstRenderer ctx_node ctx_toImageService resvg sleep safeImport
              logger_info fuel cfg w with
      | Some (_, w') => rendererCalls fuel rest w'
      | None => None
      end
  end.

End RendererVocabulary.

Section RequestVocabulary.

Context {host : JsHost}.

Variable World : Type.
Variable Buffer : Type.
Variable Renderer : Type.
Variable getTypstRenderer : Config -> Async World Renderer.
Variable toPng : Renderer -> string -> number -> Async World Buffer.
Variable buildTypstTheme : Config -> TypstTheme.
Variable clock : World -> string.
Variable logger_warn : string -> World -> World.

(** What the selected modes give, one after the other, when every failure
    of the image pipeline is an [Error]: [ModeResults data name cfg label
    modes w results w'] says that, started in the world [w], the modes give
    the elements [results], one per mode and in their order, and leave the
    world [w'].  A text mode gives the text rendering and leaves the world
    alone.  An image mode asks for the renderer and then, with the document
    made at the time the clock shows, for the picture: it gives the picture,
    or, when one of the two throws an [Error], the failure note with the
    message of that error after a warning was logged; in each case the modes
    that follow go on from the world this left. *)
Inductive ModeResults (data : option PlayerResponse) (name : string)
  (cfg : Config) (label : string)
  : list OutputMode -> World -> list (h Buffer) -> World -> Prop :=
| results_done (w : World) :
    ModeResults data name cfg label [] w [] w
| results_text (rest : list OutputMode) (w w' : World) (rs : list (h Buffer)) :
    ModeResults data name cfg label rest w rs w' ->
    ModeResults data name cfg label (text :: rest) w
      (h_text Buffer (formatTextOutput data name cfg label) :: rs) w'
| results_image (rest : list OutputMode) (w w1 w2 w' : World)
    (renderer : Renderer) (png : Buffer) (rs : list (h Buffer)) :
    getTypstRenderer cfg w = (Returned renderer, w1) ->
    toPng renderer
      (generateTypstCode (clock w1) data name (buildTypstTheme cfg) cfg label)
      (typstRenderScale cfg) w1 = (Returned png, w2) ->
    ModeResults data name cfg label rest w2 rs w' ->
    ModeResults data name cfg label (typst_image :: rest) w
      (h_image png "image/png" :: rs) w'
| results_renderer_failed (rest : list OutputMode) (w w1 w' : World)
    (err : JsError) (rs : list (h Buffer)) :
    getTypstRenderer cfg w = (Thrown (ErrorObject err), w1) ->
    ModeResults data name cfg label rest
      (logger_warn ("Typst 渲染失败: " ++ errorToString err) w1) rs w' ->
    ModeResults data name cfg label (typst_image :: rest) w
      (failureNote Buffer err :: rs) w'
| results_rasteriser_failed (rest : list OutputMode) (w w1 w2 w' : World)
    (renderer : Renderer) (err : JsError) (rs : list (h Buffer)) :
    getTypstRenderer cfg w = (Returned renderer, w1) ->
    toPng renderer
      (generateTypstCode (clock w1) data name (buildTypstTheme cfg) cfg label)
      (typstRenderScale cfg) w1 = (Thrown (ErrorObject err), w2) ->
    ModeResults data name cfg label rest
      (logger_warn ("Typst 渲染失败: " ++ errorToString err) w2) rs w' ->
    ModeResults data name cfg label (typst_image :: rest) w
      (failureNote Buffer err :: rs) w'.


End RequestVocabulary.


(** ** Sample data *)

(** The default of [playerFieldFilters] in config.ts. *)
Definition defaultPlayerFieldFilters : list FieldFilter :=
  [ {| key := "name"; enabled := true |};
    {| key := "xuid"; enabled := true |};
    {| key := "uuid"; enabled := true |};
    {| key := "uniqueId"; enabled := false |};
    {| key := "permLevel"; enabled := true |};
    {| key := "isOP"; enabled := true |};
    {| key := "isSimulatedPlayer"; enabled := true |};
    {| key := "langCode"; enabled := true |};
    {| key := "gameMode"; enabled := true |};
    {| key := "health"; enabled := true |};
    {| key := "maxHealth"; enabled := true |};
    {| key := "speed"; enabled := true |};
    {| key := "isFlying"; enabled := true |};
    {| key := "isSneaking"; enabled := true |};
    {| key := "isSprinting"; enabled := true |};
    {| key := "isMoving"; enabled := true |};
    {| key := "isInAir"; enabled := true |};
    {| key := "isInWater"; enabled := true |};
    {| key := "isInLava"; enabled := true |};
    {| key := "isOnGround"; enabled := true |};
    {| key := "isOnFire"; enabled := true |};
    {| key := "isSleeping"; enabled := true |};
    {| key := "isGliding"; enabled := true |};
    {| key := "isRiding"; enabled := true |};
    {| key := "isInvisible"; enabled := true |};
    {| key := "isHungry"; enabled := true |};
    {| key := "canFly"; enabled := true |};
    {| key := "canSleep"; enabled := true |};
    {| key := "canPickupItems"; enabled := true |};
    {| key := "pos"; enabled := false |};
    {| key := "pos.dimId"; enabled := true |};
    {| key := "blockPos"; enabled := false |};
    {| key := "feetPos"; enabled := false |};
    {| key := "lastDeathPos"; enabled := false |};
    {| key := "respawnPos"; enabled := false |};
    {| key := "direction"; enabled := false |};
    {| key := "biome"; enabled := true |};
    {| key := "biome.id"; enabled := false |};
    {| key := "biome.name"; enabled := true |};
    {| key := "standingOn"; enabled := true |};
    {| key := "standingOn.type"; enabled := false |};
    {| key := "standingOn.name"; enabled := true |};
    {| key := "level"; enabled := true |};
    {| key := "currentExp"; enabled := true |};
    {| key := "totalExp"; enabled := true |};
    {| key := "expNeededForNextLevel"; enabled := true |};
    {| key := "handItem"; enabled := true |};
    {| key := "offHandItem"; enabled := true |};
    {| key := "armor"; enabled := true |};
    {| key := "tags"; enabled := true |};
    {| key := "device"; enabled := false |};
    {| key := "device.ip"; enabled := false |};
    {| key := "device.os"; enabled := true |};
    {| key := "device.clientId"; enabled := false |};
    {| key := "device.inputMode"; enabled := true |};
    {| key := "device.serverAddress"; enabled := false |};
    {| key := "device.avgPing"; enabled := true |};
    {| key := "device.avgPacketLoss"; enabled := true |};
    {| key := "device.lastPing"; enabled := true |};
    {| key := "device.lastPacketLoss"; enabled := true |} ].

Definition defaultConfig : Config :=
  {| playerFieldFilters := Some defaultPlayerFieldFilters;
     defaultOutputModes := [text];
     quoteCommandReplies := true;
     typstRenderScale := 2%Z |}.

(** The default configuration with chosen filters and modes. *)
Definition configWith (filters : list FieldFilter) (modes : list OutputMode)
  : Config :=
  {| playerFieldFilters := Some filters;
     defaultOutputModes := modes;
     quoteCommandReplies := true;
     typstRenderScale := 2%Z |}.

(** Every path of the experience section switched off. *)
Definition configWithoutExperience : Config :=
  configWith [ {| key := "level"; enabled := false |};
               {| key := "currentExp"; enabled := false |};
               {| key := "totalExp"; enabled := false |};
               {| key := "expNeededForNextLevel"; enabled := false |} ] [text].

(** The health switched off, the maximum left on. *)
Definition configWithoutHealth : Config :=
  configWith [ {| key := "health"; enabled := false |};
               {| key := "maxHealth"; enabled := true |} ] [text].

(** The theme [buildTypstTheme] makes of the default colours. *)
Definition defaultTheme : TypstTheme :=
  {| fontFamily := "LXGW WenKai Mono";
     pageBg := "rgb(" ++ dq ++ "#f9efe2" ++ dq ++ ")";
     textColor := "rgb(" ++ dq ++ "#2f2f35" ++ dq ++ ")";
     headerFill := "rgb(" ++ dq ++ "#5dade2" ++ dq ++ ")";
     headerStroke := "rgb(" ++ dq ++ "#3498db" ++ dq ++ ")";
     headerText := "rgb(" ++ dq ++ "#ffffff" ++ dq ++ ")";
     panelFill := "rgb(" ++ dq ++ "#fffbf8" ++ dq ++ ")";
     panelStroke := "rgb(" ++ dq ++ "#f3efe5" ++ dq ++ ")";
     sectionTitle := "rgb(" ++ dq ++ "#2980b9" ++ dq ++ ")";
     statsText := "rgb(" ++ dq ++ "#8788a5" ++ dq ++ ")" |}.

(** A flying player with 18 of 20 health points and no nested data. *)
Definition steve : PlayerResponse :=
  {| name := Some "Steve"; xuid := "123"; uuid := "u-1"; uniqueId := "-4294967295";
     permLevel := 0%Z; gameMode := 0%Z; isOP := false; isSimulatedPlayer := false;
     health := 18%Z; maxHealth := 20%Z;
     pos := None; blockPos := None; feetPos := None; lastDeathPos := None;
     respawnPos := None; speed := None; biome := None; standingOn := None;
     isFlying := true; isSneaking := false; isSprinting := false; isMoving := false;
     isInAir := false; isInWater := false; isInLava := false; isOnGround := false;
     isOnFire := false; isSleeping := false; isGliding := false; isRiding := false;
     isInvisible := false; isHungry := false; canFly := false; canSleep := false;
     canPickupItems := false; level := 0%Z; currentExp := 0%Z; totalExp := 0%Z;
     expNeededForNextLevel := 7%Z;
     handItem := None; offHandItem := None; armor := None; tags := None;
     device := None; langCode := "zh_CN" |}.

(** The same record with a language code that holds a line break and the
    text of the experience heading. *)
Definition forgedSteve : PlayerResponse :=
  {| name := Some "Steve"; xuid := "123"; uuid := "u-1"; uniqueId := "-4294967295";
     permLevel := 0%Z; gameMode := 0%Z; isOP := false; isSimulatedPlayer := false;
     health := 18%Z; maxHealth := 20%Z;
     pos := None; blockPos := None; feetPos := None; lastDeathPos := None;
     respawnPos := None; speed := None; biome := None; standingOn := None;
     isFlying := true; isSneaking := false; isSprinting := false; isMoving := false;
     isInAir := false; isInWater := false; isInLava := false; isOnGround := false;
     isOnFire := false; isSleeping := false; isGliding := false; isRiding := false;
     isInvisible := false; isHungry := false; canFly := false; canSleep := false;
     canPickupItems := false; level := 0%Z; currentExp := 0%Z; totalExp := 0%Z;
     expNeededForNextLevel := 7%Z;
     handItem := None; offHandItem := None; armor := None; tags := None;
     device := None; langCode := "zh_CN" ++ nl ++ "⭐ 经验信息:" |}.

(** The same record without its name. *)
Definition nameless : PlayerResponse :=
  {| name := None; xuid := "123"; uuid := "u-1"; uniqueId := "-4294967295";
     permLevel := 0%Z; gameMode := 0%Z; isOP := false; isSimulatedPlayer := false;
     health := 18%Z; maxHealth := 20%Z;
     pos := None; blockPos := None; feetPos := None; lastDeathPos := None;
     respawnPos := None; speed := None; biome := None; standingOn := None;
     isFlying := true; isSneaking := false; isSprinting := false; isMoving := false;
     isInAir := false; isInWater := false; isInLava := false; isOnGround := false;
     isOnFire := false; isSleeping := false; isGliding := false; isRiding := false;
     isInvisible := false; isHungry := false; canFly := false; canSleep := false;
     canPickupItems := false; level := 0%Z; currentExp := 0%Z; totalExp := 0%Z;
     expNeededForNextLevel := 7%Z;
     handItem := None; offHandItem := None; armor := None; tags := None;
     device := None; langCode := "zh_CN" |}.

(** A world that keeps the log, in which the REST service knows [steve],
    the renderer cannot be initialised (the error of [TypstRenderer.init]
    when the [node] service is missing) and the clock stands still. *)
Definition SampleWorld : Type := list string.

Definition sample_get (endpoint name : string)
  : SampleWorld -> outcome (option PlayerResponse) * SampleWorld :=
  fun w => (Returned (Some steve), w).

Definition sample_getTypstRenderer (cfg : Config)
  : SampleWorld -> outcome unit * SampleWorld :=
  fun w =>
    (Thrown {| error_name := "Error";
               message := "w-node 服务未启用，无法使用 Typst 渲染" |}, w).

Definition sample_toPng (renderer : unit) (typstCode : string) (scale : Z)
  : SampleWorld -> outcome string * SampleWorld :=
  fun w => (Returned typstCode, w).

Definition sample_clock (w : SampleWorld) : string := "2026/11/2 10:00:00".

Definition sample_log (msg : string) (w : SampleWorld) : SampleWorld :=
  app w [msg].

Definition sampleAction (cfg : Config) (options_mode name : option string)
  : SampleWorld -> outcome (Reply string) * SampleWorld :=
  playerAction sample_get sample_getTypstRenderer sample_toPng
    (fun _ => defaultTheme) sample_clock sample_log sample_log
    cfg "mcinfo" "[mc]" (Some "msg-1") options_mode name.

(** A client of a local server with a token; the sample requests leave a
    trace of what they did in the world. *)
Definition sampleApi : @ApiConfig IntegerHost :=
  {| serverIp := "127.0.0.1"; serverPort := 60202%Z; token := Some "s3cret";
     apiPrefix := "/api"; timeout := 5000%Z |}.

Definition notFound : @Response IntegerHost :=
  {| ok := false; status := 404%Z; statusText := "Not Found" |}.

Definition found : @Response IntegerHost :=
  {| ok := true; status := 200%Z; statusText := "OK" |}.

Definition aborted : JsError :=
  {| error_name := "AbortError"; message := "This operation was aborted" |}.

Definition sample_fetch (answer : outcome (@Response IntegerHost)) (url : string)
  : SampleWorld -> outcome (@Response IntegerHost) * SampleWorld :=
  fun w => (answer, app w ["fetch " ++ url]).

Definition sample_json (r : @Response IntegerHost)
  : SampleWorld -> outcome (option PlayerResponse) * SampleWorld :=
  fun w => (Returned (Some steve), app w ["json"]).

Definition sample_debug (args : list string) (w : SampleWorld) : SampleWorld :=
  app w [join args " "].

Definition sample_setTimeout (ms : Z) (w : SampleWorld) : SampleWorld :=
  app w ["setTimeout " ++ decimal ms].

Definition sample_clearTimeout (w : SampleWorld) : SampleWorld :=
  app w ["clearTimeout"].

Definition sampleRequest (answer : outcome (@Response IntegerHost))
  (endpoint : string) (params : option (list (string * string)))
  : SampleWorld -> outcome (option PlayerResponse) * SampleWorld :=
  get (sample_fetch answer) sample_json (fun _ => "{...}") sample_debug
    sample_setTimeout sample_clearTimeout sampleApi endpoint params.

(** An environment that counts the rounds waited: the rasteriser is there
    from the third round on, and the typst module loads. *)
Definition SampleEnv : Type := nat.

Definition sample_resvg (e : SampleEnv) : bool := Nat.leb 3 e.

Definition sample_sleep (ms : Z) (e : SampleEnv) : SampleEnv := S e.

Definition sample_safeImport (name : string)
  : SampleEnv -> outcome (option unit) * SampleEnv :=
  fun e => (Returned (Some tt), e).

Definition sampleRenderer (node : bool) (fuel : nat) (cfg : Config)
  : option (TypstRenderer unit) * SampleEnv ->
    option (outcome (TypstRenderer unit) * (option (TypstRenderer unit) * SampleEnv)) :=
  getTypstRenderer (fun _ => node) (fun _ => true) sample_resvg sample_sleep
    sample_safeImport (fun _ e => e) fuel cfg.

Definition readyRenderer : TypstRenderer unit :=
  {| renderer_cfg := defaultConfig; typst := Some tt; initialized := true |}.

(** * String lemmas *)

Lemma append_assoc (a b c : string) : (a ++ b) ++ c = a ++ (b ++ c).
Proof.
  induction a as [|ch a IH]; simpl; [reflexivity|].
  now rewrite IH.
Qed.

Lemma append_nil_r (a : string) : a ++ EmptyString = a.
Proof.
  induction a as [|ch a IH]; simpl; [reflexivity|].
  now rewrite IH.
Qed.

Lemma append_inv_head (a b c : string) : a ++ b = a ++ c -> b = c.
Proof.
  induction a as [|ch a IH]; simpl; intros H; [exact H|].
  injection H as H. now apply IH.
Qed.

Lemma prefix_append (a b : string) : String.prefix a (a ++ b) = true.
Proof.
  induction a as [|ch a IH]; simpl.
  - now destruct b.
  - destruct (ascii_dec ch ch) as [_|n]; [exact IH|now elim n].
Qed.

Lemma prefix_split (a s : string) :
  String.prefix a s = true -> exists rest, s = a ++ rest.
Proof.
  revert s. induction a as [|ch a IH]; intros s H.
  - now exists s.
  - destruct s as [|c s]; simpl in H; [discriminate|].
    destruct (ascii_dec ch c) as [->|_]; [|discriminate].
    destruct (IH _ H) as [rest ->]. now exists rest.
Qed.

Lemma infixb_true (sub s : string) : infixb sub s = true -> Infix sub s.
Proof.
  induction s as [|c s IH]; cbn [infixb]; intros H.
  - rewrite orb_false_r in H. destruct (prefix_split _ _ H) as [rest E].
    exists EmptyString, rest. exact E.
  - apply orb_true_iff in H. destruct H as [H|H].
    + destruct (prefix_split _ _ H) as [rest E].
      exists EmptyString, rest. exact E.
    + destruct (IH H) as (before & after & ->).
      now exists (String c before), after.
Qed.

Lemma Infix_infixb (sub s : string) : Infix sub s -> infixb sub s = true.
Proof.
  intros (before & after & ->).
  induction before as [|c before IH].
  - change (EmptyString ++ sub ++ after) with (sub ++ after).
    destruct (sub ++ after) eqn:E; cbn [infixb];
      rewrite <- E, prefix_append; reflexivity.
  - change (String c before ++ sub ++ after)
      with (String c (before ++ sub ++ after)).
    cbn [infixb]. rewrite IH. apply orb_true_r.
Qed.


(** * The escaping routine, one character at a time *)

Lemma mapChars_append (f : ascii -> string) (a b : string) :
  mapChars f (a ++ b) = mapChars f a ++ mapChars f b.
Proof.
  induction a as [|c a IH]; simpl; [reflexivity|].
  now rewrite IH, append_assoc.
Qed.

Lemma mapChars_ext (f g : ascii -> string) :
  (forall c, f c = g c) -> forall s, mapChars f s = mapChars g s.
Proof.
  intros E s. induction s as [|c s IH]; simpl; [reflexivity|].
  now rewrite E, IH.
Qed.

Lemma mapChars_mapChars (f g : ascii -> string) (s : string) :
  mapChars g (mapChars f s) = mapChars (fun c => mapChars g (f c)) s.
Proof.
  induction s as [|c s IH]; simpl; [reflexivity|].
  now rewrite mapChars_append, IH.
Qed.

Lemma replaceAll_mapChars (c : ascii) (rep s : string) :
  replaceAll c rep s
  = mapChars (fun a => if Ascii.eqb a c then rep else String a EmptyString) s.
Proof.
  induction s as [|a s IH]; simpl; [reflexivity|].
  rewrite IH. now destruct (Ascii.eqb a c).
Qed.

Lemma escapeTypstText_chars (s : string) :
  escapeTypstText s = mapChars escapeChar s.
Proof.
  unfold escapeTypstText.
  rewrite !replaceAll_mapChars, !mapChars_mapChars.
  apply mapChars_ext.
  intros [[] [] [] [] [] [] [] []]; vm_compute; reflexivity.
Qed.

Lemma escapeTypstText_append (a b : string) :
  escapeTypstText (a ++ b) = escapeTypstText a ++ escapeTypstText b.
Proof. rewrite !escapeTypstText_chars. apply mapChars_append. Qed.

Lemma unescape_mapChars (s : string) :
  unescapeTypstText (mapChars escapeChar s)
  = (s |> replaceAll "010" " " |> replaceAll "013" EmptyString
       |> replaceAll "009" " ").
Proof.
  induction s as [|c s IH]; [reflexivity|].
  destruct c as [[] [] [] [] [] [] [] []]; cbn; rewrite IH; reflexivity.
Qed.

Lemma wellEscaped_mapChars (s : string) :
  wellEscaped (mapChars escapeChar s) = true.
Proof.
  induction s as [|c s IH]; [reflexivity|].
  destruct c as [[] [] [] [] [] [] [] []]; cbn; exact IH.
Qed.

Lemma wellEscaped_escapeTypstText (s : string) :
  wellEscaped (escapeTypstText s) = true.
Proof. rewrite escapeTypstText_chars. apply wellEscaped_mapChars. Qed.

Lemma replaceAll_absent (c : ascii) (rep s : string) :
  infixb (String c EmptyString) s = false -> replaceAll c rep s = s.
Proof.
  induction s as [|a s IH]; [reflexivity|].
  cbn [infixb]. intros H. apply orb_false_iff in H. destruct H as [H1 H2].
  cbn [replaceAll]. rewrite (IH H2).
  destruct (Ascii.eqb a c) eqn:E; [|reflexivity].
  apply Ascii.eqb_eq in E. subst a. simpl in H1.
  destruct (ascii_dec c c) as [_|n]; [|now elim n].
  destruct s; discriminate.
Qed.

Example escapeTypstText_specials :
  escapeTypstText "\[]#$`*_<>@" = "\\\[\]\#\$\`\*\_\<\>\@".
Proof. reflexivity. Qed.

Example escapeTypstText_layout :
  escapeTypstText ("a" ++ nl ++ "b" ++ tab ++ "c" ++ cr ++ nl ++ "d") = "a b c d".
Proof. reflexivity. Qed.

(** C2, as the code has it.  [escapeTypstText] maps the input one character
    at a time: each of the eleven special characters (backslash, [[], []],
    [#], [$], backtick, [*], [_], [<], [>], [@]) becomes a backslash followed
    by the character, so the backslashes that the routine inserts are never
    escaped again; a newline and a tab each become one space; a carriage
    return is deleted; every other character is kept. *)
Theorem escapeTypstText_per_character :
  forall s : string,
    escapeTypstText s = mapChars escapeChar s
    /\ (forall c : ascii,
          escapeChar c =
            if isSpecial c then String "\" (String c EmptyString)
            else if Ascii.eqb c "010" then " "
            else if Ascii.eqb c "013" then EmptyString
            else if Ascii.eqb c "009" then " "
            else String c EmptyString).
Proof.
  intros s. split; [apply escapeTypstText_chars|].
  intros [[] [] [] [] [] [] [] []]; reflexivity.
Qed.

(** C2, as the specification words it, fails on a carriage return: the
    code deletes it and the specification has it become a space. *)
Lemma escapeTypstText_carriage_return :
  escapeTypstText ("a" ++ cr ++ "b") = "ab"
  /\ mapChars escapeChar_as_specified ("a" ++ cr ++ "b") = "a b"
  /\ escapeTypstText ("a" ++ cr ++ "b")
     <> mapChars escapeChar_as_specified ("a" ++ cr ++ "b").
Proof. repeat split. vm_compute. discriminate. Qed.

(** * The field visibility resolver *)

Section Visibility.

Context {host : JsHost}.

Lemma find_key_first (before after : list FieldFilter) (f : FieldFilter)
  (path : string) :
  key f = path ->
  (forall g, In g before -> key g <> path) ->
  find_key (before ++ f :: after)%list path = Some f.
Proof.
  intros Hf. induction before as [|g before IH]; intros Hb; simpl.
  - rewrite Hf, String.eqb_refl. reflexivity.
  - destruct (String.eqb (key g) path) eqn:E.
    + apply String.eqb_eq in E. exfalso. apply (Hb g); [now left|exact E].
    + apply IH. intros g' Hg'. apply Hb. now right.
Qed.

Lemma find_key_none (arr : list FieldFilter) (path : string) :
  (forall g, In g arr -> key g <> path) -> find_key arr path = None.
Proof.
  induction arr as [|g arr IH]; intros Hb; simpl; [reflexivity|].
  destruct (String.eqb (key g) path) eqn:E.
  - apply String.eqb_eq in E. exfalso. apply (Hb g); [now left|exact E].
  - apply IH. intros g' Hg'. apply Hb. now right.
Qed.

(** C3.  [isFieldEnabled] returns the [enabled] value of the first entry of
    the filter set whose key equals the path exactly, and [true] when no
    entry has that key (or the configuration has no filter set). *)
Theorem isFieldEnabled_first_match_or_true :
  forall (cfg : Config) (path : string),
    (forall before f after,
        playerFieldFilters cfg = Some (before ++ f :: after)%list ->
        key f = path ->
        (forall g, In g before -> key g <> path) ->
        isFieldEnabled cfg path = enabled f)
    /\ ((forall arr g,
            playerFieldFilters cfg = Some arr -> In g arr -> key g <> path) ->
        isFieldEnabled cfg path = true).
Proof.
  intros cfg path. split.
  - intros before f after E Hf Hb. unfold isFieldEnabled.
    rewrite E, (find_key_first before after f Hf Hb). reflexivity.
  - intros H. unfold isFieldEnabled.
    destruct (playerFieldFilters cfg) as [arr|] eqn:E; [|reflexivity].
    rewrite find_key_none; [reflexivity|].
    intros g Hg. exact (H arr g eq_refl Hg).
Qed.

End Visibility.

(** The first of two entries for ["pos"] decides, and a path without an
    entry is enabled. *)
Lemma isFieldEnabled_first_match_or_true_witness :
  isFieldEnabled
    (configWith [ {| key := "xuid"; enabled := true |};
                  {| key := "pos"; enabled := false |};
                  {| key := "pos"; enabled := true |} ] [text]) "pos" = false
  /\ isFieldEnabled
       (configWith [ {| key := "xuid"; enabled := true |} ] [text]) "pos.dimId"
     = true.
Proof.
  split.
  - apply (proj1 (isFieldEnabled_first_match_or_true
                    (configWith [ {| key := "xuid"; enabled := true |};
                                  {| key := "pos"; enabled := false |};
                                  {| key := "pos"; enabled := true |} ] [text])
                    "pos")
             [ {| key := "xuid"; enabled := true |} ]
             {| key := "pos"; enabled := false |}
             [ {| key := "pos"; enabled := true |} ]).
    + reflexivity.
    + reflexivity.
    + intros g [<-|[]]. simpl. discriminate.
  - apply (proj2 (isFieldEnabled_first_match_or_true
                    (configWith [ {| key := "xuid"; enabled := true |} ] [text])
                    "pos.dimId")).
    intros arr g E Hg. simpl in E. injection E as <-.
    destruct Hg as [<-|[]]. simpl. discriminate.
Defined.

(** * The lookup tables *)

Lemma decimal_inj (a b : Z) : decimal a = decimal b -> a = b.
Proof.
  unfold decimal. intros E.
  assert (N : forall n : Z,
             Z.to_int n <> Decimal.Pos Decimal.Nil
             /\ Z.to_int n <> Decimal.Neg Decimal.Nil).
  { intros [|p|p]; simpl; split; try discriminate;
      intros H; injection H as H;
      exact (DecimalPos.Unsigned.to_uint_nonnil p H). }
  apply (f_equal NilZero.int_of_string) in E.
  rewrite !NilZero.isi in E by apply N.
  injection E as E. now apply DecimalZ.to_int_inj.
Qed.

Lemma decimal_eqb_neq (a b : Z) :
  a <> b -> String.eqb (decimal a) (decimal b) = false.
Proof.
  intros N. apply String.eqb_neq. intros E. apply N. now apply decimal_inj.
Qed.

Lemma prop_absent (table : list (string * string)) (code : Z) :
  Forall (fun kv => exists n : Z, fst kv = decimal n /\ n <> code) table ->
  prop table (decimal code) = None.
Proof.
  induction 1 as [|[k v] table (n & E & N) _ IH]; simpl; [reflexivity|].
  simpl in E. rewrite E, (decimal_eqb_neq N). exact IH.
Qed.

Ltac absent_keys :=
  repeat first
    [ apply Forall_nil
    | apply Forall_cons;
      [ first [ exists 0%Z; split; [reflexivity|lia]
              | exists 1%Z; split; [reflexivity|lia]
              | exists 2%Z; split; [reflexivity|lia]
              | exists 3%Z; split; [reflexivity|lia] ] | ] ].

Lemma getGameMode_fallback (code : Z) :
  (code < 0 \/ 3 < code)%Z ->
  getGameMode code = "❓ 未知 (" ++ decimal code ++ ")".
Proof.
  intros H. unfold getGameMode. cbn [Number_toString IntegerHost].
  rewrite prop_absent; [reflexivity|unfold GAMEMODE_MAP; absent_keys].
Qed.

Lemma getPermLevel_fallback (code : Z) :
  (code < 0 \/ 3 < code)%Z ->
  getPermLevel code = "❓ 未知 (" ++ decimal code ++ ")".
Proof.
  intros H. unfold getPermLevel. cbn [Number_toString IntegerHost].
  rewrite prop_absent; [reflexivity|unfold PERM_LEVEL_MAP; absent_keys].
Qed.

Lemma getDimension_fallback (code : Z) :
  (code < 0 \/ 2 < code)%Z ->
  getDimension (Some code) = "❓ 未知 (" ++ decimal code ++ ")".
Proof.
  intros H. unfold getDimension, optNumber_toString.
  cbn [Number_toString IntegerHost].
  rewrite prop_absent; [reflexivity|unfold DIMENSION_MAP; absent_keys].
Qed.

Lemma getInputMode_fallback (code : Z) :
  (code < 1 \/ 3 < code)%Z ->
  getInputMode code = "❓ 未知 (" ++ decimal code ++ ")".
Proof.
  intros H. unfold getInputMode. cbn [Number_toString IntegerHost].
  rewrite prop_absent; [reflexivity|unfold INPUT_MODE_MAP; absent_keys].
Qed.

Lemma fallback_holds_code (code : Z) :
  Infix (decimal code) ("❓ 未知 (" ++ decimal code ++ ")").
Proof. exists "❓ 未知 (", ")". reflexivity. Qed.

Ltac by_range code :=
  destruct code as [|[[p|p|]|[p|p|]|]|p]; try reflexivity.

Section LookupCases.

Context {host : JsHost}.

Lemma getGameMode_cases (code : number) :
  getGameMode code
  = if String.eqb "0" (Number_toString code) then "🗡️ 生存"
    else if String.eqb "1" (Number_toString code) then "🎨 创造"
    else if String.eqb "2" (Number_toString code) then "🎯 冒险"
    else if String.eqb "3" (Number_toString code) then "👁️ 旁观"
    else "❓ 未知 (" ++ Number_toString code ++ ")".
Proof.
  unfold getGameMode, GAMEMODE_MAP. cbn [prop].
  repeat (destruct (String.eqb _ (Number_toString code)); [reflexivity|]).
  reflexivity.
Qed.

Lemma getPermLevel_cases (code : number) :
  getPermLevel code
  = if String.eqb "0" (Number_toString code) then "👤 成员"
    else if String.eqb "1" (Number_toString code) then "⭐ 操作员"
    else if String.eqb "2" (Number_toString code) then "👑 管理员"
    else if String.eqb "3" (Number_toString code) then "🛡️ 服主"
    else "❓ 未知 (" ++ Number_toString code ++ ")".
Proof.
  unfold getPermLevel, PERM_LEVEL_MAP. cbn [prop].
  repeat (destruct (String.eqb _ (Number_toString code)); [reflexivity|]).
  reflexivity.
Qed.

Lemma getDimension_cases (code : number) :
  getDimension (Some code)
  = if String.eqb "0" (Number_toString code) then "🌍 主世界"
    else if String.eqb "1" (Number_toString code) then "🔥 下界"
    else if String.eqb "2" (Number_toString code) then "🌌 末地"
    else "❓ 未知 (" ++ Number_toString code ++ ")".
Proof.
  unfold getDimension, DIMENSION_MAP. cbn [prop optNumber_toString].
  repeat (destruct (String.eqb _ (Number_toString code)); [reflexivity|]).
  reflexivity.
Qed.

Lemma getInputMode_cases (code : number) :
  getInputMode code
  = if String.eqb "1" (Number_toString code) then "⌨️ 键鼠"
    else if String.eqb "2" (Number_toString code) then "📱 触屏"
    else if String.eqb "3" (Number_toString code) then "🎮 手柄"
    else "❓ 未知 (" ++ Number_toString code ++ ")".
Proof.
  unfold getInputMode, INPUT_MODE_MAP. cbn [prop].
  repeat (destruct (String.eqb _ (Number_toString code)); [reflexivity|]).
  reflexivity.
Qed.

End LookupCases.

Lemma fallback_holds_text (printed : string) :
  Infix printed ("❓ 未知 (" ++ printed ++ ")").
Proof. exists "❓ 未知 (", ")". reflexivity. Qed.

(** Rewrites the tests of the keys that the printed code is not. *)
Ltac not_a_key H :=
  repeat match goal with
         | |- context [String.eqb ?k ?printed] =>
             let E := fresh "E" in
             destruct (String.eqb_spec k printed) as [E|E];
             [exfalso; apply H; rewrite <- E; cbn; tauto|]
         end.

(** C7.  Each of the four lookup functions returns a string on every
    number, and never fails.  The key it looks up is the number as a template
    literal prints it: when this is a key of the table the function returns
    the label of the key, and otherwise the fallback text, which holds the
    number as printed.  A missing [dimId] gets the fallback text with
    [undefined].  On the integers a double holds exactly this reads: the
    label when the integer is a key, and otherwise the fallback text with
    the decimal digits of the integer. *)
Theorem lookup_tables_total :
  (forall (host : JsHost) (code : number),
      getGameMode code
      = (if String.eqb "0" (Number_toString code) then "🗡️ 生存"
         else if String.eqb "1" (Number_toString code) then "🎨 创造"
         else if String.eqb "2" (Number_toString code) then "🎯 冒险"
         else if String.eqb "3" (Number_toString code) then "👁️ 旁观"
         else "❓ 未知 (" ++ Number_toString code ++ ")")
      /\ getPermLevel code
         = (if String.eqb "0" (Number_toString code) then "👤 成员"
            else if String.eqb "1" (Number_toString code) then "⭐ 操作员"
            else if String.eqb "2" (Number_toString code) then "👑 管理员"
            else if String.eqb "3" (Number_toString code) then "🛡️ 服主"
            else "❓ 未知 (" ++ Number_toString code ++ ")")
      /\ getDimension (Some code)
         = (if String.eqb "0" (Number_toString code) then "🌍 主世界"
            else if String.eqb "1" (Number_toString code) then "🔥 下界"
            else if String.eqb "2" (Number_toString code) then "🌌 末地"
            else "❓ 未知 (" ++ Number_toString code ++ ")")
      /\ getInputMode code
         = (if String.eqb "1" (Number_toString code) then "⌨️ 键鼠"
            else if String.eqb "2" (Number_toString code) then "📱 触屏"
            else if String.eqb "3" (Number_toString code) then "🎮 手柄"
            else "❓ 未知 (" ++ Number_toString code ++ ")")
      /\ getDimension None = "❓ 未知 (undefined)"
      /\ (~ In (Number_toString code) ["0"; "1"; "2"; "3"] ->
          Infix (Number_toString code) (getGameMode code)
          /\ Infix (Number_toString code) (getPermLevel code))
      /\ (~ In (Number_toString code) ["0"; "1"; "2"] ->
          Infix (Number_toString code) (getDimension (Some code)))
      /\ (~ In (Number_toString code) ["1"; "2"; "3"] ->
          Infix (Number_toString code) (getInputMode code)))
  /\ (forall code : Z,
        safeInteger code ->
        getGameMode code =
          match code with
          | 0%Z => "🗡️ 生存"
          | 1%Z => "🎨 创造"
          | 2%Z => "🎯 冒险"
          | 3%Z => "👁️ 旁观"
          | _ => "❓ 未知 (" ++ decimal code ++ ")"
          end
        /\ getPermLevel code =
          match code with
          | 0%Z => "👤 成员"
          | 1%Z => "⭐ 操作员"
          | 2%Z => "👑 管理员"
          | 3%Z => "🛡️ 服主"
          | _ => "❓ 未知 (" ++ decimal code ++ ")"
          end
        /\ getDimension (Some code) =
          match code with
          | 0%Z => "🌍 主世界"
          | 1%Z => "🔥 下界"
          | 2%Z => "🌌 末地"
          | _ => "❓ 未知 (" ++ decimal code ++ ")"
          end
        /\ getInputMode code =
          match code with
          | 1%Z => "⌨️ 键鼠"
          | 2%Z => "📱 触屏"
          | 3%Z => "🎮 手柄"
          | _ => "❓ 未知 (" ++ decimal code ++ ")"
          end
        /\ ((code < 0 \/ 3 < code)%Z -> Infix (decimal code) (getGameMode code))
        /\ ((code < 0 \/ 3 < code)%Z -> Infix (decimal code) (getPermLevel code))
        /\ ((code < 0 \/ 2 < code)%Z ->
            Infix (decimal code) (getDimension (Some code)))
        /\ ((code < 1 \/ 3 < code)%Z -> Infix (decimal code) (getInputMode code))).
Proof.
  split.
  - intros host code.
    split; [apply getGameMode_cases|].
    split; [apply getPermLevel_cases|].
    split; [apply getDimension_cases|].
    split; [apply getInputMode_cases|].
    split; [reflexivity|].
    split; [|split].
    + intros H. split.
      * rewrite getGameMode_cases. not_a_key H. apply fallback_holds_text.
      * rewrite getPermLevel_cases. not_a_key H. apply fallback_holds_text.
    + intros H. rewrite getDimension_cases. not_a_key H.
      apply fallback_holds_text.
    + intros H. rewrite getInputMode_cases. not_a_key H.
      apply fallback_holds_text.
  - intros code _. repeat split.
    + by_range code; apply getGameMode_fallback; lia.
    + by_range code; apply getPermLevel_fallback; lia.
    + by_range code; apply getDimension_fallback; lia.
    + by_range code; apply getInputMode_fallback; lia.
    + intros H. rewrite getGameMode_fallback by exact H. apply fallback_holds_code.
    + intros H. rewrite getPermLevel_fallback by exact H. apply fallback_holds_code.
    + intros H. rewrite getDimension_fallback by exact H. apply fallback_holds_code.
    + intros H. rewrite getInputMode_fallback by exact H. apply fallback_holds_code.
Qed.

(** Code 7 is in no table, and code 2 is in each. *)
Lemma lookup_tables_total_witness :
  getGameMode 7%Z = "❓ 未知 (7)"
  /\ Infix "7" (getGameMode 7%Z)
  /\ Infix "7" (getPermLevel 7%Z)
  /\ Infix "7" (getDimension (Some 7%Z))
  /\ Infix "7" (getInputMode 7%Z)
  /\ getDimension (Some 2%Z) = "🌌 末地".
Proof.
  assert (S7 : safeInteger 7) by (unfold safeInteger; lia).
  assert (S2 : safeInteger 2) by (unfold safeInteger; lia).
  destruct (proj2 lookup_tables_total 7%Z S7)
    as (G & _ & _ & _ & I1 & I2 & I3 & I4).
  destruct (proj1 lookup_tables_total IntegerHost 7%Z)
    as (_ & _ & _ & _ & _ & J1 & _ & _).
  split; [exact G|].
  split; [apply J1; cbn; intros [H|[H|[H|[H|[]]]]]; discriminate H|].
  split; [apply I2; right; reflexivity|].
  split; [apply I3; right; reflexivity|].
  split; [apply I4; right; reflexivity|].
  exact (proj1 (proj2 (proj2 (proj2 lookup_tables_total 2%Z S2)))).
Defined.

(** * The parts of the two markup documents *)

Ltac reassociate := rewrite ?append_assoc; reflexivity.

Section Documents.

Context {host : JsHost}.

Lemma notFoundDocument_parts (stamp queryName : string) (theme : TypstTheme)
  (label : string) :
  notFoundDocument stamp queryName theme label
  = pageSetup "400pt" theme
      ++ textSetup theme
      ++ headerBlock theme (escapeTypstText label ++ " 👤 玩家查询") EmptyString
      ++ messagePanel theme queryName
      ++ footerBlock theme (escapeTypstText stamp).
Proof.
  unfold notFoundDocument, pageSetup, textSetup, headerBlock, messagePanel,
    footerBlock, tpl, join.
  cbn [String.concat]. reassociate.
Qed.

Lemma playerDocument_parts (stamp : string) (player : PlayerResponse)
  (playerName : string) (theme : TypstTheme) (cfg : Config) (label : string) :
  playerDocument stamp player playerName theme cfg label
  = pageSetup "450pt" theme
      ++ textSetup theme
      ++ headerBlock theme
           (escapeTypstText label ++ " 👤 " ++ escapeTypstText playerName)
           (flagsLine theme (typstFlags player cfg))
      ++ join (panels player theme cfg) (nl ++ nl ++ "#v(6pt)" ++ nl ++ nl)
      ++ footerBlock theme (escapeTypstText stamp).
Proof.
  unfold playerDocument, pageSetup, textSetup, headerBlock, flagsLine,
    footerBlock, tpl.
  generalize (join (panels player theme cfg) (nl ++ nl ++ "#v(6pt)" ++ nl ++ nl)).
  generalize (typstFlags player cfg).
  intros fl body. generalize (join fl " "). intros shown.
  unfold join. cbn [String.concat]. reassociate.
Qed.

End Documents.

(** * [trimEnd] stops at a solid byte *)

Lemma list_ascii_of_string_append (a b : string) :
  list_ascii_of_string (a ++ b)
  = (list_ascii_of_string a ++ list_ascii_of_string b)%list.
Proof.
  induction a as [|c a IH]; simpl; [reflexivity|]. now rewrite IH.
Qed.

Lemma string_of_list_ascii_app (l1 l2 : list ascii) :
  string_of_list_ascii (l1 ++ l2)%list
  = string_of_list_ascii l1 ++ string_of_list_ascii l2.
Proof.
  induction l1 as [|c l1 IH]; simpl; [reflexivity|]. now rewrite IH.
Qed.

Ltac bytes_false :=
  apply not_true_is_false; intros W;
  repeat first
    [ rewrite orb_true_iff in W
    | rewrite andb_true_iff in W
    | rewrite N.eqb_eq in W
    | rewrite N.leb_le in W ];
  lia.

Lemma isWhite2_solid_l (c x : ascii) : solidByte c -> isWhite2 c x = false.
Proof. intros [_ H]. cbv zeta in H. unfold isWhite2. bytes_false. Qed.

Lemma isWhite2_solid_r (c x : ascii) : solidByte c -> isWhite2 x c = false.
Proof. intros [_ H]. cbv zeta in H. unfold isWhite2. bytes_false. Qed.

Lemma isWhite3_solid_1 (c x y : ascii) : solidByte c -> isWhite3 c x y = false.
Proof. intros [_ H]. cbv zeta in H. unfold isWhite3. cbv zeta. bytes_false. Qed.

Lemma isWhite3_solid_2 (c x y : ascii) : solidByte c -> isWhite3 x c y = false.
Proof. intros [_ H]. cbv zeta in H. unfold isWhite3. cbv zeta. bytes_false. Qed.

Lemma isWhite3_solid_3 (c x y : ascii) : solidByte c -> isWhite3 x y c = false.
Proof. intros [_ H]. cbv zeta in H. unfold isWhite3. cbv zeta. bytes_false. Qed.

Lemma dropWhite_stops (c : ascii) (m : list ascii) :
  solidByte c ->
  forall (n : nat) (l : list ascii),
    (length l <= n)%nat ->
    exists l', dropWhite (l ++ c :: m)%list = (l' ++ c :: m)%list.
Proof.
  intros Hc. pose proof (proj1 Hc) as Hw.
  assert (Base : dropWhite (c :: m) = c :: m).
  { cbn [dropWhite]. rewrite Hw. destruct m as [|b r2]; [reflexivity|].
    rewrite (@isWhite2_solid_r c b Hc). destruct r2 as [|a r3]; [reflexivity|].
    now rewrite (@isWhite3_solid_3 c a b Hc). }
  induction n as [n IH] using lt_wf_ind. intros l Hl.
  destruct l as [|x l0]; [exists []; exact Base|].
  cbn [app dropWhite].
  destruct (isWhite1 x).
  { apply (IH (length l0)); simpl in Hl; lia. }
  destruct l0 as [|y l1]; cbn [app].
  { rewrite (@isWhite2_solid_l c x Hc). destruct m as [|a r3]; [now exists [x]|].
    rewrite (@isWhite3_solid_2 c a x Hc). now exists [x]. }
  destruct (isWhite2 y x).
  { apply (IH (length l1)); simpl in Hl; lia. }
  destruct l1 as [|w l2]; cbn [app].
  { rewrite (@isWhite3_solid_1 c y x Hc). now exists [x; y]. }
  destruct (isWhite3 w y x).
  { apply (IH (length l2)); simpl in Hl; lia. }
  now exists (x :: y :: w :: l2).
Qed.

Lemma trimEnd_keeps (a : string) (c : ascii) (b : string) :
  solidByte c ->
  exists b', trimEnd (a ++ String c b) = a ++ String c b'.
Proof.
  intros Hc. unfold trimEnd.
  rewrite list_ascii_of_string_append. cbn [list_ascii_of_string].
  rewrite rev_app_distr. cbn [rev]. rewrite <- app_assoc. cbn [app].
  destruct (@dropWhite_stops c (rev (list_ascii_of_string a)) Hc _
              (rev (list_ascii_of_string b)) (le_n _)) as [l' ->].
  exists (string_of_list_ascii (rev l')).
  rewrite rev_app_distr. cbn [rev]. rewrite rev_involutive, <- app_assoc.
  cbn [app]. rewrite string_of_list_ascii_app. cbn [string_of_list_ascii].
  now rewrite string_of_list_ascii_of_string.
Qed.

(** The colon and the last byte of the heart emoji are solid. *)
Lemma solid_colon : solidByte ":".
Proof. split; [reflexivity|]. left. reflexivity. Qed.

Lemma solid_143 : solidByte "143".
Proof.
  split; [reflexivity|]. right. cbn. lia.
Qed.

(** * [trimEnd] leaves no trailing white space *)

Lemma dropWhite_result (n : nat) :
  forall r : list ascii,
    length r <= n ->
    dropWhite (dropWhite r) = dropWhite r
    /\ exists l, r = (l ++ dropWhite r)%list /\ dropWhite l = [].
Proof.
  induction n as [n IH] using lt_wf_ind. intros r Hr.
  destruct r as [|c r1]; [split; [reflexivity|now exists []]|].
  cbn [dropWhite].
  destruct (isWhite1 c) eqn:W1.
  { destruct (IH (length r1)) with (r := r1) as (I & l & E & L);
      [simpl in Hr; lia|lia|].
    split; [exact I|]. exists (c :: l). split.
    - cbn. now rewrite <- E.
    - cbn [dropWhite]. now rewrite W1. }
  destruct r1 as [|b r2].
  { split; [cbn; now rewrite W1|now exists []]. }
  destruct (isWhite2 b c) eqn:W2.
  { destruct (IH (length r2)) with (r := r2) as (I & l & E & L);
      [simpl in Hr; lia|lia|].
    split; [exact I|]. exists (c :: b :: l). split.
    - cbn. now rewrite <- E.
    - cbn [dropWhite]. now rewrite W1, W2. }
  destruct r2 as [|a r3].
  { split; [cbn; now rewrite W1, W2|now exists []]. }
  destruct (isWhite3 a b c) eqn:W3.
  { destruct (IH (length r3)) with (r := r3) as (I & l & E & L);
      [simpl in Hr; lia|lia|].
    split; [exact I|]. exists (c :: b :: a :: l). split.
    - cbn. now rewrite <- E.
    - cbn [dropWhite]. now rewrite W1, W2, W3. }
  split; [cbn; now rewrite W1, W2, W3|now exists []].
Qed.

Lemma trimEnd_idempotent (s : string) : trimEnd (trimEnd s) = trimEnd s.
Proof.
  unfold trimEnd. rewrite list_ascii_of_string_of_list_ascii, rev_involutive.
  now rewrite (proj1 (@dropWhite_result _ (rev (list_ascii_of_string s)) (le_n _))).
Qed.

(** What [trimEnd] removes is white space only: [trimEnd] removes all of
    it. *)
Lemma trimEnd_removed (s : string) :
  exists rest, s = trimEnd s ++ rest /\ trimEnd rest = EmptyString.
Proof.
  unfold trimEnd.
  destruct (proj2 (@dropWhite_result _ (rev (list_ascii_of_string s)) (le_n _)))
    as (l & E & L).
  exists (string_of_list_ascii (rev l)). split.
  - rewrite <- string_of_list_ascii_app, <- rev_app_distr, <- E, rev_involutive.
    now rewrite string_of_list_ascii_of_string.
  - now rewrite list_ascii_of_string_of_list_ascii, rev_involutive, L.
Qed.

Lemma trimEnd_prefix (s : string) : exists rest, s = trimEnd s ++ rest.
Proof. destruct (trimEnd_removed s) as (rest & E & _). now exists rest. Qed.

(** * The not-found branch *)

Section NotFound.

Context {host : JsHost}.


Lemma generateTypstCode_not_found (stamp : string)
  (player : option PlayerResponse) (queryName : string) (theme : TypstTheme)
  (cfg : Config) (label : string) :
  hasNoName player ->
  generateTypstCode stamp player queryName theme cfg label
  = notFoundDocument stamp queryName theme label.
Proof.
  unfold hasNoName, generateTypstCode.
  destruct player as [p|]; [|reflexivity].
  destruct (name p) as [[|c n]|]; cbn [truthy]; intros H;
    [reflexivity|discriminate|reflexivity].
Qed.

Lemma generateTypstCode_named (stamp : string) (p : PlayerResponse)
  (n queryName : string) (theme : TypstTheme) (cfg : Config) (label : string) :
  name p = Some n -> n <> EmptyString ->
  generateTypstCode stamp (Some p) queryName theme cfg label
  = playerDocument stamp p n theme cfg label.
Proof.
  unfold generateTypstCode. intros -> N.
  destruct n as [|c n]; [now elim N|reflexivity].
Qed.

Lemma formatTextOutput_named (p : PlayerResponse) (n queryName : string)
  (cfg : Config) (label : string) :
  name p = Some n -> n <> EmptyString ->
  formatTextOutput (Some p) queryName cfg label
  = trimEnd (join (textLines p n cfg label) nl).
Proof.
  unfold formatTextOutput. intros -> N.
  destruct n as [|c n]; [now elim N|reflexivity].
Qed.

Lemma textLines_blocks (p : PlayerResponse) (n : string) (cfg : Config)
  (label : string) :
  textLines p n cfg label
  = (label ++ " 👤 玩家详情: " ++ n) :: EmptyString
      :: flat_map (fun s => sectionBlock s p cfg) allSections.
Proof.
  unfold textLines, allSections, pushSection, push, pushAll.
  cbn [flat_map]. unfold sectionBlock. cbn [sectionLines heading].
  generalize (basicInfo p cfg) (gameStatus p cfg) (expInfo p cfg)
    (posInfo p cfg) (envInfo p cfg) (itemInfo p cfg).
  intros l1 l2 l3 l4 l5 l7.
  assert (E : forall (pre : list string),
             match isFieldEnabled cfg "device", device p with
             | true, Some d =>
                 if (0 <? length (deviceInfo d cfg))%nat
                 then app (app (app pre ["📱 设备信息:"]) (deviceInfo d cfg))
                          [EmptyString]
                 else pre
             | _, _ => pre
             end
             = app pre
                 match
                   match isFieldEnabled cfg "device", device p with
                   | true, Some d => deviceInfo d cfg
                   | _, _ => []
                   end
                 with
                 | [] => []
                 | a :: ls => "📱 设备信息:" :: app (a :: ls) [EmptyString]
                 end).
  { intros pre. destruct (isFieldEnabled cfg "device");
      [|now rewrite app_nil_r].
    destruct (device p) as [d|]; [|now rewrite app_nil_r].
    destruct (deviceInfo d cfg); cbn [length Nat.ltb Nat.leb];
      [now rewrite app_nil_r|].
    now rewrite <- !app_assoc. }
  rewrite E. clear E.
  generalize (match isFieldEnabled cfg "device", device p with
              | true, Some d => deviceInfo d cfg
              | _, _ => []
              end).
  intros l6.
  destruct l1, l2, l3, l4, l5, l6, l7;
    cbn [length Nat.ltb Nat.leb app];
    repeat (progress (rewrite <- ?app_assoc; cbn [app]));
    rewrite ?app_nil_r; reflexivity.
Qed.

End NotFound.

Lemma Infix_here (x rest : string) : Infix x (x ++ rest).
Proof. exists EmptyString, rest. reflexivity. Qed.

Lemma Infix_skip (x a b : string) : Infix x b -> Infix x (a ++ b).
Proof.
  intros (before & after & ->). exists (a ++ before), after.
  now rewrite append_assoc.
Qed.

Ltac find_infix :=
  rewrite ?append_assoc;
  repeat first [ apply Infix_here | apply Infix_skip ].

Lemma join_cons (x y : string) (l : list string) (sep : string) :
  join (x :: y :: l) sep = x ++ sep ++ join (y :: l) sep.
Proof. reflexivity. Qed.

Section Branches.

Context {host : JsHost}.

Lemma formatTextOutput_named_prefix (p : PlayerResponse) (n queryName : string)
  (cfg : Config) (label : string) :
  name p = Some n -> n <> EmptyString ->
  exists rest,
    formatTextOutput (Some p) queryName cfg label
    = label ++ " 👤 玩家详情:" ++ rest.
Proof.
  intros Hn N. rewrite (formatTextOutput_named p queryName cfg label Hn N).
  rewrite textLines_blocks, join_cons.
  generalize (join (EmptyString :: flat_map (fun s => sectionBlock s p cfg)
                                     allSections) nl).
  intros tail.
  replace ((label ++ " 👤 玩家详情: " ++ n) ++ nl ++ tail)
    with ((label ++ " 👤 玩家详情") ++ String ":" (" " ++ n ++ nl ++ tail))
    by reassociate.
  destruct (@trimEnd_keeps (label ++ " 👤 玩家详情") ":"
              (" " ++ n ++ nl ++ tail) solid_colon) as [b' ->].
  exists b'. reassociate.
Qed.


(** C5, as the code has it.  The not-found document and the document of
    a named record share the text setup, the theme values they read and
    the footer; their page setups differ in the page width alone (400pt
    against 450pt); between header and footer the first holds the message
    panel and the second the section panels. *)
Theorem documents_share_setup_and_footer :
  forall (absent : option PlayerResponse) (p : PlayerResponse)
         (n queryName stamp label : string) (theme : TypstTheme) (cfg : Config),
    hasNoName absent ->
    name p = Some n -> n <> EmptyString ->
    generateTypstCode stamp absent queryName theme cfg label
    = pageSetup "400pt" theme
        ++ textSetup theme
        ++ headerBlock theme (escapeTypstText label ++ " 👤 玩家查询") EmptyString
        ++ messagePanel theme queryName
        ++ footerBlock theme (escapeTypstText stamp)
    /\ generateTypstCode stamp (Some p) queryName theme cfg label
       = pageSetup "450pt" theme
           ++ textSetup theme
           ++ headerBlock theme
                (escapeTypstText label ++ " 👤 " ++ escapeTypstText n)
                (flagsLine theme (typstFlags p cfg))
           ++ join (panels p theme cfg) (nl ++ nl ++ "#v(6pt)" ++ nl ++ nl)
           ++ footerBlock theme (escapeTypstText stamp).
Proof.
  intros absent p n queryName stamp label theme cfg H Hn N. split.
  - rewrite (generateTypstCode_not_found stamp absent queryName theme cfg label H).
    apply notFoundDocument_parts.
  - rewrite (generateTypstCode_named stamp p queryName theme cfg label Hn N).
    apply playerDocument_parts.
Qed.

End Branches.



Lemma documents_share_setup_and_footer_witness :
  generateTypstCode "2026/11/2 10:00:00" (Some nameless) "Steve" defaultTheme
    defaultConfig "[mc]"
  = pageSetup "400pt" defaultTheme
      ++ textSetup defaultTheme
      ++ headerBlock defaultTheme "\[mc\] 👤 玩家查询" EmptyString
      ++ messagePanel defaultTheme "Steve"
      ++ footerBlock defaultTheme "2026/11/2 10:00:00"
  /\ generateTypstCode "2026/11/2 10:00:00" (Some steve) "Steve" defaultTheme
       defaultConfig "[mc]"
     = pageSetup "450pt" defaultTheme
         ++ textSetup defaultTheme
         ++ headerBlock defaultTheme "\[mc\] 👤 Steve"
              (flagsLine defaultTheme (typstFlags steve defaultConfig))
         ++ join (panels steve defaultTheme defaultConfig)
              (nl ++ nl ++ "#v(6pt)" ++ nl ++ nl)
         ++ footerBlock defaultTheme "2026/11/2 10:00:00".
Proof.
  apply (documents_share_setup_and_footer (Some nameless) steve "Steve"
           "2026/11/2 10:00:00" "[mc]" defaultTheme defaultConfig eq_refl eq_refl).
  discriminate.
Defined.

(** C5 as stated fails: the first paragraph of a document is its page
    setup, and the two page setups differ. *)
Lemma documents_differ_in_page_width :
  firstParagraph (generateTypstCode "2026/11/2 10:00:00" (Some nameless) "Steve"
                    defaultTheme defaultConfig "[mc]")
  = tpl [ "#set page("; "  width: 400pt,"; "  height: auto,";
          "  margin: (x: 14pt, y: 14pt),";
          "  fill: rgb(" ++ dq ++ "#f9efe2" ++ dq ++ ")"; ")" ]
  /\ firstParagraph (generateTypstCode "2026/11/2 10:00:00" (Some steve) "Steve"
                       defaultTheme defaultConfig "[mc]")
     = tpl [ "#set page("; "  width: 450pt,"; "  height: auto,";
             "  margin: (x: 14pt, y: 14pt),";
             "  fill: rgb(" ++ dq ++ "#f9efe2" ++ dq ++ ")"; ")" ]
  /\ firstParagraph (generateTypstCode "2026/11/2 10:00:00" (Some nameless) "Steve"
                       defaultTheme defaultConfig "[mc]")
     <> firstParagraph (generateTypstCode "2026/11/2 10:00:00" (Some steve) "Steve"
                          defaultTheme defaultConfig "[mc]").
Proof.
  repeat split; try (vm_compute; reflexivity).
  vm_compute. discriminate.
Qed.

(** * The command action *)

Section CommandFacts.

Context {host : JsHost}.

Variable World : Type.
Variable Buffer : Type.
Variable Renderer : Type.
Variable apiClient_get : string -> string -> Async World (option PlayerResponse).
Variable getTypstRenderer : Config -> Async World Renderer.
Variable toPng : Renderer -> string -> number -> Async World Buffer.
Variable buildTypstTheme : Config -> TypstTheme.
Variable clock : World -> string.
Variable logger_warn : string -> World -> World.
Variable logger_error : string -> World -> World.

Local Abbreviation render :=
  (renderTypstImage getTypstRenderer toPng buildTypstTheme clock logger_warn).
Local Abbreviation loop :=
  (forModes getTypstRenderer toPng buildTypstTheme clock logger_warn).
Local Abbreviation action :=
  (playerAction apiClient_get getTypstRenderer toPng buildTypstTheme clock
     logger_warn logger_error).

Local Abbreviation results_of :=
  (ModeResults getTypstRenderer toPng buildTypstTheme clock logger_warn).














(** C1, as the code has it.  The markup formatter reads the clock: its
    output is a text fixed by the arguments followed by the footer that
    carries the escaped time stamp, so that two calls with equal arguments
    return equal strings when they read the same time stamp and differ in
    the footer alone otherwise.  The text formatter has no input but its
    arguments: inside a request, a text mode adds the same element in every
    world and leaves the world as it found it. *)
Theorem formatters_deterministic_up_to_the_clock :
  forall (player : option PlayerResponse) (queryName : string)
         (theme : TypstTheme) (cfg : Config) (label : string),
    (exists body,
        forall stamp,
          generateTypstCode stamp player queryName theme cfg label
          = body ++ footerBlock theme (escapeTypstText stamp))
    /\ (forall results w,
          loop [text] player queryName cfg label results w
          = (Returned
               (results ++ [h_text Buffer
                              (formatTextOutput player queryName cfg label)])%list,
             w)).
Proof.
  intros player queryName theme cfg label. split; [|reflexivity].
  destruct player as [p|].
  - destruct (name p) as [[|c n]|] eqn:E.
    + eexists. intros stamp.
      rewrite (generateTypstCode_not_found stamp (Some p) queryName theme cfg label)
        by (cbn [hasNoName]; now rewrite E).
      rewrite notFoundDocument_parts, <- !append_assoc. reflexivity.
    + eexists. intros stamp.
      rewrite (generateTypstCode_named stamp p queryName theme cfg label E)
        by discriminate.
      rewrite playerDocument_parts, <- !append_assoc. reflexivity.
    + eexists. intros stamp.
      rewrite (generateTypstCode_not_found stamp (Some p) queryName theme cfg label)
        by (cbn [hasNoName]; now rewrite E).
      rewrite notFoundDocument_parts, <- !append_assoc. reflexivity.
  - eexists. intros stamp.
    rewrite (generateTypstCode_not_found stamp None queryName theme cfg label)
      by exact I.
    rewrite notFoundDocument_parts, <- !append_assoc. reflexivity.
Qed.

End CommandFacts.



(** C1 as stated fails for the markup formatter: one second later the same
    arguments give another document. *)
Lemma markup_output_changes_with_the_clock :
  generateTypstCode "2026/11/2 10:00:00" (Some steve) "Steve" defaultTheme
    defaultConfig "[mc]"
  <> generateTypstCode "2026/11/2 10:00:01" (Some steve) "Steve" defaultTheme
       defaultConfig "[mc]".
Proof.
  intros E.
  rewrite (generateTypstCode_named "2026/11/2 10:00:00" steve "Steve"
             defaultTheme defaultConfig "[mc]" eq_refl) in E by discriminate.
  rewrite (generateTypstCode_named "2026/11/2 10:00:01" steve "Steve"
             defaultTheme defaultConfig "[mc]" eq_refl) in E by discriminate.
  rewrite !playerDocument_parts in E.
  do 4 apply append_inv_head in E.
  vm_compute in E. discriminate E.
Qed.

(** * A line of [lines] and a panel of [panels] reach the output *)

Lemma Infix_trans (a b c : string) : Infix a b -> Infix b c -> Infix a c.
Proof.
  intros (p1 & q1 & ->) (p2 & q2 & ->). exists (p2 ++ p1), (q1 ++ q2).
  now rewrite !append_assoc.
Qed.

Lemma In_join (x : string) (l : list string) (sep : string) :
  In x l -> exists before after, join l sep = before ++ x ++ after.
Proof.
  induction l as [|a l IH]; [intros []|].
  intros [->|H].
  - destruct l as [|b l].
    + exists EmptyString, EmptyString. cbn. now rewrite append_nil_r.
    + exists EmptyString, (sep ++ join (b :: l) sep). reflexivity.
  - destruct (IH H) as (before & after & E).
    destruct l as [|b l]; [destruct H|].
    exists (a ++ sep ++ before), after.
    rewrite join_cons, E, !append_assoc. reflexivity.
Qed.

Section Reach.

Context {host : JsHost}.

Lemma line_in_text_output (p : PlayerResponse) (n queryName : string)
  (cfg : Config) (label : string) (x0 : string) (c : ascii) :
  solidByte c ->
  name p = Some n -> n <> EmptyString ->
  In (x0 ++ String c EmptyString) (textLines p n cfg label) ->
  Infix (x0 ++ String c EmptyString)
        (formatTextOutput (Some p) queryName cfg label).
Proof.
  intros Hc Hn N H.
  rewrite (formatTextOutput_named p queryName cfg label Hn N).
  destruct (In_join _ _ nl H) as (before & after & ->).
  replace (before ++ (x0 ++ String c EmptyString) ++ after)
    with ((before ++ x0) ++ String c after) by reassociate.
  destruct (@trimEnd_keeps (before ++ x0) c after Hc) as [b' ->].
  exists before, b'. reassociate.
Qed.

Lemma panel_in_document (stamp : string) (p : PlayerResponse) (n : string)
  (theme : TypstTheme) (cfg : Config) (label : string) (panel : string) :
  In panel (panels p theme cfg) ->
  Infix panel (playerDocument stamp p n theme cfg label).
Proof.
  intros H. rewrite playerDocument_parts.
  destruct (In_join _ _ (nl ++ nl ++ "#v(6pt)" ++ nl ++ nl) H)
    as (before & after & ->).
  generalize (pageSetup "450pt" theme) (textSetup theme)
    (headerBlock theme (escapeTypstText label ++ " 👤 " ++ escapeTypstText n)
       (flagsLine theme (typstFlags p cfg)))
    (footerBlock theme (escapeTypstText stamp)).
  intros s1 s2 s3 s4. find_infix.
Qed.

Lemma item_in_gridPanel (theme : TypstTheme) (title : string)
  (items : list string) (x : string) :
  In x items -> Infix x (gridPanel theme title items).
Proof.
  intros H. unfold gridPanel.
  destruct (In_join _ _ ("," ++ nl ++ "    ") H) as (before & after & ->).
  unfold tpl, join. cbn [String.concat]. find_infix.
Qed.

End Reach.

(** * Section suppression *)

Lemma push_Forall (P : string -> Prop) (arr : list string) (item : string) :
  Forall P arr -> P item -> Forall P (push arr item).
Proof.
  intros Ha Hi. unfold push. apply Forall_app. split; [exact Ha|].
  constructor; [exact Hi|constructor].
Qed.

Lemma pushIf_Forall (P : string -> Prop) (c : bool) (arr : list string)
  (item : string) :
  Forall P arr -> P item -> Forall P (pushIf c arr item).
Proof.
  intros Ha Hi. unfold pushIf. destruct c; [now apply push_Forall|exact Ha].
Qed.

(** Splits a goal on an array into one goal per pushed item. *)
Ltac each_push :=
  cbv zeta;
  repeat first
    [ apply Forall_nil
    | apply pushIf_Forall
    | apply push_Forall
    | match goal with
      | |- Forall _ (match ?c with _ => _ end) => destruct c
      | |- Forall _ (if ?c then _ else _) => destruct c
      end ].

(** Rewrites with a hypothesis that switches the paths of a list off. *)
Ltac switch_off H :=
  repeat (rewrite H by (cbn; tauto)); cbn.

Section Suppression.

Context {host : JsHost}.

Lemma sectionLines_bulleted (s : TextSection) (p : PlayerResponse) (cfg : Config) :
  Forall bulleted (sectionLines s p cfg).
Proof.
  destruct s; cbn [sectionLines].
  - unfold basicInfo. each_push; reflexivity.
  - unfold gameStatus. each_push; reflexivity.
  - unfold expInfo. each_push; reflexivity.
  - unfold posInfo. each_push; reflexivity.
  - unfold envInfo. each_push; reflexivity.
  - destruct (isFieldEnabled cfg "device"); [|constructor].
    destruct (device p) as [d|]; [|constructor].
    unfold deviceInfo. each_push; reflexivity.
  - unfold itemInfo. each_push; reflexivity.
Qed.

Lemma heading_not_bulleted (s : TextSection) : ~ bulleted (heading s).
Proof. destruct s; unfold bulleted; cbn; discriminate. Qed.

Lemma heading_not_empty (s : TextSection) : heading s <> EmptyString.
Proof. destruct s; discriminate. Qed.

Lemma heading_inj (s s' : TextSection) : heading s = heading s' -> s = s'.
Proof. destruct s, s'; intros H; try reflexivity; discriminate H. Qed.

Lemma heading_colon (s : TextSection) :
  exists h0, heading s = h0 ++ String ":" EmptyString.
Proof.
  destruct s;
    [ exists "📋 基本信息" | exists "🎮 游戏状态" | exists "⭐ 经验信息"
    | exists "📍 位置信息" | exists "🌍 环境信息" | exists "📱 设备信息"
    | exists "🎒 物品信息" ]; reflexivity.
Qed.

Lemma heading_not_title (s : TextSection) (label n : string) :
  heading s <> label ++ " 👤 玩家详情: " ++ n.
Proof.
  intros E.
  assert (I : Infix " 👤 玩家详情: " (heading s)).
  { rewrite E. exists label, n. reflexivity. }
  apply Infix_infixb in I. destruct s; vm_compute in I; discriminate I.
Qed.

Lemma In_sectionBlock (s s' : TextSection) (p : PlayerResponse) (cfg : Config) :
  In (heading s) (sectionBlock s' p cfg) ->
  s' = s /\ sectionLines s p cfg <> [].
Proof.
  unfold sectionBlock. pose proof (sectionLines_bulleted s' p cfg) as B.
  destruct (sectionLines s' p cfg) as [|ln ls] eqn:E; [intros []|].
  intros [H|H].
  - apply heading_inj in H. subst s'. split; [reflexivity|].
    rewrite E. discriminate.
  - exfalso. apply in_app_or in H. destruct H as [H|H].
    + rewrite Forall_forall in B. apply (heading_not_bulleted s).
      now apply B.
    + destruct s'; cbn in H; try contradiction;
        destruct H as [H|[]]; symmetry in H; exact (heading_not_empty s H).
Qed.

Lemma sectionBlock_holds_heading (s : TextSection) (p : PlayerResponse)
  (cfg : Config) :
  sectionLines s p cfg <> [] ->
  exists tail, sectionBlock s p cfg = heading s :: (sectionLines s p cfg ++ tail)%list.
Proof.
  unfold sectionBlock. destruct (sectionLines s p cfg) as [|ln ls];
    [intros N; now elim N|].
  intros _. eexists. reflexivity.
Qed.

Lemma In_allSections (s : TextSection) : In s allSections.
Proof. destruct s; cbn; tauto. Qed.

Lemma heading_in_textLines (s : TextSection) (p : PlayerResponse) (n : string)
  (cfg : Config) (label : string) :
  In (heading s) (textLines p n cfg label) <-> sectionLines s p cfg <> [].
Proof.
  rewrite textLines_blocks. split.
  - intros [H|[H|H]].
    + symmetry in H. now apply heading_not_title in H.
    + symmetry in H. now apply heading_not_empty in H.
    + apply in_flat_map in H. destruct H as (s' & _ & H).
      now apply In_sectionBlock in H.
  - intros N. right. right. apply in_flat_map. exists s.
    split; [apply In_allSections|].
    destruct (sectionBlock_holds_heading s p cfg N) as [tail ->]. now left.
Qed.

Lemma section_block_in_textLines (s : TextSection) (p : PlayerResponse)
  (n : string) (cfg : Config) (label : string) :
  sectionLines s p cfg <> [] ->
  exists before after,
    textLines p n cfg label
    = (before ++ heading s :: sectionLines s p cfg ++ after)%list.
Proof.
  intros N. rewrite textLines_blocks.
  destruct (in_split s allSections (In_allSections s)) as (l1 & l2 & ->).
  rewrite flat_map_app. cbn [flat_map].
  destruct (sectionBlock_holds_heading s p cfg N) as [tail ->].
  exists ((label ++ " 👤 玩家详情: " ++ n) :: EmptyString
          :: flat_map (fun s0 => sectionBlock s0 p cfg) l1),
         (tail ++ flat_map (fun s0 => sectionBlock s0 p cfg) l2)%list.
  cbn [app]. now rewrite <- !app_assoc.
Qed.

Lemma sectionLines_disabled (s : TextSection) (p : PlayerResponse) (cfg : Config) :
  (forall k, In k (sectionPaths s) -> isFieldEnabled cfg k = false) ->
  sectionLines s p cfg = [].
Proof.
  intros H. destruct s; cbn [sectionLines].
  - unfold basicInfo. switch_off H. reflexivity.
  - unfold gameStatus, flags. switch_off H. reflexivity.
  - unfold expInfo. switch_off H. reflexivity.
  - unfold posInfo. switch_off H. reflexivity.
  - unfold envInfo. switch_off H. reflexivity.
  - destruct (isFieldEnabled cfg "device"); [|reflexivity].
    destruct (device p) as [d|]; [|reflexivity].
    unfold deviceInfo. switch_off H. reflexivity.
  - unfold itemInfo. switch_off H. reflexivity.
Qed.

End Suppression.

(** ** A heading in the text of the report *)

Lemma prefix_without (c : ascii) (x : string) :
  forall (after a r : string),
    countIf (Ascii.eqb c) x = 0 ->
    x ++ after = a ++ String c r -> exists a2, a = x ++ a2.
Proof.
  induction x as [|y x IH]; intros after a r H E.
  - now exists a.
  - cbn [countIf] in H. destruct (Ascii.eqb c y) eqn:C; [discriminate H|].
    destruct a as [|z a]; cbn in E; injection E as -> E.
    + rewrite Ascii.eqb_refl in C. discriminate C.
    + destruct (IH after a r H E) as [a2 ->]. now exists a2.
Qed.

Lemma Infix_split_char (c : ascii) (x a r : string) :
  countIf (Ascii.eqb c) x = 0 ->
  Infix x (a ++ String c r) -> Infix x a \/ Infix x r.
Proof.
  intros H (before & after & E). revert a E.
  induction before as [|y before IH]; intros a E.
  - symmetry in E. cbn [append] in E.
    destruct (@prefix_without c x after a r H E) as [a2 ->].
    left. apply Infix_here.
  - destruct a as [|z a]; cbn in E; injection E as -> E.
    + right. rewrite E. now exists before, after.
    + destruct (IH a E) as [I|I]; [left|now right].
      apply (@Infix_skip x (String y EmptyString) a I).
Qed.

Lemma Infix_empty (x : string) : Infix x EmptyString -> x = EmptyString.
Proof.
  intros (before & after & E).
  destruct before; [|discriminate E]. destruct x; [reflexivity|discriminate E].
Qed.

Lemma Infix_join_inv (x : string) (l : list string) :
  countIf (Ascii.eqb "010") x = 0 -> x <> EmptyString ->
  Infix x (join l nl) -> exists line, In line l /\ Infix x line.
Proof.
  intros H N. induction l as [|a l IH]; intros I.
  - apply Infix_empty in I. contradiction.
  - destruct l as [|b l].
    + exists a. split; [now left|exact I].
    + rewrite join_cons in I. unfold nl in I at 1. cbn [append] in I.
      destruct (@Infix_split_char "010" x a _ H I) as [J|J].
      * exists a. split; [now left|exact J].
      * destruct (IH J) as (line & L & K). exists line. split; [now right|exact K].
Qed.

Lemma Infix_survives_trimEnd (x0 : string) (c : ascii) (s : string) :
  solidByte c ->
  Infix (x0 ++ String c EmptyString) s ->
  Infix (x0 ++ String c EmptyString) (trimEnd s).
Proof.
  intros Hc (before & after & ->).
  replace (before ++ (x0 ++ String c EmptyString) ++ after)
    with ((before ++ x0) ++ String c after) by reassociate.
  destruct (@trimEnd_keeps (before ++ x0) c after Hc) as [b' ->].
  exists before, b'. reassociate.
Qed.

Lemma Infix_of_trimEnd (x s : string) : Infix x (trimEnd s) -> Infix x s.
Proof.
  intros (before & after & E). destruct (trimEnd_prefix s) as [rest R].
  rewrite R, E. exists before, (after ++ rest). reassociate.
Qed.

Lemma heading_one_line (s : TextSection) :
  countIf (Ascii.eqb "010") (heading s) = 0.
Proof. destruct s; reflexivity. Qed.

Lemma heading_in_heading (s s' : TextSection) :
  Infix (heading s) (heading s') -> s = s'.
Proof.
  intros I. apply Infix_infixb in I.
  destruct s, s'; try reflexivity; vm_compute in I; discriminate I.
Qed.

Section HeadingText.

Context {host : JsHost}.

Lemma heading_in_report (s : TextSection) (p : PlayerResponse)
  (n queryName : string) (cfg : Config) (label : string) :
  name p = Some n -> n <> EmptyString ->
  Infix (heading s) (formatTextOutput (Some p) queryName cfg label)
  <-> exists line, In line (textLines p n cfg label) /\ Infix (heading s) line.
Proof.
  intros Hn N. rewrite (formatTextOutput_named p queryName cfg label Hn N).
  split.
  - intros I. apply Infix_of_trimEnd in I.
    apply Infix_join_inv;
      [apply heading_one_line|apply heading_not_empty|exact I].
  - intros (line & L & I). destruct (heading_colon s) as [h0 E].
    rewrite E in *. apply (@Infix_survives_trimEnd h0 ":" _ solid_colon).
    destruct (In_join _ _ nl L) as (before & after & ->).
    apply Infix_skip. destruct I as (b1 & a1 & ->).
    exists b1, (a1 ++ after). reassociate.
Qed.

Lemma heading_in_lines (s : TextSection) (p : PlayerResponse) (n : string)
  (cfg : Config) (label : string) :
  (exists line, In line (textLines p n cfg label) /\ Infix (heading s) line)
  <-> (sectionLines s p cfg <> []
       \/ Infix (heading s) (label ++ " 👤 玩家详情: " ++ n)
       \/ exists s' line,
            In line (sectionLines s' p cfg) /\ Infix (heading s) line).
Proof.
  split.
  - intros (line & L & I). rewrite textLines_blocks in L.
    destruct L as [<-|[<-|L]].
    + right. now left.
    + apply Infix_empty in I. now apply heading_not_empty in I.
    + apply in_flat_map in L. destruct L as (s' & _ & L).
      unfold sectionBlock in L.
      destruct (sectionLines s' p cfg) as [|ln ls] eqn:E; [contradiction|].
      destruct L as [<-|L].
      * apply heading_in_heading in I. subst s'. left. rewrite E. discriminate.
      * apply in_app_or in L. destruct L as [L|L].
        -- right. right. exists s', line. rewrite E. now split.
        -- assert (line = EmptyString) as ->
             by (destruct s'; cbn in L; try contradiction;
                 destruct L as [<-|[]]; reflexivity).
           apply Infix_empty in I. now apply heading_not_empty in I.
  - intros [H|[H|(s' & line & L & I)]].
    + exists (heading s). split; [now apply heading_in_textLines|].
      exists EmptyString, EmptyString. cbn. now rewrite append_nil_r.
    + exists (label ++ " 👤 玩家详情: " ++ n). split; [|exact H].
      rewrite textLines_blocks. now left.
    + exists line. split; [|exact I]. rewrite textLines_blocks.
      right. right. apply in_flat_map. exists s'.
      split; [apply In_allSections|]. unfold sectionBlock.
      destruct (sectionLines s' p cfg) as [|ln ls]; [contradiction|].
      right. apply in_or_app. now left.
Qed.

End HeadingText.

Section PanelSuppression.

Context {host : JsHost}.

Lemma panels_blocks (p : PlayerResponse) (theme : TypstTheme) (cfg : Config) :
  panels p theme cfg = flat_map (fun s => panelBlock s p theme cfg) allPanels.
Proof.
  unfold panels, allPanels, pushIf, push. cbn [flat_map].
  unfold panelBlock. cbn [panelRows panelOf].
  generalize (basicInfoRows p cfg) (gameStatusItems p cfg) (expItems p cfg)
    (posInfoRows p cfg) (envInfoRows p cfg) (deviceInfoRows p cfg).
  intros l1 l2 l3 l4 l5 l6.
  destruct l1, l2, l3, l4, l5, l6; reflexivity.
Qed.

Lemma panelOf_shape (s : Panel) (theme : TypstTheme) (rows : list string) :
  exists rest,
    panelOf s theme rows = panelHead theme ++ panelTitle s ++ String "]" rest.
Proof.
  destruct s; cbn [panelOf panelTitle];
    unfold tablePanel, gridPanel, panelHead, tpl;
    generalize (join rows (nl ++ "    "));
    generalize (join rows ("," ++ nl ++ "    "));
    intros shown1 shown2; unfold join; cbn [String.concat];
    eexists; rewrite ?append_assoc; reflexivity.
Qed.

Lemma panelOf_inj (s s' : Panel) (theme : TypstTheme) (rows rows' : list string) :
  panelOf s theme rows = panelOf s' theme rows' -> s = s'.
Proof.
  destruct (panelOf_shape s theme rows) as [rest ->].
  destruct (panelOf_shape s' theme rows') as [rest' ->].
  intros E. apply append_inv_head in E.
  destruct s, s'; try reflexivity; cbn in E; discriminate E.
Qed.

Lemma In_allPanels (s : Panel) : In s allPanels.
Proof. destruct s; cbn; tauto. Qed.

Lemma panel_in_panels (s : Panel) (p : PlayerResponse) (theme : TypstTheme)
  (cfg : Config) :
  (exists rows, In (panelOf s theme rows) (panels p theme cfg))
  <-> panelRows s p cfg <> [].
Proof.
  rewrite panels_blocks. split.
  - intros [rows H]. apply in_flat_map in H. destruct H as (s' & _ & H).
    unfold panelBlock in H.
    destruct (panelRows s' p cfg) as [|r rs] eqn:E; [contradiction|].
    destruct H as [H|[]]. apply panelOf_inj in H. subst s'.
    rewrite E. discriminate.
  - intros N. exists (panelRows s p cfg). apply in_flat_map. exists s.
    split; [apply In_allPanels|]. unfold panelBlock.
    destruct (panelRows s p cfg); [now elim N|now left].
Qed.

Lemma own_panel_in_panels (s : Panel) (p : PlayerResponse) (theme : TypstTheme)
  (cfg : Config) :
  panelRows s p cfg <> [] ->
  In (panelOf s theme (panelRows s p cfg)) (panels p theme cfg).
Proof.
  intros N. rewrite panels_blocks. apply in_flat_map. exists s.
  split; [apply In_allPanels|]. unfold panelBlock.
  destruct (panelRows s p cfg); [now elim N|now left].
Qed.

Lemma panelRows_disabled (s : Panel) (p : PlayerResponse) (cfg : Config) :
  (forall k, In k (panelPaths s) -> isFieldEnabled cfg k = false) ->
  panelRows s p cfg = [].
Proof.
  intros H. destruct s; cbn [panelRows].
  - unfold basicInfoRows. switch_off H. reflexivity.
  - unfold gameStatusItems. switch_off H. reflexivity.
  - unfold expItems. switch_off H. reflexivity.
  - unfold posInfoRows. switch_off H. reflexivity.
  - unfold envInfoRows. switch_off H. reflexivity.
  - unfold deviceInfoRows.
    destruct (isFieldEnabled cfg "device"); [|reflexivity].
    destruct (device p) as [d|]; [|reflexivity].
    switch_off H. reflexivity.
Qed.

(** C6, as the code has it.  For a record with a name the text report is
    the title line, an empty line and then, section by section, the block
    of each section: nothing when the section produced no line, and
    otherwise its heading, its lines and the separator; the markup
    document is the page setup, the text setup, the header, the panels of
    the sections that produced a row, each rendered from these rows, and
    the footer.  So the heading of a section is a line of the report
    exactly when the section produced a line, a panel of the section is in
    the document exactly when it produced a row, and a section all of
    whose field paths are disabled contributes nothing to either output.
    The text of a heading can still occur in the report inside upstream
    data, which the text formatter prints as it is: the heading occurs in
    the report exactly when the section produced a line or the title line
    or a line of some section holds it. *)
Theorem sections_appear_iff_they_have_lines :
  forall (p : PlayerResponse) (n : string) (cfg : Config) (label : string)
         (theme : TypstTheme),
    (forall s : TextSection,
        (In (heading s) (textLines p n cfg label) <-> sectionLines s p cfg <> [])
        /\ (sectionLines s p cfg <> [] ->
            exists before after,
              textLines p n cfg label
              = (before ++ heading s :: sectionLines s p cfg ++ after)%list)
        /\ (sectionLines s p cfg <> [] ->
            name p = Some n -> n <> EmptyString ->
            forall queryName,
              Infix (heading s) (formatTextOutput (Some p) queryName cfg label))
        /\ ((forall k, In k (sectionPaths s) -> isFieldEnabled cfg k = false) ->
            ~ In (heading s) (textLines p n cfg label)))
    /\ (forall s : Panel,
        ((exists rows, In (panelOf s theme rows) (panels p theme cfg))
         <-> panelRows s p cfg <> [])
        /\ (panelRows s p cfg <> [] ->
            In (panelOf s theme (panelRows s p cfg)) (panels p theme cfg))
        /\ (panelRows s p cfg <> [] ->
            name p = Some n -> n <> EmptyString ->
            forall stamp queryName,
              Infix (panelOf s theme (panelRows s p cfg))
                    (generateTypstCode stamp (Some p) queryName theme cfg label))
        /\ ((forall k, In k (panelPaths s) -> isFieldEnabled cfg k = false) ->
            ~ exists rows, In (panelOf s theme rows) (panels p theme cfg)))
    /\ (name p = Some n -> n <> EmptyString ->
        (forall queryName,
            formatTextOutput (Some p) queryName cfg label
            = trimEnd
                (join ((label ++ " 👤 玩家详情: " ++ n) :: EmptyString
                         :: flat_map (fun s => sectionBlock s p cfg) allSections)
                   nl))
        /\ (forall stamp queryName,
              generateTypstCode stamp (Some p) queryName theme cfg label
              = pageSetup "450pt" theme
                  ++ textSetup theme
                  ++ headerBlock theme
                       (escapeTypstText label ++ " 👤 " ++ escapeTypstText n)
                       (flagsLine theme (typstFlags p cfg))
                  ++ join (flat_map (fun s => panelBlock s p theme cfg) allPanels)
                       (nl ++ nl ++ "#v(6pt)" ++ nl ++ nl)
                  ++ footerBlock theme (escapeTypstText stamp))
        /\ (forall (s : TextSection) queryName,
              Infix (heading s) (formatTextOutput (Some p) queryName cfg label)
              <-> (sectionLines s p cfg <> []
                   \/ Infix (heading s) (label ++ " 👤 玩家详情: " ++ n)
                   \/ exists s' line,
                        In line (sectionLines s' p cfg)
                        /\ Infix (heading s) line)))
    /\ (forall s : TextSection,
        (forall k, In k (sectionPaths s) -> isFieldEnabled cfg k = false) ->
        sectionBlock s p cfg = [])
    /\ (forall s : Panel,
        (forall k, In k (panelPaths s) -> isFieldEnabled cfg k = false) ->
        panelBlock s p theme cfg = []).
Proof.
  intros p n cfg label theme.
  split; [|split; [|split; [|split]]].
  - intros s; repeat split.
    + apply heading_in_textLines.
    + apply heading_in_textLines.
    + apply section_block_in_textLines.
    + intros NE Hn N queryName.
      destruct (heading_colon s) as [h0 E].
      rewrite E.
      apply (line_in_text_output p queryName cfg label h0 solid_colon Hn N).
      rewrite <- E. now apply heading_in_textLines.
    + intros H I. apply heading_in_textLines in I. apply I.
      now apply sectionLines_disabled.
  - intros s; repeat split.
    + apply panel_in_panels.
    + apply panel_in_panels.
    + apply own_panel_in_panels.
    + intros NE Hn N stamp queryName.
      rewrite (generateTypstCode_named stamp p queryName theme cfg label Hn N).
      apply panel_in_document. now apply own_panel_in_panels.
    + intros H I. apply panel_in_panels in I. apply I.
      now apply panelRows_disabled.
  - intros Hn N. split; [|split].
    + intros queryName.
      rewrite (formatTextOutput_named p queryName cfg label Hn N).
      now rewrite textLines_blocks.
    + intros stamp queryName.
      rewrite (generateTypstCode_named stamp p queryName theme cfg label Hn N).
      now rewrite playerDocument_parts, panels_blocks.
    + intros s queryName.
      rewrite (heading_in_report s p queryName cfg label Hn N).
      apply heading_in_lines.
  - intros s H. unfold sectionBlock.
    now rewrite (sectionLines_disabled s p cfg H).
  - intros s H. unfold panelBlock.
    now rewrite (panelRows_disabled s p cfg H).
Qed.

End PanelSuppression.

(** With the four experience paths off, [steve] gets neither the
    experience heading nor an experience panel, and keeps the game status
    heading; the text of the experience heading occurs nowhere in the
    report, and the experience section contributes nothing to it. *)
Lemma sections_appear_iff_they_have_lines_witness :
  ~ In (heading SecExp) (textLines steve "Steve" configWithoutExperience "[mc]")
  /\ ~ (exists rows,
           In (panelOf PanExp defaultTheme rows)
              (panels steve defaultTheme configWithoutExperience))
  /\ In (heading SecGame) (textLines steve "Steve" configWithoutExperience "[mc]")
  /\ ~ Infix (heading SecExp)
          (formatTextOutput (Some steve) "Steve" configWithoutExperience "[mc]")
  /\ sectionBlock SecExp steve configWithoutExperience = []
  /\ panelBlock PanExp steve defaultTheme configWithoutExperience = [].
Proof.
  assert (N : "Steve" <> EmptyString) by discriminate.
  destruct (sections_appear_iff_they_have_lines steve "Steve"
              configWithoutExperience "[mc]" defaultTheme)
    as (T & P & O & B & Q).
  destruct (O eq_refl N) as (_ & _ & I).
  split; [|split; [|split; [|split; [|split]]]].
  - apply (proj2 (proj2 (proj2 (T SecExp)))).
    intros k [<-|[<-|[<-|[<-|[]]]]]; reflexivity.
  - apply (proj2 (proj2 (proj2 (P PanExp)))).
    intros k [<-|[<-|[<-|[<-|[]]]]]; reflexivity.
  - apply (proj1 (T SecGame)). vm_compute. discriminate.
  - intros H. apply (proj1 (I SecExp "Steve")) in H.
    destruct H as [H|[H|(s' & line & L & H)]].
    + apply H. reflexivity.
    + apply Infix_infixb in H. vm_compute in H. discriminate H.
    + apply Infix_infixb in H.
      destruct s'; vm_compute in L;
        repeat (destruct L as [<-|L]; [vm_compute in H; discriminate H|]);
        exact L.
  - apply B. intros k [<-|[<-|[<-|[<-|[]]]]]; reflexivity.
  - apply Q. intros k [<-|[<-|[<-|[<-|[]]]]]; reflexivity.
Defined.

(** C6 as stated fails for the text formatter: with the four experience
    paths off the experience section produces no line, and yet its heading
    stands in the report, printed as part of the language code that the
    upstream record holds. *)
Lemma heading_forged_by_upstream_data :
  forallb (fun k => negb (isFieldEnabled configWithoutExperience k))
    (sectionPaths SecExp) = true
  /\ sectionLines SecExp forgedSteve configWithoutExperience = []
  /\ Infix (nl ++ heading SecExp ++ nl)
           (formatTextOutput (Some forgedSteve) "Steve" configWithoutExperience
              "[mc]").
Proof.
  split; [reflexivity|]. split; [reflexivity|].
  apply infixb_true. vm_compute. reflexivity.
Qed.

(** * The health line *)

Section Health.

Context {host : JsHost}.

Lemma gameStatus_health_line (p : PlayerResponse) (cfg : Config) :
  existsb (String.prefix "  • 生命值: ") (gameStatus p cfg)
  = isFieldEnabled cfg "health" && isFieldEnabled cfg "maxHealth".
Proof.
  unfold gameStatus. cbv zeta.
  generalize (0 <? length (flags p cfg))%nat (join (flags p cfg) " | ").
  intros shown fl.
  destruct (isFieldEnabled cfg "gameMode"), (isFieldEnabled cfg "health"),
    (isFieldEnabled cfg "maxHealth"), (isFieldEnabled cfg "speed"), shown;
    unfold pushIf, push; cbn [app existsb andb];
    rewrite ?prefix_append; reflexivity.
Qed.

Lemma gameStatusItems_health_item (p : PlayerResponse) (cfg : Config) :
  existsb (String.prefix "[生命值: ") (gameStatusItems p cfg)
  = isFieldEnabled cfg "health" && isFieldEnabled cfg "maxHealth".
Proof.
  unfold gameStatusItems. cbv zeta.
  destruct (isFieldEnabled cfg "gameMode"), (isFieldEnabled cfg "health"),
    (isFieldEnabled cfg "maxHealth"), (isFieldEnabled cfg "speed"),
    (isFieldEnabled cfg "isHungry");
    unfold pushIf, push; cbn [app existsb andb];
    rewrite ?prefix_append; reflexivity.
Qed.

Lemma In_push (arr : list string) (item x : string) :
  In x (push arr item) <-> In x arr \/ x = item.
Proof.
  unfold push. rewrite in_app_iff. cbn. intuition congruence.
Qed.

Lemma In_pushIf (c : bool) (arr : list string) (item x : string) :
  In x (pushIf c arr item) <-> In x arr \/ (c = true /\ x = item).
Proof.
  unfold pushIf. destruct c; [rewrite In_push|]; intuition congruence.
Qed.

Lemma health_line_in_gameStatus (p : PlayerResponse) (cfg : Config) :
  isFieldEnabled cfg "health" && isFieldEnabled cfg "maxHealth" = true ->
  In ("  • 生命值: " ++ Number_toString (health p) ++ "/"
        ++ Number_toString (maxHealth p) ++ " ❤️")
     (gameStatus p cfg).
Proof.
  intros H. unfold gameStatus. cbv zeta. rewrite H.
  rewrite !In_pushIf. left. left. right. split; reflexivity.
Qed.

Lemma health_item_in_gameStatusItems (p : PlayerResponse) (cfg : Config) :
  isFieldEnabled cfg "health" && isFieldEnabled cfg "maxHealth" = true ->
  In ("[生命值: ❤️ " ++ Number_toString (health p) ++ "/"
        ++ Number_toString (maxHealth p) ++ "]")
     (gameStatusItems p cfg).
Proof.
  intros H. unfold gameStatusItems. cbv zeta. rewrite H.
  rewrite !In_pushIf. left. left. right. split; reflexivity.
Qed.

Lemma gameStatus_withHealth (h m : number) (p : PlayerResponse) (cfg : Config) :
  isFieldEnabled cfg "health" && isFieldEnabled cfg "maxHealth" = false ->
  gameStatus (withHealth h m p) cfg = gameStatus p cfg.
Proof. intros H. unfold gameStatus. cbv zeta. rewrite H. reflexivity. Qed.

Lemma gameStatusItems_withHealth (h m : number) (p : PlayerResponse)
  (cfg : Config) :
  isFieldEnabled cfg "health" && isFieldEnabled cfg "maxHealth" = false ->
  gameStatusItems (withHealth h m p) cfg = gameStatusItems p cfg.
Proof. intros H. unfold gameStatusItems. cbv zeta. rewrite H. reflexivity. Qed.

Lemma formatTextOutput_withHealth (h m : number) (p : PlayerResponse)
  (queryName : string) (cfg : Config) (label : string) :
  isFieldEnabled cfg "health" && isFieldEnabled cfg "maxHealth" = false ->
  formatTextOutput (Some (withHealth h m p)) queryName cfg label
  = formatTextOutput (Some p) queryName cfg label.
Proof.
  intros H. unfold formatTextOutput. cbn [name withHealth].
  destruct (name p) as [[|c n]|]; try reflexivity.
  unfold textLines. rewrite (gameStatus_withHealth h m p cfg H). reflexivity.
Qed.

Lemma generateTypstCode_withHealth (h m : number) (p : PlayerResponse)
  (stamp queryName : string) (theme : TypstTheme) (cfg : Config) (label : string) :
  isFieldEnabled cfg "health" && isFieldEnabled cfg "maxHealth" = false ->
  generateTypstCode stamp (Some (withHealth h m p)) queryName theme cfg label
  = generateTypstCode stamp (Some p) queryName theme cfg label.
Proof.
  intros H. unfold generateTypstCode. cbn [name withHealth].
  destruct (name p) as [[|c n]|]; try reflexivity.
  unfold playerDocument, panels.
  rewrite (gameStatusItems_withHealth h m p cfg H). reflexivity.
Qed.

(** C10.  In the text formatter the game status section has a line that
    starts with the health bullet exactly when both [health] and
    [maxHealth] are enabled, and then the line shows both values, is in
    [lines] and occurs in the output; in the markup formatter the game
    status grid has the health item under the same condition, and then the
    item occurs in the document.  When either path is disabled, neither
    output depends on the two values at all. *)
Theorem health_line_needs_both_paths :
  forall (p : PlayerResponse) (n : string) (cfg : Config) (label : string)
         (theme : TypstTheme),
    let both := isFieldEnabled cfg "health" && isFieldEnabled cfg "maxHealth" in
    let line := "  • 生命值: " ++ Number_toString (health p) ++ "/"
                  ++ Number_toString (maxHealth p) ++ " ❤️" in
    let item := "[生命值: ❤️ " ++ Number_toString (health p) ++ "/"
                  ++ Number_toString (maxHealth p) ++ "]" in
    existsb (String.prefix "  • 生命值: ") (gameStatus p cfg) = both
    /\ existsb (String.prefix "[生命值: ") (gameStatusItems p cfg) = both
    /\ (both = true ->
        In line (textLines p n cfg label)
        /\ In item (gameStatusItems p cfg)
        /\ In (gridPanel theme "🎮 游戏状态" (gameStatusItems p cfg))
              (panels p theme cfg))
    /\ (both = true -> name p = Some n -> n <> EmptyString ->
        forall stamp queryName,
          Infix line (formatTextOutput (Some p) queryName cfg label)
          /\ Infix item
                (generateTypstCode stamp (Some p) queryName theme cfg label))
    /\ (both = false ->
        forall (h m : number) (stamp queryName : string),
          formatTextOutput (Some (withHealth h m p)) queryName cfg label
          = formatTextOutput (Some p) queryName cfg label
          /\ generateTypstCode stamp (Some (withHealth h m p)) queryName theme
               cfg label
             = generateTypstCode stamp (Some p) queryName theme cfg label).
Proof.
  intros p n cfg label theme both line item. subst both.
  assert (Lines : isFieldEnabled cfg "health" && isFieldEnabled cfg "maxHealth"
                  = true ->
                  In line (textLines p n cfg label)
                  /\ In item (gameStatusItems p cfg)
                  /\ In (gridPanel theme "🎮 游戏状态" (gameStatusItems p cfg))
                        (panels p theme cfg)).
  { intros H.
    pose proof (health_line_in_gameStatus p cfg H) as L.
    pose proof (health_item_in_gameStatusItems p cfg H) as M.
    split; [|split; [exact M|]].
    - assert (N : sectionLines SecGame p cfg <> []).
      { cbn [sectionLines]. intros E. rewrite E in L. exact L. }
      destruct (section_block_in_textLines SecGame p n cfg label N)
        as (before & after & ->).
      apply in_or_app. right. right. apply in_or_app. left. exact L.
    - apply (own_panel_in_panels PanGame p theme cfg).
      cbn [panelRows]. intros E. rewrite E in M. exact M. }
  split; [apply gameStatus_health_line|].
  split; [apply gameStatusItems_health_item|].
  split; [exact Lines|].
  split.
  - intros H Hn N stamp queryName. destruct (Lines H) as (L & M & G). split.
    + revert L. subst line.
      replace ("  • 生命值: " ++ Number_toString (health p) ++ "/"
                 ++ Number_toString (maxHealth p) ++ " ❤️")
        with (("  • 生命值: " ++ Number_toString (health p) ++ "/"
                 ++ Number_toString (maxHealth p)
                 ++ " ❤" ++ String "239" (String "184" EmptyString))
                ++ String "143" EmptyString)
        by reassociate.
      now apply line_in_text_output; [apply solid_143| |].
    + rewrite (generateTypstCode_named stamp p queryName theme cfg label Hn N).
      apply Infix_trans with (gridPanel theme "🎮 游戏状态" (gameStatusItems p cfg)).
      * now apply item_in_gridPanel.
      * now apply panel_in_document.
  - intros H h m stamp queryName. split.
    + now apply formatTextOutput_withHealth.
    + now apply generateTypstCode_withHealth.
Qed.

End Health.

Lemma health_line_needs_both_paths_witness :
  In "  • 生命值: 18/20 ❤️" (textLines steve "Steve" defaultConfig "[mc]")
  /\ Infix "  • 生命值: 18/20 ❤️"
        (formatTextOutput (Some steve) "Steve" defaultConfig "[mc]")
  /\ formatTextOutput (Some (withHealth 1%Z 2%Z steve)) "Steve"
       configWithoutHealth "[mc]"
     = formatTextOutput (Some steve) "Steve" configWithoutHealth "[mc]".
Proof.
  pose proof (health_line_needs_both_paths steve "Steve" defaultConfig "[mc]"
                defaultTheme) as (_ & _ & L & O & _).
  pose proof (health_line_needs_both_paths steve "Steve" configWithoutHealth
                "[mc]" defaultTheme) as (_ & _ & _ & _ & D).
  split; [exact (proj1 (L eq_refl))|].
  split.
  - refine (proj1 (O eq_refl eq_refl _ "2026/11/2 10:00:00" "Steve")).
    discriminate.
  - exact (proj1 (D eq_refl 1%Z 2%Z "2026/11/2 10:00:00" "Steve")).
Defined.

(** * Cells of the markup document *)

Lemma pushSome_Forall (A : Type) (P : string -> Prop) (c : bool) (o : option A)
  (arr : list string) (f : A -> string) :
  Forall P arr -> (forall a, P (f a)) ->
  Forall P match c with
           | true => match o with
                     | Some a => push arr (f a)
                     | None => arr
                     end
           | false => arr
           end.
Proof.
  intros Ha Hf. destruct c; [|exact Ha].
  destruct o as [a|]; [|exact Ha]. apply push_Forall; [exact Ha|apply Hf].
Qed.

Ltac each_row :=
  cbv zeta;
  repeat first
    [ apply Forall_nil
    | apply pushIf_Forall
    | apply pushSome_Forall; [|intros ?] ].

Section Cells.

Context {host : JsHost}.

Lemma Safe_text (s : string) : Safe (escapeTypstText s).
Proof. apply Safe_escaped. apply wellEscaped_escapeTypstText. Qed.

Ltac safe :=
  repeat first
    [ apply Safe_number
    | apply Safe_fixed
    | apply Safe_text
    | apply Safe_escaped; reflexivity
    | apply Safe_app ].

Ltac row k v :=
  exists k, v; split; [safe|split; [safe|]];
  first [ left; reassociate | right; reassociate ].

Ltac item v := exists v; split; [safe|reassociate].

Lemma basicInfoRows_cells (p : PlayerResponse) (cfg : Config) :
  Forall TableRow (basicInfoRows p cfg).
Proof.
  unfold basicInfoRows. each_row.
  - row "XUID" (escapeTypstText (xuid p)).
  - row "UUID" (escapeTypstText (uuid p)).
  - row "UniqueId" (escapeTypstText (uniqueId p)).
  - row "权限等级" (escapeTypstText (getPermLevel (permLevel p))).
  - destruct (isSimulatedPlayer p);
      [row "模拟玩家" "✅ 是"|row "模拟玩家" "❌ 否"].
  - row "语言" (escapeTypstText (langCode p)).
Qed.

Lemma gameStatusItems_cells (p : PlayerResponse) (cfg : Config) :
  Forall GridItem (gameStatusItems p cfg).
Proof.
  unfold gameStatusItems. each_row.
  - item ("游戏模式: " ++ escapeTypstText (getGameMode (gameMode p))).
  - item ("生命值: ❤️ " ++ Number_toString (health p) ++ "/"
            ++ Number_toString (maxHealth p)).
  - unfold speedText. destruct (speed p) as [v|];
      [item ("移动速度: 🏃 " ++ Number_toFixed2 v)|item "移动速度: 🏃 N/A"].
  - destruct (isHungry p); [item "饥饿: 🍖 是"|item "饥饿: 🍗 否"].
Qed.

Lemma expItems_cells (p : PlayerResponse) (cfg : Config) :
  Forall GridItem (expItems p cfg).
Proof.
  unfold expItems. each_row.
  - item ("等级: ⭐ " ++ Number_toString (level p)).
  - item ("当前经验: " ++ Number_toString (currentExp p)).
  - item ("总经验: " ++ Number_toString (totalExp p)).
  - item ("升级所需: " ++ Number_toString (expNeededForNextLevel p)).
Qed.

Lemma posInfoRows_cells (p : PlayerResponse) (cfg : Config) :
  Forall TableRow (posInfoRows p cfg).
Proof.
  unfold posInfoRows. each_row.
  - row "维度" (escapeTypstText (getDimension (dimId a))).
  - row "精确坐标" (Number_toFixed2 (x a) ++ ", " ++ Number_toFixed2 (y a) ++ ", "
                      ++ Number_toFixed2 (z a)).
  - row "方块坐标" (Number_toString (block_x a) ++ ", "
                      ++ Number_toString (block_y a) ++ ", "
                      ++ Number_toString (block_z a)).
  - row "上次死亡" (Number_toString (x a) ++ ", " ++ Number_toString (y a) ++ ", "
                      ++ Number_toString (z a)).
  - row "重生点" (Number_toString (x a) ++ ", " ++ Number_toString (y a) ++ ", "
                    ++ Number_toString (z a)).
Qed.

Lemma envInfoRows_cells (p : PlayerResponse) (cfg : Config) :
  Forall TableRow (envInfoRows p cfg).
Proof.
  unfold envInfoRows. each_row.
  - row "生物群系"
      (escapeTypstText
         (if isFieldEnabled cfg "biome.id"
          then biome_name a ++ " (ID: " ++ Number_toString (biome_id a) ++ ")"
          else biome_name a)).
  - row "脚下方块" (escapeTypstText (block_name a)).
Qed.

Lemma deviceInfoRows_cells (p : PlayerResponse) (cfg : Config) :
  Forall TableRow (deviceInfoRows p cfg).
Proof.
  unfold deviceInfoRows. cbv zeta.
  destruct (isFieldEnabled cfg "device"); [|constructor].
  destruct (device p) as [d|]; [|constructor].
  each_row.
  - row "操作系统" (escapeTypstText (os d)).
  - row "输入方式" (escapeTypstText (getInputMode (inputMode d))).
  - row "IP 地址" (escapeTypstText (ip d)).
  - row "服务器地址" (escapeTypstText (serverAddress d)).
  - row "平均延迟" (Number_toString (avgPing d) ++ "ms").
  - row "最近延迟" (Number_toString (lastPing d) ++ "ms").
  - row "平均丢包" (Number_toFixed2 (Number_times100 (avgPacketLoss d)) ++ "%").
Qed.

Lemma typstFlags_fixed (p : PlayerResponse) (cfg : Config) :
  Forall (fun flag => wellEscaped flag = true) (typstFlags p cfg).
Proof. unfold typstFlags. each_push; reflexivity. Qed.

Lemma panelRows_cells (s : Panel) (p : PlayerResponse) (cfg : Config) :
  Forall (fun row => TableRow row \/ GridItem row) (panelRows s p cfg).
Proof.
  destruct s; cbn [panelRows];
    [ pose proof (basicInfoRows_cells p cfg) as H
    | pose proof (gameStatusItems_cells p cfg) as H
    | pose proof (expItems_cells p cfg) as H
    | pose proof (posInfoRows_cells p cfg) as H
    | pose proof (envInfoRows_cells p cfg) as H
    | pose proof (deviceInfoRows_cells p cfg) as H ];
    (eapply Forall_impl; [|exact H]); intros row R; tauto.
Qed.

End Cells.

(** * Escaping round trip *)

Section RoundTrip.

Context {host : JsHost}.

(** C8.  Reading the escaping rules backwards on the escaped text gives
    the input back, up to the layout characters that the routine collapses:
    exactly the input when it holds no newline, carriage return or tab, so
    every special character is recovered.  In the escaped text no special
    character stands bare.  In the markup document every table row and grid
    item is made of fixed brackets around cells of escaped text, printed
    numbers and fixed text without special characters, and the label, the
    name, the query and the time stamp enter the two documents escaped.
    What [generateTypstCode] returns is made of these parts and of nothing
    else: for a record without a name the setup, the header with the
    escaped label, the message panel with the escaped query and the footer
    with the escaped time stamp; for a record with a name the setup, the
    header with the escaped label and name and the flags, which are fixed
    texts, one panel for each section that produced rows, rendered from
    these very rows, and the footer.  So no field of the upstream record
    reaches the document but through a cell. *)
Theorem escaping_round_trip_and_cells :
  (forall s : string,
      unescapeTypstText (escapeTypstText s)
      = (s |> replaceAll "010" " " |> replaceAll "013" EmptyString
           |> replaceAll "009" " ")
      /\ (infixb nl s = false -> infixb cr s = false -> infixb tab s = false ->
          unescapeTypstText (escapeTypstText s) = s)
      /\ wellEscaped (escapeTypstText s) = true)
  /\ (forall (p : PlayerResponse) (cfg : Config),
        Forall TableRow (basicInfoRows p cfg)
        /\ Forall GridItem (gameStatusItems p cfg)
        /\ Forall GridItem (expItems p cfg)
        /\ Forall TableRow (posInfoRows p cfg)
        /\ Forall TableRow (envInfoRows p cfg)
        /\ Forall TableRow (deviceInfoRows p cfg))
  /\ (forall (stamp queryName n label : string) (p : PlayerResponse)
             (theme : TypstTheme) (cfg : Config),
        notFoundDocument stamp queryName theme label
        = pageSetup "400pt" theme
            ++ textSetup theme
            ++ headerBlock theme (escapeTypstText label ++ " 👤 玩家查询") EmptyString
            ++ tpl [ "#block(";
                     "  fill: " ++ panelFill theme ++ ",";
                     "  stroke: 1pt + " ++ panelStroke theme ++ ",";
                     "  radius: 4pt,";
                     "  inset: 12pt,";
                     "  width: 100%";
                     ")[";
                     "  #align(center)[";
                     "    #text(size: 12pt)[❌ 未找到玩家: "
                       ++ escapeTypstText queryName ++ "]";
                     "  ]";
                     "]" ]
            ++ footerBlock theme (escapeTypstText stamp)
        /\ playerDocument stamp p n theme cfg label
           = pageSetup "450pt" theme
               ++ textSetup theme
               ++ headerBlock theme
                    (escapeTypstText label ++ " 👤 " ++ escapeTypstText n)
                    (flagsLine theme (typstFlags p cfg))
               ++ join (panels p theme cfg) (nl ++ nl ++ "#v(6pt)" ++ nl ++ nl)
               ++ footerBlock theme (escapeTypstText stamp))
  /\ (forall (stamp queryName label : string) (player : option PlayerResponse)
             (theme : TypstTheme) (cfg : Config),
        hasNoName player ->
        generateTypstCode stamp player queryName theme cfg label
        = pageSetup "400pt" theme
            ++ textSetup theme
            ++ headerBlock theme (escapeTypstText label ++ " 👤 玩家查询") EmptyString
            ++ messagePanel theme queryName
            ++ footerBlock theme (escapeTypstText stamp))
  /\ (forall (stamp queryName n label : string) (p : PlayerResponse)
             (theme : TypstTheme) (cfg : Config),
        name p = Some n -> n <> EmptyString ->
        generateTypstCode stamp (Some p) queryName theme cfg label
        = pageSetup "450pt" theme
            ++ textSetup theme
            ++ headerBlock theme
                 (escapeTypstText label ++ " 👤 " ++ escapeTypstText n)
                 (flagsLine theme (typstFlags p cfg))
            ++ join (flat_map
                       (fun s =>
                          match panelRows s p cfg with
                          | [] => []
                          | rows => [panelOf s theme rows]
                          end)
                       allPanels)
                 (nl ++ nl ++ "#v(6pt)" ++ nl ++ nl)
            ++ footerBlock theme (escapeTypstText stamp))
  /\ (forall (p : PlayerResponse) (cfg : Config),
        Forall (fun flag => wellEscaped flag = true) (typstFlags p cfg)
        /\ forall s : Panel,
             Forall (fun row => TableRow row \/ GridItem row) (panelRows s p cfg)).
Proof.
  split; [|split; [|split; [|split; [|split]]]].
  - intros s. rewrite escapeTypstText_chars, unescape_mapChars.
    split; [reflexivity|split].
    + intros Hn Hc Ht. unfold nl in Hn. unfold cr in Hc. unfold tab in Ht.
      rewrite (@replaceAll_absent "010" " " s Hn).
      rewrite (@replaceAll_absent "013" EmptyString s Hc).
      exact (@replaceAll_absent "009" " " s Ht).
    + apply wellEscaped_mapChars.
  - intros p cfg.
    repeat split;
      auto using basicInfoRows_cells, gameStatusItems_cells, expItems_cells,
        posInfoRows_cells, envInfoRows_cells, deviceInfoRows_cells.
  - intros stamp queryName n label p theme cfg. split.
    + apply notFoundDocument_parts.
    + apply playerDocument_parts.
  - intros stamp queryName label player theme cfg H.
    rewrite (generateTypstCode_not_found stamp player queryName theme cfg label H).
    rewrite notFoundDocument_parts. reflexivity.
  - intros stamp queryName n label p theme cfg Hn N.
    rewrite (generateTypstCode_named stamp p queryName theme cfg label Hn N).
    rewrite playerDocument_parts, panels_blocks. reflexivity.
  - intros p cfg. split; [apply typstFlags_fixed|].
    intros s. apply panelRows_cells.
Qed.

End RoundTrip.

Lemma escaping_round_trip_and_cells_witness :
  unescapeTypstText (escapeTypstText "\[]#$`*_<>@ Steve_[1]") = "\[]#$`*_<>@ Steve_[1]".
Proof.
  apply (proj1 (proj2 (proj1 escaping_round_trip_and_cells
                          "\[]#$`*_<>@ Steve_[1]")));
    reflexivity.
Defined.

(** * Worked examples *)

Example steve_text_report :
  formatTextOutput (Some steve) "Steve" defaultConfig "[mc]"
  = tpl [ "[mc] 👤 玩家详情: Steve";
          EmptyString;
          "📋 基本信息:";
          "  • XUID: 123";
          "  • UUID: u-1";
          "  • 权限等级: 👤 成员";
          "  • OP: ❌ 否";
          "  • 模拟玩家: ❌ 否";
          "  • 语言: zh_CN";
          EmptyString;
          "🎮 游戏状态:";
          "  • 游戏模式: 🗡️ 生存";
          "  • 生命值: 18/20 ❤️";
          "  • 移动速度: N/A";
          "  • 状态: 🦅 飞行";
          EmptyString;
          "⭐ 经验信息:";
          "  • 等级: 0";
          "  • 当前经验: 0";
          "  • 总经验: 0";
          "  • 升级所需: 7" ].
Proof. vm_compute. reflexivity. Qed.

Example steve_without_health :
  let cfg := configWith [ {| key := "health"; enabled := false |};
                          {| key := "maxHealth"; enabled := false |} ] [text] in
  infixb "生命值" (formatTextOutput (Some steve) "Steve" cfg "[mc]") = false
  /\ infixb "  • 状态: 🦅 飞行" (formatTextOutput (Some steve) "Steve" cfg "[mc]")
     = true.
Proof. split; vm_compute; reflexivity. Qed.

Example resolveOutputModes_override :
  resolveOutputModes (Some "text") (configWith [] [typst_image]) = [text]
  /\ resolveOutputModes (Some "image") (configWith [] [text]) = [typst_image]
  /\ resolveOutputModes (Some EmptyString) (configWith [] [text; typst_image])
     = [text; typst_image]
  /\ resolveOutputModes (Some "png") (configWith [] []) = []
  /\ resolveOutputModes None (configWith [] [typst_image]) = [typst_image].
Proof. repeat split. Qed.

Example sampleAction_reply :
  fst (sampleAction (configWith [] [typst_image; text]) None (Some "Steve") [])
  = Returned
      (ReplyFragment
         [ h_quote string "msg-1";
           h_text string "[Typst 渲染失败: w-node 服务未启用，无法使用 Typst 渲染]";
           h_text string
             (formatTextOutput (Some steve) "Steve"
                (configWith [] [typst_image; text]) "[mc]") ]).
Proof. vm_compute. reflexivity. Qed.

(** * Further properties of the escaping routine *)

Lemma length_append (a b : string) :
  String.length (a ++ b) = String.length a + String.length b.
Proof. induction a as [|c a IH]; simpl; [reflexivity|]. now rewrite IH. Qed.

Lemma countIf_append (f : ascii -> bool) (a b : string) :
  countIf f (a ++ b) = countIf f a + countIf f b.
Proof. induction a as [|c a IH]; simpl; [reflexivity|]. rewrite IH. lia. Qed.

Lemma countIf_le_length (f : ascii -> bool) (s : string) :
  countIf f s <= String.length s.
Proof. induction s as [|c s IH]; simpl; [lia|]. destruct (f c); lia. Qed.

Lemma mapChars_escape_length (s : string) :
  String.length (mapChars escapeChar s) + countIf isCarriageReturn s
  = String.length s + countIf isSpecial s.
Proof.
  induction s as [|c s IH]; [reflexivity|].
  cbn [mapChars countIf String.length]. rewrite length_append.
  destruct c as [[] [] [] [] [] [] [] []]; cbn; lia.
Qed.

Lemma mapChars_escape_specials (s : string) :
  countIf isSpecial (mapChars escapeChar s) = 2 * countIf isSpecial s.
Proof.
  induction s as [|c s IH]; [reflexivity|].
  cbn [mapChars countIf]. rewrite countIf_append.
  destruct c as [[] [] [] [] [] [] [] []]; cbn; lia.
Qed.

Lemma mapChars_escape_layout (s : string) :
  countIf isLayout (mapChars escapeChar s) = 0.
Proof.
  induction s as [|c s IH]; [reflexivity|].
  cbn [mapChars]. rewrite countIf_append, IH.
  destruct c as [[] [] [] [] [] [] [] []]; reflexivity.
Qed.

Lemma countIf_layout_carriage (s : string) :
  countIf isLayout s = 0 -> countIf isCarriageReturn s = 0.
Proof.
  induction s as [|c s IH]; [reflexivity|]. cbn [countIf].
  unfold isLayout, isCarriageReturn.
  destruct (Ascii.eqb c "010"), (Ascii.eqb c "013"), (Ascii.eqb c "009");
    cbn; intros H; try discriminate; now apply IH.
Qed.

Lemma mapChars_escape_plain (s : string) :
  countIf isSpecial s = 0 -> countIf isLayout s = 0 ->
  mapChars escapeChar s = s.
Proof.
  induction s as [|c s IH]; [reflexivity|].
  cbn [mapChars countIf].
  destruct c as [[] [] [] [] [] [] [] []]; cbn; intros H1 H2;
    try discriminate; now rewrite IH.
Qed.

Lemma collapse_without_layout (s : string) :
  countIf isLayout s = 0 ->
  (s |> replaceAll "010" " " |> replaceAll "013" EmptyString
     |> replaceAll "009" " ") = s.
Proof.
  rewrite !replaceAll_mapChars, !mapChars_mapChars.
  induction s as [|c s IH]; [reflexivity|].
  cbn [mapChars countIf].
  destruct c as [[] [] [] [] [] [] [] []]; cbn; intros H;
    try discriminate; now rewrite IH.
Qed.

(** X1.  Escaping distributes over concatenation and over [join]: the
    escape of a text assembled from parts is the text assembled from the
    escaped parts, whatever the parts hold. *)
Theorem escapeTypstText_distributes :
  forall (a b sep : string) (parts : list string),
    escapeTypstText (a ++ b) = escapeTypstText a ++ escapeTypstText b
    /\ escapeTypstText (join parts sep)
       = join (map escapeTypstText parts) (escapeTypstText sep).
Proof.
  intros a b sep parts. split; [apply escapeTypstText_append|].
  induction parts as [|x parts IH]; [reflexivity|].
  destruct parts as [|y parts]; [reflexivity|].
  cbn [map]. rewrite !join_cons, !escapeTypstText_append, IH. reflexivity.
Qed.

(** X2.  The escaped text is longer than the input by one character for
    each special character and shorter by one for each carriage return;
    it is never longer than twice the input. *)
Theorem escapeTypstText_length :
  forall s : string,
    String.length (escapeTypstText s) + countIf isCarriageReturn s
    = String.length s + countIf isSpecial s
    /\ String.length (escapeTypstText s) <= 2 * String.length s.
Proof.
  intros s. rewrite escapeTypstText_chars.
  pose proof (mapChars_escape_length s) as E.
  pose proof (countIf_le_length isSpecial s) as L.
  split; [exact E|lia].
Qed.

(** X3.  On texts without newline, carriage return and tab the escaping
    routine is injective: two different texts never get the same escaped
    form.  With these characters it is not: a carriage return leaves no
    trace. *)
Theorem escapeTypstText_injective :
  (forall a b : string,
      countIf isLayout a = 0 -> countIf isLayout b = 0 ->
      escapeTypstText a = escapeTypstText b -> a = b)
  /\ escapeTypstText ("a" ++ cr ++ "b") = escapeTypstText "ab".
Proof.
  split; [|reflexivity].
  intros a b Ha Hb E.
  apply (f_equal unescapeTypstText) in E.
  rewrite !escapeTypstText_chars, !unescape_mapChars in E.
  now rewrite (collapse_without_layout a Ha), (collapse_without_layout b Hb) in E.
Qed.

Lemma escapeTypstText_injective_witness :
  countIf isLayout "a_b" = 0
  /\ escapeTypstText "a_b" = String "a" (String "\" "_b")
  /\ "a_b" = "a_b".
Proof.
  split; [reflexivity|]. split; [reflexivity|].
  apply (proj1 escapeTypstText_injective); reflexivity.
Defined.

(** X4.  Escaping an escaped text again changes it unless the input has
    no special character: the routine must be applied exactly once. *)
Theorem escapeTypstText_twice :
  forall s : string,
    escapeTypstText (escapeTypstText s) = escapeTypstText s
    <-> countIf isSpecial s = 0.
Proof.
  intros s. rewrite !escapeTypstText_chars. split.
  - intros E. apply (f_equal String.length) in E.
    pose proof (mapChars_escape_length (mapChars escapeChar s)) as L.
    rewrite mapChars_escape_specials in L.
    rewrite (countIf_layout_carriage _ (mapChars_escape_layout s)) in L.
    lia.
  - intros H. apply mapChars_escape_plain.
    + rewrite mapChars_escape_specials. lia.
    + apply mapChars_escape_layout.
Qed.

Lemma escapeTypstText_twice_witness :
  escapeTypstText (escapeTypstText "Steve 123") = escapeTypstText "Steve 123".
Proof. apply (proj2 (escapeTypstText_twice "Steve 123")). reflexivity. Defined.

(** * Further properties of the lookup tables *)

Lemma append_inv_tail (a b c : string) : a ++ c = b ++ c -> a = b.
Proof.
  revert b. induction a as [|x a IH]; intros b E.
  - destruct b as [|y b]; [reflexivity|].
    apply (f_equal String.length) in E. cbn in E. rewrite length_append in E. lia.
  - destruct b as [|y b].
    + apply (f_equal String.length) in E. cbn in E. rewrite length_append in E. lia.
    + cbn in E. injection E as -> E. now rewrite (IH b E).
Qed.

Lemma fallback_text_inj (x y : string) :
  "❓ 未知 (" ++ x ++ ")" = "❓ 未知 (" ++ y ++ ")" -> x = y.
Proof.
  intros E. apply append_inv_head in E. now apply append_inv_tail in E.
Qed.

(** Splits an equation between two results of a lookup function on the
    keys that the two printed codes are. *)
Ltac same_label E :=
  repeat match type of E with
         | context [String.eqb ?k ?printed] =>
             destruct (String.eqb_spec k printed)
         end;
  first [ congruence
        | now apply fallback_text_inj
        | cbn in E; discriminate E ].

Lemma lookup_labels_printed (host : JsHost) (a b : number) :
  (getGameMode a = getGameMode b -> Number_toString a = Number_toString b)
  /\ (getPermLevel a = getPermLevel b -> Number_toString a = Number_toString b)
  /\ (getDimension (Some a) = getDimension (Some b) ->
      Number_toString a = Number_toString b)
  /\ (getInputMode a = getInputMode b -> Number_toString a = Number_toString b).
Proof.
  repeat split; intros E.
  - rewrite !getGameMode_cases in E. same_label E.
  - rewrite !getPermLevel_cases in E. same_label E.
  - rewrite !getDimension_cases in E. same_label E.
  - rewrite !getInputMode_cases in E. same_label E.
Qed.

(** X5.  The label determines the code.  Two numbers that get the same
    text from a lookup function, the fallback text included, are printed
    alike by a template literal; and two integers that a double holds
    exactly are then equal. *)
Theorem lookup_labels_determine_code :
  (forall (host : JsHost) (a b : number),
      (getGameMode a = getGameMode b -> Number_toString a = Number_toString b)
      /\ (getPermLevel a = getPermLevel b ->
          Number_toString a = Number_toString b)
      /\ (getDimension (Some a) = getDimension (Some b) ->
          Number_toString a = Number_toString b)
      /\ (getInputMode a = getInputMode b ->
          Number_toString a = Number_toString b))
  /\ (forall a b : Z,
        safeInteger a -> safeInteger b ->
        (getGameMode a = getGameMode b -> a = b)
        /\ (getPermLevel a = getPermLevel b -> a = b)
        /\ (getDimension (Some a) = getDimension (Some b) -> a = b)
        /\ (getInputMode a = getInputMode b -> a = b)).
Proof.
  split; [exact lookup_labels_printed|].
  intros a b _ _.
  destruct (@lookup_labels_printed IntegerHost a b) as (G & P & D & I).
  repeat split; intros E; apply decimal_inj;
    [apply G|apply P|apply D|apply I]; exact E.
Qed.

Lemma lookup_labels_determine_code_witness :
  getDimension (Some 2%Z) = getDimension (Some 2%Z) /\ 2%Z = 2%Z.
Proof.
  assert (S2 : safeInteger 2) by (unfold safeInteger; lia).
  split; [reflexivity|].
  apply (proj1 (proj2 (proj2 (proj2 lookup_labels_determine_code 2%Z 2%Z S2 S2)))).
  reflexivity.
Defined.

(** * Further properties of the command action *)

Section ActionFacts.

Context {host : JsHost}.

Variable World : Type.
Variable Buffer : Type.
Variable Renderer : Type.
Variable apiClient_get : string -> string -> Async World (option PlayerResponse).
Variable getTypstRenderer : Config -> Async World Renderer.
Variable toPng : Renderer -> string -> number -> Async World Buffer.
Variable buildTypstTheme : Config -> TypstTheme.
Variable clock : World -> string.
Variable logger_warn : string -> World -> World.
Variable logger_error : string -> World -> World.

Local Abbreviation loop :=
  (forModes getTypstRenderer toPng buildTypstTheme clock logger_warn).
Local Abbreviation action :=
  (playerAction apiClient_get getTypstRenderer toPng buildTypstTheme clock
     logger_warn logger_error).



(** X7.  Without a record nothing is formatted or rendered.  A missing or
    empty name is answered with the usage hint and the REST client is not
    called; an [Error] thrown by the REST client is answered with the failure
    message that carries the message of the error, and only the logger
    touches the world after the fetch. *)
Theorem playerAction_without_record :
  forall (cfg : Config) (prefix label : string)
         (session_messageId options_mode name : option string) (w : World),
    (truthy name = false ->
     action cfg prefix label session_messageId options_mode name w
     = (Returned (ReplyText Buffer
                    ("❌ 请指定玩家名称，例如: " ++ prefix ++ ".player Steve")),
        w))
    /\ (forall (err : JsError) w1,
          truthy name = true ->
          apiClient_get "/player" (orElse name EmptyString) w = (Thrown err, w1) ->
          action cfg prefix label session_messageId options_mode name w
          = (Returned (ReplyText Buffer ("❌ 查询玩家失败: " ++ message err)),
             logger_error ("查询玩家失败: " ++ errorToString err) w1)).
Proof.
  intros cfg prefix label session_messageId options_mode name w. split.
  - intros T. unfold playerAction. rewrite T. reflexivity.
  - intros err w1 T G. unfold playerAction. rewrite T. cbn [negb].
    unfold tryCatch, bind at 1. rewrite G. reflexivity.
Qed.

(** X8.  The override [text] selects the text mode alone, whatever the
    configured default modes are: the reply holds the text rendering, and
    neither the renderer nor the rasteriser is called, so the world is the
    one the fetch left. *)
Theorem text_override_skips_the_renderer :
  forall (cfg : Config) (prefix label : string)
         (session_messageId name : option string)
         (data : option PlayerResponse) (w w1 : World),
    truthy name = true ->
    apiClient_get "/player" (orElse name EmptyString) w = (Returned data, w1) ->
    resolveOutputModes (Some "text") cfg = [text]
    /\ action cfg prefix label session_messageId (Some "text") name w
       = (Returned
            (replyOf cfg session_messageId
               [h_text Buffer
                  (formatTextOutput data (orElse name EmptyString) cfg label)]),
          w1).
Proof.
  intros cfg prefix label session_messageId name data w w1 T G.
  split; [reflexivity|].
  unfold playerAction. rewrite T. cbn [negb].
  unfold tryCatch, bind at 1. rewrite G. cbn. unfold replyOf.
  destruct (quoteCommandReplies cfg && truthy session_messageId); reflexivity.
Qed.

End ActionFacts.


Lemma playerAction_without_record_witness :
  sampleAction defaultConfig None None []
  = (Returned (ReplyText string "❌ 请指定玩家名称，例如: mcinfo.player Steve"), [])
  /\ playerAction
       (fun _ _ w =>
          (Thrown {| error_name := "Error"; message := "HTTP 500: Internal" |}, w))
       sample_getTypstRenderer sample_toPng (fun _ => defaultTheme) sample_clock
       sample_log sample_log defaultConfig "mcinfo" "[mc]" (Some "msg-1") None
       (Some "Steve") []
     = (Returned (ReplyText string "❌ 查询玩家失败: HTTP 500: Internal"),
        ["查询玩家失败: Error: HTTP 500: Internal"]).
Proof.
  split.
  - exact (proj1 (playerAction_without_record
                    sample_get sample_getTypstRenderer sample_toPng
                    (fun _ => defaultTheme) sample_clock sample_log sample_log
                    defaultConfig "mcinfo" "[mc]" (Some "msg-1") None None [])
                 eq_refl).
  - exact (proj2 (playerAction_without_record
                    (fun _ _ w =>
                       (Thrown {| error_name := "Error";
                                  message := "HTTP 500: Internal" |}, w))
                    sample_getTypstRenderer sample_toPng
                    (fun _ => defaultTheme) sample_clock sample_log sample_log
                    defaultConfig "mcinfo" "[mc]" (Some "msg-1") None
                    (Some "Steve") [])
                 _ _ eq_refl eq_refl).
Defined.

Lemma text_override_skips_the_renderer_witness :
  sampleAction (configWith [] [typst_image]) (Some "text") (Some "Steve") []
  = (Returned
       (replyOf (configWith [] [typst_image]) (Some "msg-1")
          [h_text string
             (formatTextOutput (Some steve) "Steve" (configWith [] [typst_image])
                "[mc]")]),
     []).
Proof.
  exact (proj2 (text_override_skips_the_renderer
                  sample_get sample_getTypstRenderer sample_toPng
                  (fun _ => defaultTheme) sample_clock sample_log sample_log
                  (configWith [] [typst_image]) "mcinfo" "[mc]" (Some "msg-1")
                  (Some "Steve") [] eq_refl eq_refl)).
Defined.

(** * Further properties of the formatters *)

Section Privacy.

Context {host : JsHost}.

Lemma deviceInfo_withIp (address : string) (d : DeviceInfo) (cfg : Config) :
  isFieldEnabled cfg "device.ip" = false ->
  deviceInfo (withIp address d) cfg = deviceInfo d cfg.
Proof. intros H. unfold deviceInfo. cbv zeta. rewrite H. reflexivity. Qed.

Lemma deviceInfoRows_withDevice_ip (address : string) (p : PlayerResponse)
  (cfg : Config) :
  isFieldEnabled cfg "device.ip" = false ->
  deviceInfoRows (withDevice (option_map (withIp address) (device p)) p) cfg
  = deviceInfoRows p cfg.
Proof.
  intros H. unfold deviceInfoRows. cbv zeta. cbn [device withDevice].
  destruct (isFieldEnabled cfg "device"); [|reflexivity].
  destruct (device p) as [d|]; [|reflexivity].
  cbn [option_map]. rewrite H. reflexivity.
Qed.

Lemma deviceInfoRows_withDevice_off (d : option DeviceInfo) (p : PlayerResponse)
  (cfg : Config) :
  isFieldEnabled cfg "device" = false ->
  deviceInfoRows (withDevice d p) cfg = deviceInfoRows p cfg.
Proof. intros H. unfold deviceInfoRows. cbv zeta. rewrite H. reflexivity. Qed.

(** X9.  The device data stay private when switched off.  With [device]
    disabled neither formatter's output depends on the device object at
    all, whatever its sub-paths say; with [device.ip] disabled neither
    output depends on the address. *)
Theorem disabled_device_data_stay_out :
  forall (p : PlayerResponse) (cfg : Config) (label stamp queryName : string)
         (theme : TypstTheme),
    (isFieldEnabled cfg "device" = false ->
     forall d : option DeviceInfo,
       formatTextOutput (Some (withDevice d p)) queryName cfg label
       = formatTextOutput (Some p) queryName cfg label
       /\ generateTypstCode stamp (Some (withDevice d p)) queryName theme cfg label
          = generateTypstCode stamp (Some p) queryName theme cfg label)
    /\ (isFieldEnabled cfg "device.ip" = false ->
        forall address : string,
          let p' := withDevice (option_map (withIp address) (device p)) p in
          formatTextOutput (Some p') queryName cfg label
          = formatTextOutput (Some p) queryName cfg label
          /\ generateTypstCode stamp (Some p') queryName theme cfg label
             = generateTypstCode stamp (Some p) queryName theme cfg label).
Proof.
  intros p cfg label stamp queryName theme. split.
  - intros H d. split.
    + unfold formatTextOutput. cbn [name withDevice].
      destruct (name p) as [[|c n]|]; try reflexivity.
      unfold textLines. rewrite H. reflexivity.
    + unfold generateTypstCode. cbn [name withDevice].
      destruct (name p) as [[|c n]|]; try reflexivity.
      unfold playerDocument, panels.
      rewrite (deviceInfoRows_withDevice_off d p cfg H). reflexivity.
  - intros H address p'. subst p'. split.
    + unfold formatTextOutput. cbn [name withDevice].
      destruct (name p) as [[|c n]|]; try reflexivity.
      unfold textLines. cbn [device withDevice].
      destruct (device p) as [d|]; [|reflexivity].
      cbn [option_map]. rewrite (deviceInfo_withIp address d cfg H). reflexivity.
    + unfold generateTypstCode. cbn [name withDevice].
      destruct (name p) as [[|c n]|]; try reflexivity.
      unfold playerDocument, panels.
      rewrite (deviceInfoRows_withDevice_ip address p cfg H). reflexivity.
Qed.

(** X10.  The markup document never shows the fields that only the text
    formatter prints: whatever the filter set, it does not depend on the
    feet position, the items, the armor, the tags, the client id, the last
    packet loss, or the flags [isMoving], [isInAir], [isOnGround],
    [isSleeping] and [canFly]. *)
Theorem markup_ignores_text_only_fields :
  forall (p : PlayerResponse) (cfg : Config) (label stamp queryName : string)
         (theme : TypstTheme)
         (feet : option Position) (hand off : option object)
         (worn : option (list object)) (labels : option (list string))
         (moving inAir onGround sleeping fly : bool)
         (id : string) (loss : number),
    generateTypstCode stamp
      (Some (withTextOnly feet hand off worn labels moving inAir onGround
               sleeping fly
               (withDevice (option_map (withClient id loss) (device p)) p)))
      queryName theme cfg label
    = generateTypstCode stamp (Some p) queryName theme cfg label.
Proof.
  intros. unfold generateTypstCode. cbn [name withTextOnly withDevice].
  destruct (name p) as [[|c n]|]; try reflexivity.
  unfold playerDocument, panels, deviceInfoRows.
  cbn [device withTextOnly withDevice].
  destruct (device p) as [d|]; reflexivity.
Qed.

End Privacy.

Lemma disabled_device_data_stay_out_witness :
  formatTextOutput
    (Some (withDevice
             (Some {| ip := "10.0.0.7"; os := "Android"; clientId := "c-1";
                      inputMode := 2%Z; serverAddress := "play.example";
                      avgPing := 40%Z; avgPacketLoss := 0%Z; lastPing := 41%Z;
                      lastPacketLoss := 0%Z |}) steve))
    "Steve" defaultConfig "[mc]"
  = formatTextOutput (Some steve) "Steve" defaultConfig "[mc]".
Proof.
  exact (proj1 (proj1 (disabled_device_data_stay_out steve defaultConfig "[mc]"
                         "2026/11/2 10:00:00" "Steve" defaultTheme)
                  eq_refl _)).
Defined.

Section LineConditions.

Context {host : JsHost}.

(** X11.  The environment lines are gated by a disjunction: the biome
    line is there exactly when the biome is present and [biome] or
    [biome.name] is enabled, and likewise the block line with
    [standingOn] or [standingOn.name], in both formatters.  Disabling the
    sub-path alone therefore does not hide the name. *)
Theorem environment_lines_need_one_path :
  forall (p : PlayerResponse) (cfg : Config),
    let biomeOn :=
      (isFieldEnabled cfg "biome" || isFieldEnabled cfg "biome.name")
      && isSome (biome p) in
    let blockOn :=
      (isFieldEnabled cfg "standingOn" || isFieldEnabled cfg "standingOn.name")
      && isSome (standingOn p) in
    existsb (String.prefix "  • 生物群系: ") (envInfo p cfg) = biomeOn
    /\ existsb (String.prefix "[生物群系], [") (envInfoRows p cfg) = biomeOn
    /\ existsb (String.prefix "  • 脚下方块: ") (envInfo p cfg) = blockOn
    /\ existsb (String.prefix "[脚下方块], [") (envInfoRows p cfg) = blockOn.
Proof.
  intros p cfg biomeOn blockOn. subst biomeOn blockOn.
  unfold envInfo, envInfoRows. cbv zeta.
  destruct (isFieldEnabled cfg "biome" || isFieldEnabled cfg "biome.name"),
    (isFieldEnabled cfg "standingOn" || isFieldEnabled cfg "standingOn.name"),
    (biome p) as [b|], (standingOn p) as [k|];
    unfold push; cbn [app existsb andb isSome];
    rewrite ?prefix_append; repeat split; reflexivity.
Qed.

Lemma posInfo_withPos (q : Position) (x' y' z' : number) (p : PlayerResponse)
  (cfg : Config) :
  pos p = Some q ->
  isFieldEnabled cfg "pos" = false ->
  posInfo (withPos (Some (relocate x' y' z' q)) p) cfg = posInfo p cfg.
Proof.
  intros E H. unfold posInfo. cbv zeta. cbn [pos withPos]. rewrite E, H.
  reflexivity.
Qed.

Lemma posInfoRows_withPos (q : Position) (x' y' z' : number) (p : PlayerResponse)
  (cfg : Config) :
  pos p = Some q ->
  isFieldEnabled cfg "pos" = false ->
  posInfoRows (withPos (Some (relocate x' y' z' q)) p) cfg = posInfoRows p cfg.
Proof.
  intros E H. unfold posInfoRows. cbv zeta. cbn [pos withPos]. rewrite E, H.
  reflexivity.
Qed.

(** X12.  Hidden coordinates stay hidden.  The dimension line is gated by
    [pos.dimId] and the presence of the position alone, and with [pos]
    disabled neither formatter's output depends on the three precise
    coordinates, even though the dimension of the same position object is
    still shown. *)
Theorem disabled_coordinates_stay_out :
  forall (p : PlayerResponse) (cfg : Config) (label stamp queryName : string)
         (theme : TypstTheme),
    existsb (String.prefix "  • 维度: ") (posInfo p cfg)
    = isFieldEnabled cfg "pos.dimId" && isSome (pos p)
    /\ (isFieldEnabled cfg "pos" = false ->
        forall (q : Position) (x' y' z' : number),
          pos p = Some q ->
          let p' := withPos (Some (relocate x' y' z' q)) p in
          formatTextOutput (Some p') queryName cfg label
          = formatTextOutput (Some p) queryName cfg label
          /\ generateTypstCode stamp (Some p') queryName theme cfg label
             = generateTypstCode stamp (Some p) queryName theme cfg label).
Proof.
  intros p cfg label stamp queryName theme. split.
  - unfold posInfo. cbv zeta.
    destruct (isFieldEnabled cfg "pos.dimId"), (isFieldEnabled cfg "pos"),
      (isFieldEnabled cfg "blockPos"), (isFieldEnabled cfg "feetPos"),
      (isFieldEnabled cfg "lastDeathPos"), (isFieldEnabled cfg "respawnPos"),
      (pos p), (blockPos p), (feetPos p), (lastDeathPos p), (respawnPos p);
      unfold push; cbn [app existsb andb isSome];
      rewrite ?prefix_append; reflexivity.
  - intros H q x' y' z' E p'. subst p'. split.
    + unfold formatTextOutput. cbn [name withPos].
      destruct (name p) as [[|c n]|]; try reflexivity.
      unfold textLines. rewrite (posInfo_withPos x' y' z' p cfg E H). reflexivity.
    + unfold generateTypstCode. cbn [name withPos].
      destruct (name p) as [[|c n]|]; try reflexivity.
      unfold playerDocument, panels.
      rewrite (posInfoRows_withPos x' y' z' p cfg E H). reflexivity.
Qed.

End LineConditions.

Lemma disabled_coordinates_stay_out_witness :
  formatTextOutput
    (Some (withPos (Some (relocate 100%Z 64%Z (-20)%Z
                            {| x := 1%Z; y := 2%Z; z := 3%Z; dimId := Some 1%Z |}))
             (withPos (Some {| x := 1%Z; y := 2%Z; z := 3%Z; dimId := Some 1%Z |})
                steve)))
    "Steve" defaultConfig "[mc]"
  = formatTextOutput
      (Some (withPos (Some {| x := 1%Z; y := 2%Z; z := 3%Z; dimId := Some 1%Z |})
               steve))
      "Steve" defaultConfig "[mc]".
Proof.
  exact (proj1 (proj2 (disabled_coordinates_stay_out
                         (withPos (Some {| x := 1%Z; y := 2%Z; z := 3%Z;
                                           dimId := Some 1%Z |}) steve)
                         defaultConfig "[mc]" "2026/11/2 10:00:00" "Steve"
                         defaultTheme)
                  eq_refl _ 100%Z 64%Z (-20)%Z eq_refl)).
Defined.

Section Agreement.

Context {host : JsHost}.

Lemma length_push (arr : list string) (item : string) :
  length (push arr item) = length arr + 1.
Proof. unfold push. rewrite length_app. reflexivity. Qed.

Lemma length_pushIf (c : bool) (arr : list string) (item : string) :
  length (pushIf c arr item) = length arr + (if c then 1 else 0).
Proof. unfold pushIf. destruct c; [apply length_push|lia]. Qed.

Lemma length_pushSome (A : Type) (c : bool) (o : option A) (arr : list string)
  (f : A -> string) :
  length match c with
         | true => match o with
                   | Some a => push arr (f a)
                   | None => arr
                   end
         | false => arr
         end
  = length arr + (if c && isSome o then 1 else 0).
Proof.
  destruct c; cbn; [|lia]. destruct o; cbn; [apply length_push|lia].
Qed.

(** X13.  The two formats agree on what a section holds.  The experience
    and the environment sections have as many rows in the markup document
    as lines in the text report; the basic, position and device panels
    never have more rows than their text sections have lines, so a panel
    of these sections is shown only if the text section is. *)
Theorem formats_agree_on_sections :
  forall (p : PlayerResponse) (cfg : Config),
    length (expItems p cfg) = length (expInfo p cfg)
    /\ length (envInfoRows p cfg) = length (envInfo p cfg)
    /\ length (basicInfoRows p cfg) <= length (basicInfo p cfg)
    /\ length (posInfoRows p cfg) <= length (posInfo p cfg)
    /\ length (deviceInfoRows p cfg) <= length (sectionLines SecDevice p cfg).
Proof.
  intros p cfg. repeat split.
  - unfold expItems, expInfo. cbv zeta. rewrite !length_pushIf. reflexivity.
  - unfold envInfoRows, envInfo. cbv zeta.
    destruct (isFieldEnabled cfg "biome" || isFieldEnabled cfg "biome.name"),
      (isFieldEnabled cfg "standingOn" || isFieldEnabled cfg "standingOn.name"),
      (biome p), (standingOn p); reflexivity.
  - unfold basicInfoRows, basicInfo. cbv zeta. rewrite !length_pushIf.
    cbn [length]. lia.
  - unfold posInfoRows, posInfo. cbv zeta. rewrite !length_pushSome.
    cbn [length]. lia.
  - unfold deviceInfoRows. cbn [sectionLines]. cbv zeta.
    destruct (isFieldEnabled cfg "device"); [|apply Nat.le_refl].
    destruct (device p) as [d|]; [|apply Nat.le_refl].
    unfold deviceInfo. cbv zeta. rewrite !length_pushIf. cbn [length]. lia.
Qed.

End Agreement.

Section Trimmed.

Context {host : JsHost}.

(** X14.  The text report of a named record is the joined lines with
    their trailing white space removed.  It is [trimEnd] of the lines
    joined by newlines: the joined lines are the report followed by white
    space only, the report itself ends in no white space, and it begins
    with the label and the title, so it is never empty. *)
Theorem text_report_is_trimmed :
  forall (p : PlayerResponse) (n queryName : string) (cfg : Config)
         (label : string),
    name p = Some n -> n <> EmptyString ->
    formatTextOutput (Some p) queryName cfg label
    = trimEnd (join (textLines p n cfg label) nl)
    /\ (exists rest,
          join (textLines p n cfg label) nl
          = formatTextOutput (Some p) queryName cfg label ++ rest
          /\ trimEnd rest = EmptyString)
    /\ trimEnd (formatTextOutput (Some p) queryName cfg label)
       = formatTextOutput (Some p) queryName cfg label
    /\ (exists tail,
          formatTextOutput (Some p) queryName cfg label
          = label ++ " 👤 玩家详情:" ++ tail).
Proof.
  intros p n queryName cfg label Hn N.
  split; [exact (formatTextOutput_named p queryName cfg label Hn N)|].
  split; [|split].
  - rewrite (formatTextOutput_named p queryName cfg label Hn N).
    apply trimEnd_removed.
  - rewrite (formatTextOutput_named p queryName cfg label Hn N).
    apply trimEnd_idempotent.
  - exact (formatTextOutput_named_prefix p queryName cfg label Hn N).
Qed.

End Trimmed.

Lemma text_report_is_trimmed_witness :
  (exists rest,
      join (textLines steve "Steve" defaultConfig "[mc]") nl
      = formatTextOutput (Some steve) "Steve" defaultConfig "[mc]" ++ rest
      /\ trimEnd rest = EmptyString)
  /\ trimEnd (formatTextOutput (Some steve) "Steve" defaultConfig "[mc]")
     = formatTextOutput (Some steve) "Steve" defaultConfig "[mc]".
Proof.
  assert (N : "Steve" <> EmptyString) by discriminate.
  destruct (text_report_is_trimmed steve "Steve" defaultConfig "[mc]" eq_refl N)
    as (_ & R & T & _).
  split; [exact R|exact T].
Defined.

(** * Colours of the theme *)

Lemma digits1to3_group (l rest : list ascii) (s : string) :
  digits1to3 l = Some (s, rest) -> digitGroup s.
Proof.
  unfold digits1to3, digitGroup.
  destruct l as [|d1 [|d2 [|d3 r3]]]; try discriminate;
    destruct (isDigit d1) eqn:E1; try discriminate;
    try (destruct (isDigit d2) eqn:E2);
    try (destruct (isDigit d3) eqn:E3);
    intros H; injection H as <- _; cbn; rewrite ?E1, ?E2, ?E3; cbn; lia.
Qed.

Lemma matchRgb_groups (v red green blue : string) :
  matchRgb v = Some (red, green, blue) ->
  digitGroup red /\ digitGroup green /\ digitGroup blue.
Proof.
  unfold matchRgb, andThen.
  destruct (expect "r" "R" (list_ascii_of_string v)) as [l1|]; [|discriminate].
  destruct (expect "g" "G" l1) as [l2|]; [|discriminate].
  destruct (expect "b" "B" l2) as [l3|]; [|discriminate].
  destruct (expect "(" "(" (skipWhite l3)) as [l4|]; [|discriminate].
  destruct (digits1to3 (skipWhite l4)) as [[r l5]|] eqn:R; [|discriminate].
  destruct (expect "," "," (skipWhite l5)) as [l6|]; [|discriminate].
  destruct (digits1to3 (skipWhite l6)) as [[g l7]|] eqn:G; [|discriminate].
  destruct (expect "," "," (skipWhite l7)) as [l8|]; [|discriminate].
  destruct (digits1to3 (skipWhite l8)) as [[b l9]|] eqn:B; [|discriminate].
  destruct (expect ")" ")" (skipWhite l9)) as [[|c l10]|]; try discriminate.
  intros H. injection H as <- <- <-.
  split; [|split]; eapply digits1to3_group; eassumption.
Qed.

Lemma toTypstColor_IsColour (value : option string) (fallback : string) :
  IsColour (toTypstColor value fallback).
Proof.
  unfold toTypstColor. cbv zeta.
  destruct (trim (orElse value EmptyString)) as [|c v] eqn:T;
    [left; now exists fallback|].
  destruct (startsWithHash (String c v)); [left; now eexists|].
  destruct (matchRgb (String c v)) as [[[red green] blue]|] eqn:M;
    [|left; now exists fallback].
  right. exists red, green, blue.
  destruct (matchRgb_groups _ M) as (R & G & B).
  split; [exact R|split; [exact G|split; [exact B|reflexivity]]].
Qed.

(** X15.  [toTypstColor] classifies its input after trimming.  A missing
    or blank value gives the quoted fallback; a value that starts with [#]
    is quoted as it is, whatever follows the [#]; any other value gives
    either three digit groups of one to three digits or the quoted
    fallback, so that a colour name or a malformed triple never reaches
    the document. *)
Theorem toTypstColor_forms :
  forall (value : option string) (fallback : string),
    let v := trim (orElse value EmptyString) in
    (v = EmptyString -> toTypstColor value fallback = rgbQuoted fallback)
    /\ (startsWithHash v = true -> toTypstColor value fallback = rgbQuoted v)
    /\ (startsWithHash v = false ->
        toTypstColor value fallback = rgbQuoted fallback
        \/ exists red green blue,
             digitGroup red /\ digitGroup green /\ digitGroup blue
             /\ toTypstColor value fallback
                = "rgb(" ++ red ++ ", " ++ green ++ ", " ++ blue ++ ")").
Proof.
  intros value fallback v. subst v. unfold toTypstColor. cbv zeta.
  destruct (trim (orElse value EmptyString)) as [|c v] eqn:T.
  - repeat split; try reflexivity; try discriminate. intros _. now left.
  - split; [discriminate|]. split; intros H; rewrite H; [reflexivity|].
    destruct (matchRgb (String c v)) as [[[red green] blue]|] eqn:M;
      [|now left].
    right. exists red, green, blue.
    destruct (matchRgb_groups _ M) as (R & G & B).
    split; [exact R|split; [exact G|split; [exact B|reflexivity]]].
Qed.

Lemma toTypstColor_forms_witness :
  toTypstColor (Some "  #ff0000 ") "#000000" = rgbQuoted "#ff0000"
  /\ toTypstColor (Some "   ") "#000000" = rgbQuoted "#000000".
Proof.
  split.
  - exact (proj1 (proj2 (toTypstColor_forms (Some "  #ff0000 ") "#000000"))
             eq_refl).
  - exact (proj1 (toTypstColor_forms (Some "   ") "#000000") eq_refl).
Defined.

(** X16.  Every colour of the theme that [buildTypstTheme] makes is a
    colour expression, whatever the configuration holds, and the font
    family is never empty. *)
Theorem buildTypstTheme_colours :
  forall cfg : ThemeConfig,
    let theme := buildTypstTheme cfg in
    IsColour (pageBg theme) /\ IsColour (textColor theme)
    /\ IsColour (headerFill theme) /\ IsColour (headerStroke theme)
    /\ IsColour (headerText theme) /\ IsColour (panelFill theme)
    /\ IsColour (panelStroke theme) /\ IsColour (sectionTitle theme)
    /\ IsColour (statsText theme)
    /\ fontFamily theme <> EmptyString.
Proof.
  intros cfg theme. subst theme. cbn [buildTypstTheme pageBg textColor headerFill
    headerStroke headerText panelFill panelStroke sectionTitle statsText
    fontFamily].
  repeat split; try apply toTypstColor_IsColour.
  destruct (typstFontFamily cfg) as [[|c s]|]; discriminate.
Qed.

(** ** A spaced triple is accepted and normalised *)

Lemma dropWhite_solid (c : ascii) (m : list ascii) :
  solidByte c -> dropWhite (c :: m) = c :: m.
Proof.
  intros Hc. cbn [dropWhite]. rewrite (proj1 Hc).
  destruct m as [|b r2]; [reflexivity|].
  rewrite (@isWhite2_solid_r c b Hc). destruct r2 as [|a r3]; [reflexivity|].
  now rewrite (@isWhite3_solid_3 c a b Hc).
Qed.

Lemma skipWhite_solid (c : ascii) (m : list ascii) :
  solidByte c -> skipWhite (c :: m) = c :: m.
Proof.
  intros Hc. cbn [skipWhite]. rewrite (proj1 Hc).
  destruct m as [|b r2]; [reflexivity|].
  rewrite (@isWhite2_solid_l c b Hc). destruct r2 as [|a r3]; [reflexivity|].
  now rewrite (@isWhite3_solid_1 c b a Hc).
Qed.

Lemma skipWhite_spaces (n : nat) (c : ascii) (s : string) :
  solidByte c ->
  skipWhite (list_ascii_of_string (spaces n ++ String c s))
  = c :: list_ascii_of_string s.
Proof.
  intros Hc. induction n as [|n IH]; cbn [spaces append list_ascii_of_string].
  - now apply skipWhite_solid.
  - cbn [skipWhite isWhite1 N_of_ascii]. exact IH.
Qed.

Lemma dropWhite_spaces (n : nat) (l : list ascii) :
  dropWhite (rev (list_ascii_of_string (spaces n)) ++ l)%list = dropWhite l.
Proof.
  revert l. induction n as [|n IH]; intros l; [reflexivity|].
  cbn [spaces list_ascii_of_string rev]. rewrite <- app_assoc. cbn [app].
  rewrite IH. reflexivity.
Qed.

Lemma trim_spaces (m1 m2 : nat) (c1 c2 : ascii) (body : string) :
  solidByte c1 -> solidByte c2 ->
  trim (spaces m1 ++ String c1 (body ++ String c2 (spaces m2)))
  = String c1 (body ++ String c2 EmptyString).
Proof.
  intros H1 H2. unfold trim, trimEnd.
  replace (spaces m1 ++ String c1 (body ++ String c2 (spaces m2)))
    with ((spaces m1 ++ String c1 body) ++ String c2 (spaces m2))
    by (rewrite append_assoc; reflexivity).
  rewrite list_ascii_of_string_append. cbn [list_ascii_of_string].
  rewrite rev_app_distr. cbn [rev]. rewrite <- app_assoc. cbn [app].
  rewrite dropWhite_spaces, (dropWhite_solid _ H2).
  rewrite list_ascii_of_string_of_list_ascii.
  cbn [rev]. rewrite rev_involutive.
  replace (list_ascii_of_string (spaces m1 ++ String c1 body) ++ [c2])%list
    with (list_ascii_of_string (spaces m1 ++ String c1 (body ++ String c2 EmptyString))).
  - rewrite (skipWhite_spaces m1 _ H1).
    change (c1 :: list_ascii_of_string (body ++ String c2 EmptyString))
      with (list_ascii_of_string (String c1 (body ++ String c2 EmptyString))).
    apply string_of_list_ascii_of_string.
  - replace (spaces m1 ++ String c1 (body ++ String c2 EmptyString))
      with ((spaces m1 ++ String c1 body) ++ String c2 EmptyString)
      by (rewrite append_assoc; reflexivity).
    now rewrite list_ascii_of_string_append.
Qed.

Lemma digit_solid (c : ascii) : isDigit c = true -> solidByte c.
Proof.
  destruct c as [[] [] [] [] [] [] [] []]; intros H; try discriminate H;
    (split; [reflexivity|left; cbn; lia]).
Qed.

Lemma digitGroup_head (r : string) :
  digitGroup r -> exists d r', r = String d r' /\ isDigit d = true.
Proof.
  intros [L C]. destruct r as [|d r']; [cbn in L; lia|].
  exists d, r'. split; [reflexivity|].
  cbn in C. pose proof (countIf_le_length isDigit r').
  destruct (isDigit d); [reflexivity|lia].
Qed.

Lemma digits1to3_app (r rest : string) :
  digitGroup r -> headNotDigit rest ->
  digits1to3 (list_ascii_of_string (r ++ rest))
  = Some (r, list_ascii_of_string rest).
Proof.
  intros [L C] H.
  destruct r as [|d1 [|d2 [|d3 [|d4 r]]]]; cbn in L; try lia; cbn in C;
    repeat match type of C with
           | context [isDigit ?d] =>
               let E := fresh "E" in destruct (isDigit d) eqn:E; try lia
           end;
    cbn [append list_ascii_of_string digits1to3]; rewrite ?E, ?E0, ?E1;
    try reflexivity;
    destruct rest as [|c rest]; try reflexivity;
    cbn [list_ascii_of_string]; cbn in H; rewrite H; reflexivity.
Qed.

Lemma expect_skip (n : nat) (c : ascii) (s : string) :
  solidByte c ->
  expect c c (skipWhite (list_ascii_of_string (spaces n ++ String c s)))
  = Some (list_ascii_of_string s).
Proof.
  intros Hc. rewrite (skipWhite_spaces n s Hc). cbn [expect].
  now rewrite Ascii.eqb_refl.
Qed.

Lemma digits_skip (n : nat) (r rest : string) :
  digitGroup r -> headNotDigit rest ->
  digits1to3 (skipWhite (list_ascii_of_string (spaces n ++ r ++ rest)))
  = Some (r, list_ascii_of_string rest).
Proof.
  intros G H. destruct (digitGroup_head G) as (d & r' & -> & D).
  cbn [append]. rewrite (skipWhite_spaces n (r' ++ rest) (digit_solid d D)).
  exact (digits1to3_app rest G H).
Qed.

Lemma headNotDigit_spaces (n : nat) (c : ascii) (s : string) :
  isDigit c = false -> headNotDigit (spaces n ++ String c s).
Proof. intros H. destruct n; [exact H|reflexivity]. Qed.

Lemma solid_paren_open : solidByte "(".
Proof. split; [reflexivity|]. left. reflexivity. Qed.

Lemma solid_paren_close : solidByte ")".
Proof. split; [reflexivity|]. left. reflexivity. Qed.

Lemma solid_comma : solidByte ",".
Proof. split; [reflexivity|]. left. reflexivity. Qed.

Lemma matchRgb_spaced (u1 u2 u3 : bool) (n1 n2 n3 n4 n5 n6 n7 : nat)
  (red green blue : string) :
  digitGroup red -> digitGroup green -> digitGroup blue ->
  matchRgb (rgbWord u1 u2 u3 ++ spaces n1 ++ "(" ++ spaces n2 ++ red
              ++ spaces n3 ++ "," ++ spaces n4 ++ green
              ++ spaces n5 ++ "," ++ spaces n6 ++ blue ++ spaces n7 ++ ")")
  = Some (red, green, blue).
Proof.
  intros R G B. unfold matchRgb, rgbWord.
  cbn [append list_ascii_of_string].
  assert (E1 : expect "r" "R" ((if u1 then "R" else "r")%char
                 :: (if u2 then "G" else "g")%char
                 :: (if u3 then "B" else "b")%char
                 :: list_ascii_of_string
                      (spaces n1 ++ String "(" (spaces n2 ++ red ++ spaces n3
                         ++ String "," (spaces n4 ++ green ++ spaces n5
                         ++ String "," (spaces n6 ++ blue ++ spaces n7
                         ++ String ")" EmptyString)))))
               = Some ((if u2 then "G" else "g")%char
                 :: (if u3 then "B" else "b")%char
                 :: list_ascii_of_string
                      (spaces n1 ++ String "(" (spaces n2 ++ red ++ spaces n3
                         ++ String "," (spaces n4 ++ green ++ spaces n5
                         ++ String "," (spaces n6 ++ blue ++ spaces n7
                         ++ String ")" EmptyString)))))).
  { destruct u1; reflexivity. }
  rewrite E1. cbn [andThen].
  replace (expect "g" "G" ((if u2 then "G" else "g")%char
             :: (if u3 then "B" else "b")%char
             :: list_ascii_of_string
                  (spaces n1 ++ String "(" (spaces n2 ++ red ++ spaces n3
                     ++ String "," (spaces n4 ++ green ++ spaces n5
                     ++ String "," (spaces n6 ++ blue ++ spaces n7
                     ++ String ")" EmptyString))))))
    with (Some ((if u3 then "B" else "b")%char
             :: list_ascii_of_string
                  (spaces n1 ++ String "(" (spaces n2 ++ red ++ spaces n3
                     ++ String "," (spaces n4 ++ green ++ spaces n5
                     ++ String "," (spaces n6 ++ blue ++ spaces n7
                     ++ String ")" EmptyString))))))
    by (destruct u2; reflexivity).
  cbn [andThen].
  replace (expect "b" "B" ((if u3 then "B" else "b")%char
             :: list_ascii_of_string
                  (spaces n1 ++ String "(" (spaces n2 ++ red ++ spaces n3
                     ++ String "," (spaces n4 ++ green ++ spaces n5
                     ++ String "," (spaces n6 ++ blue ++ spaces n7
                     ++ String ")" EmptyString))))))
    with (Some (list_ascii_of_string
                  (spaces n1 ++ String "(" (spaces n2 ++ red ++ spaces n3
                     ++ String "," (spaces n4 ++ green ++ spaces n5
                     ++ String "," (spaces n6 ++ blue ++ spaces n7
                     ++ String ")" EmptyString))))))
    by (destruct u3; reflexivity).
  cbn [andThen].
  rewrite (expect_skip n1 _ solid_paren_open). cbn [andThen].
  rewrite (digits_skip n2 _ R)
    by (apply headNotDigit_spaces; reflexivity).
  cbn [andThen].
  rewrite (expect_skip n3 _ solid_comma). cbn [andThen].
  rewrite (digits_skip n4 _ G)
    by (apply headNotDigit_spaces; reflexivity).
  cbn [andThen].
  rewrite (expect_skip n5 _ solid_comma). cbn [andThen].
  rewrite (digits_skip n6 _ B)
    by (apply headNotDigit_spaces; reflexivity).
  cbn [andThen].
  rewrite (expect_skip n7 _ solid_paren_close). reflexivity.
Qed.

Lemma orElse_empty (s : string) : orElse (Some s) EmptyString = s.
Proof. destruct s; reflexivity. Qed.

(** X17 (toTypstColor): a triple of one to three digits each, written with
    the word [rgb] in any capitals and with any number of spaces around the
    value and between its tokens, is accepted whatever the fallback, and
    comes out in the one normal form [rgb(r, g, b)]: the digits are copied
    as written, with no check that a component is at most 255. *)
Theorem toTypstColor_normalises_triples
  (u1 u2 u3 : bool) (m1 m2 n1 n2 n3 n4 n5 n6 n7 : nat)
  (red green blue fallback : string) :
  digitGroup red -> digitGroup green -> digitGroup blue ->
  toTypstColor
    (Some (spaces m1 ++ rgbWord u1 u2 u3 ++ spaces n1 ++ "(" ++ spaces n2
             ++ red ++ spaces n3 ++ "," ++ spaces n4 ++ green
             ++ spaces n5 ++ "," ++ spaces n6 ++ blue ++ spaces n7 ++ ")"
             ++ spaces m2))
    fallback
  = "rgb(" ++ red ++ ", " ++ green ++ ", " ++ blue ++ ")".
Proof.
  intros R G B. unfold toTypstColor. rewrite orElse_empty.
  pose proof (matchRgb_spaced u1 u2 u3 n1 n2 n3 n4 n5 n6 n7 R G B) as M.
  set (core := (rgbWord u1 u2 u3 ++ spaces n1 ++ "(" ++ spaces n2 ++ red
                  ++ spaces n3 ++ "," ++ spaces n4 ++ green
                  ++ spaces n5 ++ "," ++ spaces n6 ++ blue ++ spaces n7
                  ++ ")")%string) in *.
  assert (T : trim (spaces m1 ++ rgbWord u1 u2 u3 ++ spaces n1 ++ "("
                      ++ spaces n2 ++ red ++ spaces n3 ++ "," ++ spaces n4
                      ++ green ++ spaces n5 ++ "," ++ spaces n6 ++ blue
                      ++ spaces n7 ++ ")" ++ spaces m2) = core).
  { pose proof (@trim_spaces m1 m2 (if u1 then "R" else "r")%char ")"%char
        (String (if u2 then "G" else "g")
           (String (if u3 then "B" else "b") EmptyString)
         ++ spaces n1 ++ "(" ++ spaces n2 ++ red ++ spaces n3 ++ ","
         ++ spaces n4 ++ green ++ spaces n5 ++ "," ++ spaces n6 ++ blue
         ++ spaces n7)) as T.
    assert (S1 : solidByte (if u1 then "R" else "r")%char)
      by (destruct u1; (split; [reflexivity|left; reflexivity])).
    specialize (T S1 solid_paren_close).
    subst core. unfold rgbWord.
    cbn [append] in T |- *.
    repeat (progress (rewrite ?append_assoc in T; cbn [append] in T)).
    exact T. }
  rewrite T.
  assert (H : exists c rest, core = String c rest /\ startsWithHash core = false).
  { subst core. unfold rgbWord. cbn [append]. eexists _, _.
    split; [reflexivity|]. destruct u1; reflexivity. }
  destruct H as (c & rest & E & H).
  rewrite H, M. rewrite E. reflexivity.
Qed.

Lemma toTypstColor_normalises_triples_witness :
  toTypstColor (Some " RGB ( 12 ,3 , 999 )  ") "#000000" = "rgb(12, 3, 999)".
Proof.
  apply (@toTypstColor_normalises_triples true true true 1 2 1 1 1 0 1 1 1
           "12" "3" "999" "#000000");
    (split; [cbn; lia|reflexivity]).
Defined.

(** * The REST client *)

Lemma encodeURIComponent_append (a b : string) :
  encodeURIComponent (a ++ b) = encodeURIComponent a ++ encodeURIComponent b.
Proof.
  induction a as [|c a IH]; [reflexivity|].
  cbn [append encodeURIComponent]. rewrite IH.
  destruct (isUnreserved c); cbn [percentByte append]; reflexivity.
Qed.

Lemma percentDecode_encode (s : string) :
  percentDecode (encodeURIComponent s) = s.
Proof.
  induction s as [|c s IH]; [reflexivity|].
  cbn [encodeURIComponent].
  destruct (encodeURIComponent s) as [|d r] eqn:E.
  - destruct s as [|c' s'].
    + destruct c as [[] [] [] [] [] [] [] []]; reflexivity.
    + exfalso. cbn [encodeURIComponent] in E.
      destruct (isUnreserved c'); discriminate E.
  - rewrite <- IH.
    destruct c as [[] [] [] [] [] [] [] []]; cbn; try reflexivity;
      destruct r as [|d2 r2]; reflexivity.
Qed.

Lemma hexDigits_unreserved (c : ascii) :
  isUnreserved (hexDigit (N_of_ascii c / 16)) = true
  /\ isUnreserved (hexDigit (N_of_ascii c mod 16)) = true.
Proof. destruct c as [[] [] [] [] [] [] [] []]; split; reflexivity. Qed.

Lemma eqb_unreserved (c a : ascii) :
  isUnreserved c = false -> isUnreserved a = true -> Ascii.eqb c a = false.
Proof.
  intros Hc Ha. destruct (Ascii.eqb c a) eqn:E; [|reflexivity].
  apply Ascii.eqb_eq in E. subst a. congruence.
Qed.

Lemma encodeURIComponent_without (c : ascii) (s : string) :
  isUnreserved c = false -> c <> "%"%char ->
  countIf (Ascii.eqb c) (encodeURIComponent s) = 0.
Proof.
  intros U P. induction s as [|a s IH]; [reflexivity|].
  cbn [encodeURIComponent]. rewrite countIf_append, IH.
  destruct (isUnreserved a) eqn:A.
  - cbn [countIf]. now rewrite (eqb_unreserved c a U A).
  - unfold percentByte. cbn [countIf].
    destruct (hexDigits_unreserved a) as [H1 H2].
    rewrite (eqb_unreserved c _ U H1), (eqb_unreserved c _ U H2).
    destruct (Ascii.eqb c "%") eqn:E; [|reflexivity].
    apply Ascii.eqb_eq in E. contradiction.
Qed.

Lemma encodeURIComponent_length (s : string) :
  String.length s <= String.length (encodeURIComponent s) <= 3 * String.length s.
Proof.
  induction s as [|a s IH]; [cbn; lia|].
  cbn [encodeURIComponent]. rewrite length_append.
  destruct (isUnreserved a); cbn [String.length percentByte]; lia.
Qed.

(** X18 (encodeURIComponent): the encoded text holds unreserved characters
    and percent signs only, so none of the separators of a URL ([&], [=],
    [?], [#], [/], the space) survives the encoding; it is at least as long
    as the input and at most three times as long. *)
Theorem encodeURIComponent_alphabet :
  forall (s : string) (c : ascii),
    isUnreserved c = false -> c <> "%"%char ->
    countIf (Ascii.eqb c) (encodeURIComponent s) = 0
    /\ String.length s <= String.length (encodeURIComponent s)
       <= 3 * String.length s.
Proof.
  intros s c U P. split;
    [now apply encodeURIComponent_without|apply encodeURIComponent_length].
Qed.

Lemma encodeURIComponent_alphabet_witness :
  countIf (Ascii.eqb "&") (encodeURIComponent "a&b=c d") = 0
  /\ encodeURIComponent "a&b=c d" = "a%26b%3Dc%20d".
Proof.
  split; [|reflexivity].
  apply (@encodeURIComponent_alphabet "a&b=c d" "&"); [reflexivity|discriminate].
Defined.

(** X19 (encodeURIComponent): the encoding loses nothing.  Decoding the
    percent groups gives the input back, so two different texts never get
    the same encoded form, and the encoding distributes over
    concatenation. *)
Theorem encodeURIComponent_injective :
  forall a b : string,
    percentDecode (encodeURIComponent a) = a
    /\ (encodeURIComponent a = encodeURIComponent b -> a = b)
    /\ encodeURIComponent (a ++ b)
       = encodeURIComponent a ++ encodeURIComponent b.
Proof.
  intros a b. split; [apply percentDecode_encode|].
  split; [|apply encodeURIComponent_append].
  intros E. apply (f_equal percentDecode) in E.
  now rewrite !percentDecode_encode in E.
Qed.

Lemma encodeURIComponent_injective_witness :
  percentDecode (encodeURIComponent "史蒂夫 %41") = "史蒂夫 %41"
  /\ encodeURIComponent "%41" = "%2541"
  /\ "a&b" = "a&b".
Proof.
  split; [exact (proj1 (encodeURIComponent_injective "史蒂夫 %41" EmptyString))|].
  split; [reflexivity|].
  exact (proj1 (proj2 (encodeURIComponent_injective "a&b" "a&b")) eq_refl).
Defined.

(** ** The query string *)

Lemma split_first (c : ascii) (a a' r r' : string) :
  countIf (Ascii.eqb c) a = 0 -> countIf (Ascii.eqb c) a' = 0 ->
  a ++ String c r = a' ++ String c r' -> a = a' /\ r = r'.
Proof.
  revert a'. induction a as [|x a IH]; intros [|y a'] Ha Ha' E; cbn in *.
  - injection E as ->. now split.
  - injection E as -> _. rewrite Ascii.eqb_refl in Ha'. discriminate.
  - injection E as -> _. rewrite Ascii.eqb_refl in Ha. discriminate.
  - injection E as -> E.
    destruct (Ascii.eqb c y); [discriminate|].
    destruct (IH a' Ha Ha' E) as [-> ->]. now split.
Qed.

Lemma no_first (c : ascii) (a a' r' : string) :
  countIf (Ascii.eqb c) a = 0 -> a <> a' ++ String c r'.
Proof.
  intros Ha E. subst a. rewrite countIf_append in Ha. cbn in Ha.
  rewrite Ascii.eqb_refl in Ha. lia.
Qed.

Section QueryString.

Local Abbreviation entry :=
  (fun '(k, v) => encodeURIComponent k ++ "=" ++ encodeURIComponent v).
Local Abbreviation queryString :=
  (fun entries : list (string * string) => join (map entry entries) "&").

Lemma queryString_cons (k v : string) (entries : list (string * string)) :
  queryString ((k, v) :: entries)
  = encodeURIComponent k
    ++ String "="
         (encodeURIComponent v
          ++ match entries with
             | [] => EmptyString
             | _ :: _ => String "&" (queryString entries)
             end).
Proof.
  destruct entries as [|[k' v'] entries].
  - cbn. now rewrite append_nil_r.
  - cbn [map]. rewrite join_cons. cbn [append]. now rewrite !append_assoc.
Qed.

Lemma equals_without (s : string) :
  countIf (Ascii.eqb "=") (encodeURIComponent s) = 0.
Proof. apply encodeURIComponent_without; [reflexivity|discriminate]. Qed.

Lemma ampersand_without (s : string) :
  countIf (Ascii.eqb "&") (encodeURIComponent s) = 0.
Proof. apply encodeURIComponent_without; [reflexivity|discriminate]. Qed.

Lemma encodeURIComponent_inj (a b : string) :
  encodeURIComponent a = encodeURIComponent b -> a = b.
Proof.
  intros E. apply (f_equal percentDecode) in E.
  now rewrite !percentDecode_encode in E.
Qed.

Lemma queryString_inj (entries entries' : list (string * string)) :
  queryString entries = queryString entries' -> entries = entries'.
Proof.
  revert entries'.
  induction entries as [|[k v] entries IH]; intros [|[k' v'] entries'] E.
  - reflexivity.
  - rewrite queryString_cons in E. cbn [map join String.concat] in E.
    destruct (encodeURIComponent k'); discriminate E.
  - rewrite queryString_cons in E. cbn [map join String.concat] in E.
    destruct (encodeURIComponent k); discriminate E.
  - rewrite !queryString_cons in E.
    apply split_first in E; try apply equals_without.
    destruct E as [Ek E]. apply encodeURIComponent_inj in Ek. subst k'.
    destruct entries as [|p entries], entries' as [|p' entries'].
    + rewrite !append_nil_r in E. apply encodeURIComponent_inj in E.
      now subst v'.
    + rewrite append_nil_r in E.
      exfalso. exact (@no_first _ _ _ _ (ampersand_without v) E).
    + rewrite append_nil_r in E. symmetry in E.
      exfalso. exact (@no_first _ _ _ _ (ampersand_without v') E).
    + apply split_first in E; try apply ampersand_without.
      destruct E as [Ev E]. apply encodeURIComponent_inj in Ev. subst v'.
      now rewrite (IH _ E).
Qed.

Lemma queryString_empty (entries : list (string * string)) :
  queryString entries = EmptyString -> entries = [].
Proof. intros E. now apply queryString_inj. Qed.

End QueryString.

Lemma setProp_setProp (obj : list (string * string)) (key x v : string) :
  setProp (setProp obj key x) key v = setProp obj key v.
Proof.
  induction obj as [|[k w] obj IH]; cbn [setProp].
  - now rewrite String.eqb_refl.
  - destruct (String.eqb k key) eqn:E; cbn [setProp]; rewrite E;
      [reflexivity|now rewrite IH].
Qed.

Lemma prop_setProp (obj : list (string * string)) (key v : string) :
  prop (setProp obj key v) key = Some v.
Proof.
  induction obj as [|[k w] obj IH]; cbn [setProp prop].
  - now rewrite String.eqb_refl.
  - destruct (String.eqb k key) eqn:E; cbn [prop]; rewrite E;
      [reflexivity|exact IH].
Qed.

Lemma prop_setProp_other (obj : list (string * string)) (key v k' : string) :
  k' <> key -> prop (setProp obj key v) k' = prop obj k'.
Proof.
  intros N. induction obj as [|[k w] obj IH]; cbn [setProp prop].
  - destruct (String.eqb key k') eqn:E; [|reflexivity].
    apply String.eqb_eq in E. congruence.
  - destruct (String.eqb k key) eqn:E; cbn [prop].
    + destruct (String.eqb k k') eqn:E'; [|reflexivity].
      apply String.eqb_eq in E, E'. congruence.
    + now rewrite IH.
Qed.

Lemma setProp_keys (obj : list (string * string)) (key v : string) :
  map fst (setProp obj key v)
  = match prop obj key with
    | Some _ => map fst obj
    | None => (map fst obj ++ [key])%list
    end.
Proof.
  induction obj as [|[k w] obj IH]; cbn [setProp prop map fst app];
    [reflexivity|].
  destruct (String.eqb k key) eqn:E; cbn [map fst]; [reflexivity|].
  rewrite IH. now destruct (prop obj key).
Qed.

Section UrlFacts.

Context {host : JsHost}.

Lemma append_longer (a b : string) : a = a ++ b -> b = EmptyString.
Proof.
  intros E. apply (f_equal String.length) in E. rewrite length_append in E.
  destruct b; [reflexivity|cbn in E; lia].
Qed.

(** X20 (buildUrl): without a configured token the URL determines the
    parameters.  Two parameter lists give the same URL only if they are
    equal, entry by entry and in order, whatever separators the keys and
    values hold; the URL is the bare endpoint exactly when there is no
    parameter. *)
Theorem buildUrl_determines_parameters :
  forall (cfg : ApiConfig) (endpoint : string)
         (entries entries' : list (string * string)),
    truthy (token cfg) = false ->
    (buildUrl cfg endpoint (Some entries) = buildUrl cfg endpoint (Some entries')
     -> entries = entries')
    /\ (buildUrl cfg endpoint (Some entries) = endpoint <-> entries = [])
    /\ buildUrl cfg endpoint None = endpoint.
Proof.
  intros cfg endpoint entries entries' T. unfold buildUrl. rewrite T.
  cbv zeta. repeat split.
  - destruct (join (map _ entries) "&") as [|c q] eqn:Q;
      destruct (join (map _ entries') "&") as [|c' q'] eqn:Q'; intros E.
    + apply queryString_empty in Q, Q'. congruence.
    + apply append_longer in E. discriminate E.
    + symmetry in E. apply append_longer in E. discriminate E.
    + apply append_inv_head in E. cbn [append] in E. injection E as E.
      apply queryString_inj. congruence.
  - destruct (join (map _ entries) "&") as [|c q] eqn:Q; intros E.
    + now apply queryString_empty in Q.
    + symmetry in E. apply append_longer in E. discriminate E.
  - intros ->. reflexivity.
Qed.

(** X21 (buildUrl): a configured token wins.  Whatever [token] entry the
    caller passes, the URL is the one without it; the URL is the one a
    client without a token builds once the configured token is set among
    the parameters, where the other keys keep their values and their
    order, an own [token] key keeps its place and a new one goes last; and
    the URL always has a query. *)
Theorem buildUrl_token_wins :
  forall (cfg : ApiConfig) (endpoint t : string)
         (entries : list (string * string)),
    token cfg = Some t -> t <> EmptyString ->
    (forall x : string,
        buildUrl cfg endpoint (Some (setProp entries "token" x))
        = buildUrl cfg endpoint (Some entries))
    /\ buildUrl cfg endpoint (Some entries)
       = buildUrl (withToken None cfg) endpoint (Some (setProp entries "token" t))
    /\ prop (setProp entries "token" t) "token" = Some t
    /\ (forall k : string,
           k <> "token" -> prop (setProp entries "token" t) k = prop entries k)
    /\ map fst (setProp entries "token" t)
       = match prop entries "token" with
         | Some _ => map fst entries
         | None => (map fst entries ++ ["token"])%list
         end
    /\ buildUrl cfg endpoint (Some entries) <> endpoint.
Proof.
  intros cfg endpoint t entries T N.
  assert (Tr : truthy (token cfg) = true)
    by (rewrite T; destruct t; [now elim N|reflexivity]).
  assert (O : orElse (token cfg) EmptyString = t)
    by (rewrite T; destruct t; [now elim N|reflexivity]).
  split; [|split; [|split; [|split; [|split]]]].
  - intros x. unfold buildUrl. rewrite Tr. cbv zeta.
    now rewrite setProp_setProp.
  - unfold buildUrl. rewrite Tr, O. reflexivity.
  - apply prop_setProp.
  - intros k K. now apply prop_setProp_other.
  - apply setProp_keys.
  - unfold buildUrl. rewrite Tr, O. cbv zeta.
    destruct (join (map _ (setProp entries "token" t)) "&") as [|c q] eqn:Q.
    + apply queryString_empty in Q. destruct entries as [|[k v] entries];
        cbn [setProp] in Q; [discriminate Q|].
      destruct (String.eqb k "token"); discriminate Q.
    + intros E. symmetry in E. apply append_longer in E. discriminate E.
Qed.

End UrlFacts.

Lemma buildUrl_determines_parameters_witness :
  buildUrl {| serverIp := "127.0.0.1"; serverPort := 60202%Z; token := None;
              apiPrefix := "/api"; timeout := 5000%Z |}
    "/player" (Some [("name", "a&token=b")])
  = "/player?name=a%26token%3Db"
  /\ [("name", "Steve")] = [("name", "Steve")].
Proof.
  split; [reflexivity|].
  exact (proj1 (@buildUrl_determines_parameters IntegerHost
                  {| serverIp := "127.0.0.1"; serverPort := 60202%Z;
                     token := None; apiPrefix := "/api"; timeout := 5000%Z |}
                  "/player" [("name", "Steve")] [("name", "Steve")] eq_refl)
               eq_refl).
Defined.

Lemma buildUrl_token_wins_witness :
  buildUrl {| serverIp := "127.0.0.1"; serverPort := 60202%Z;
              token := Some "s3cret"; apiPrefix := "/api"; timeout := 5000%Z |}
    "/player" (Some (setProp [("token", "mine"); ("name", "Steve")] "token" "other"))
  = buildUrl {| serverIp := "127.0.0.1"; serverPort := 60202%Z;
                token := Some "s3cret"; apiPrefix := "/api"; timeout := 5000%Z |}
      "/player" (Some [("token", "mine"); ("name", "Steve")])
  /\ buildUrl {| serverIp := "127.0.0.1"; serverPort := 60202%Z;
                 token := Some "s3cret"; apiPrefix := "/api"; timeout := 5000%Z |}
       "/player" (Some [("token", "mine"); ("name", "Steve")])
     = "/player?token=s3cret&name=Steve".
Proof.
  split; [|reflexivity].
  refine (proj1 (@buildUrl_token_wins IntegerHost
                   {| serverIp := "127.0.0.1"; serverPort := 60202%Z;
                      token := Some "s3cret"; apiPrefix := "/api";
                      timeout := 5000%Z |}
                   "/player" "s3cret" [("token", "mine"); ("name", "Steve")]
                   eq_refl _) "other").
  discriminate.
Defined.

(** ** The request *)

Section GetFacts.

Context {host : JsHost}.

Variable World : Type.
Variable T : Type.
Variable fetch : string -> Async World Response.
Variable response_json : Response -> Async World T.
Variable responseText : T -> string.
Variable logger_debug : list string -> World -> World.
Variable setTimeout : number -> World -> World.
Variable clearTimeout : World -> World.

Local Abbreviation request :=
  (get fetch response_json responseText logger_debug setTimeout clearTimeout).

Lemma get_paths (cfg : ApiConfig) (endpoint : string)
  (params : option (list (string * string))) (w : World) :
  let url := buildUrl cfg (apiBase cfg ++ endpoint) params in
  let w0 := setTimeout (timeout cfg) (logger_debug ["[API] GET " ++ url] w) in
  let rethrow := fun (err : thrown) (w1 : World) =>
    (@Thrown T
       match err with
       | ErrorObject e =>
           if String.eqb (error_name e) "AbortError"
           then ErrorObject
                  (newError ("请求超时 (" ++ Number_toString (timeout cfg)
                               ++ "ms)"))
           else err
       | Nullish v => ErrorObject (propertyTypeError v "name")
       end,
     clearTimeout w1) in
  request cfg endpoint params w
  = match fetch url w0 with
    | (Returned r, w1) =>
        if ok r then
          match response_json r (clearTimeout w1) with
          | (Returned data, w2) =>
              (Returned data,
               logger_debug ["[API] Response:"; responseText data] w2)
          | (Thrown err, w2) => rethrow err w2
          end
        else
          rethrow (newError ("HTTP " ++ Number_toString (status r) ++ ": "
                               ++ statusText r))
            (clearTimeout w1)
    | (Thrown err, w1) => rethrow err w1
    end.
Proof.
  cbv zeta. unfold get, tryCatch, bind, effect, throw, ret, readProperty.
  cbv zeta.
  destruct (fetch _ _) as [[r|[e|v]] w1].
  - destruct (ok r); cbn [negb].
    + destruct (response_json r (clearTimeout w1)) as [[d|[e|v]] w2];
        try reflexivity.
      destruct (String.eqb (error_name e) "AbortError"); reflexivity.
    + reflexivity.
  - destruct (String.eqb (error_name e) "AbortError"); reflexivity.
  - reflexivity.
Qed.


(** X22 (get): the errors of a request.  A response that is not [ok] is
    thrown as [HTTP status: statusText] and its body is never read; an
    [AbortError] of [fetch], which is what the timer causes, is thrown as
    the timeout message that names the configured delay; so the caller
    never sees an [AbortError].  On both paths the timer is cleared after
    the fetch and nothing else is done. *)
Theorem get_error_mapping :
  forall (cfg : ApiConfig) (endpoint : string)
         (params : option (list (string * string))) (w : World),
    let url := buildUrl cfg (apiBase cfg ++ endpoint) params in
    let w0 := setTimeout (timeout cfg) (logger_debug ["[API] GET " ++ url] w) in
    (forall (r : Response) (w1 : World),
        fetch url w0 = (Returned r, w1) -> ok r = false ->
        request cfg endpoint params w
        = (Thrown (newError ("HTTP " ++ Number_toString (status r) ++ ": "
                               ++ statusText r)),
           clearTimeout (clearTimeout w1)))
    /\ (forall (e : JsError) (w1 : World),
           fetch url w0 = (Thrown e, w1) -> error_name e = "AbortError" ->
           request cfg endpoint params w
           = (Thrown (newError ("请求超时 (" ++ Number_toString (timeout cfg)
                                  ++ "ms)")),
              clearTimeout w1))
    /\ (forall (e : JsError) (w' : World),
           request cfg endpoint params w = (Thrown e, w') ->
           error_name e <> "AbortError").
Proof.
  intros cfg endpoint params w url w0.
  pose proof (get_paths cfg endpoint params w) as P. cbv zeta in P.
  fold url in P. fold w0 in P.
  split; [|split].
  - intros r w1 F K. rewrite P, F, K. reflexivity.
  - intros e w1 F K. rewrite P, F, K. reflexivity.
  - intros e w'. rewrite P.
    destruct (fetch url w0) as [[r|[e0|v]] w1].
    + destruct (ok r).
      * destruct (response_json r (clearTimeout w1)) as [[d|[e1|v]] w2];
          [discriminate| |].
        -- destruct (String.eqb (error_name e1) "AbortError") eqn:A;
             intros E; injection E as <- _;
             [discriminate|].
           intros K. rewrite K in A. discriminate A.
        -- intros E; injection E as <- _. discriminate.
      * cbn. intros E; injection E as <- _. discriminate.
    + destruct (String.eqb (error_name e0) "AbortError") eqn:A;
        intros E; injection E as <- _; [discriminate|].
      intros K. rewrite K in A. discriminate A.
    + intros E; injection E as <- _. discriminate.
Qed.

(** X23 (get): a request returns data only from an [ok] response.  The
    value returned is the one [response.json()] gave for the response of
    the URL that [buildUrl] made from the API base, the endpoint and the
    parameters; when the fetch gives an [ok] response and the body parses,
    that value is returned. *)
Theorem get_returns_the_parsed_body :
  forall (cfg : ApiConfig) (endpoint : string)
         (params : option (list (string * string))) (w : World),
    let url := buildUrl cfg (apiBase cfg ++ endpoint) params in
    let w0 := setTimeout (timeout cfg) (logger_debug ["[API] GET " ++ url] w) in
    forall (data : T) (w' : World),
      request cfg endpoint params w = (Returned data, w')
      <-> exists (r : Response) (w1 w2 : World),
            fetch url w0 = (Returned r, w1)
            /\ ok r = true
            /\ response_json r (clearTimeout w1) = (Returned data, w2)
            /\ w' = logger_debug ["[API] Response:"; responseText data] w2.
Proof.
  intros cfg endpoint params w url w0 data w'.
  pose proof (get_paths cfg endpoint params w) as P. cbv zeta in P.
  fold url in P. fold w0 in P. rewrite P. split.
  - destruct (fetch url w0) as [[r|e0] w1].
    + destruct (ok r) eqn:K.
      * destruct (response_json r (clearTimeout w1)) as [[d|e1] w2] eqn:J.
        -- intros E. injection E as <- <-.
           exists r, w1, w2. repeat split; assumption.
        -- discriminate.
      * discriminate.
    + discriminate.
  - intros (r & w1 & w2 & F & K & J & ->). rewrite F, K, J. reflexivity.
Qed.

End GetFacts.

Lemma get_error_mapping_witness :
  sampleRequest (Returned notFound) "/player" (Some [("name", "Steve")]) []
  = (Thrown (newError "HTTP 404: Not Found"),
     ["[API] GET http://127.0.0.1:60202/api/player?name=Steve&token=s3cret";
      "setTimeout 5000";
      "fetch http://127.0.0.1:60202/api/player?name=Steve&token=s3cret";
      "clearTimeout"; "clearTimeout"])
  /\ sampleRequest (Thrown aborted) "/player" (Some [("name", "Steve")]) []
     = (Thrown (newError "请求超时 (5000ms)"),
        ["[API] GET http://127.0.0.1:60202/api/player?name=Steve&token=s3cret";
         "setTimeout 5000";
         "fetch http://127.0.0.1:60202/api/player?name=Steve&token=s3cret";
         "clearTimeout"]).
Proof.
  split.
  - exact (proj1 (get_error_mapping (sample_fetch (Returned notFound))
                    sample_json (fun _ => "{...}") sample_debug
                    sample_setTimeout sample_clearTimeout sampleApi "/player"
                    (Some [("name", "Steve")]) [])
             notFound _ eq_refl eq_refl).
  - exact (proj1 (proj2 (get_error_mapping (sample_fetch (Thrown aborted))
                           sample_json (fun _ => "{...}") sample_debug
                           sample_setTimeout sample_clearTimeout sampleApi
                           "/player" (Some [("name", "Steve")]) []))
             aborted _ eq_refl eq_refl).
Defined.

Lemma get_returns_the_parsed_body_witness :
  sampleRequest (Returned found) "/player" (Some [("name", "Steve")]) []
  = (Returned (Some steve),
     ["[API] GET http://127.0.0.1:60202/api/player?name=Steve&token=s3cret";
      "setTimeout 5000";
      "fetch http://127.0.0.1:60202/api/player?name=Steve&token=s3cret";
      "clearTimeout"; "json"; "[API] Response: {...}"]).
Proof.
  apply (proj2 (get_returns_the_parsed_body (sample_fetch (Returned found))
                  sample_json (fun _ => "{...}") sample_debug
                  sample_setTimeout sample_clearTimeout sampleApi "/player"
                  (Some [("name", "Steve")]) [] (Some steve) _)).
  eexists found, _, _. repeat split.
Defined.

(** ** The player command over the REST client *)

Section PlayerRequest.

Context {host : JsHost}.

Variable World : Type.
Variable Buffer : Type.
Variable Renderer : Type.
Variable fetch : string -> Async World Response.
Variable response_json : Response -> Async World (option PlayerResponse).
Variable responseText : option PlayerResponse -> string.
Variable logger_debug : list string -> World -> World.
Variable setTimeout : number -> World -> World.
Variable clearTimeout : World -> World.
Variable getTypstRenderer : Config -> Async World Renderer.
Variable toPng : Renderer -> string -> number -> Async World Buffer.
Variable buildTypstTheme : Config -> TypstTheme.
Variable clock : World -> string.
Variable logger_warn : string -> World -> World.
Variable logger_error : string -> World -> World.

(** [apiClient.get<PlayerResponse>(endpoint, { name })] of the client that
    [createApiClient] makes. *)
Local Abbreviation client :=
  (fun (api : ApiConfig) (endpoint name : string) =>
     get fetch response_json responseText logger_debug setTimeout clearTimeout
       api endpoint (Some [("name", name)])).
Local Abbreviation action :=
  (fun api : ApiConfig =>
     playerAction (client api) getTypstRenderer toPng buildTypstTheme clock
       logger_warn logger_error).

Lemma player_url (api : ApiConfig) (n : string) :
  buildUrl api (apiBase api ++ "/player") (Some [("name", n)])
  = apiBase api ++ "/player?name=" ++ encodeURIComponent n
    ++ (if truthy (token api)
        then "&token=" ++ encodeURIComponent (orElse (token api) EmptyString)
        else EmptyString).
Proof.
  unfold buildUrl. destruct (truthy (token api)); cbv zeta;
    cbn [setProp String.eqb Ascii.eqb Bool.eqb map join String.concat
         encodeURIComponent isUnreserved append];
    rewrite ?append_assoc; cbn; rewrite ?append_nil_r; reflexivity.
Qed.

(** X24 (registerPlayerCommand over createApiClient): what the user sees
    when the request fails.  The command asks the URL
    [base/player?name=N&token=T], with the name and the token
    percent-encoded and the token part only if one is configured.  If the
    server answers with a status that is not [ok], the reply is the failure
    line with [HTTP status: statusText]; if the request is aborted by the
    timer, the reply is the failure line with the timeout message; in both
    cases the error is logged and nothing is formatted or rendered. *)
Theorem player_request_failures :
  forall (api : ApiConfig) (cfg : Config) (prefix label : string)
         (session_messageId options_mode name : option string) (w : World),
    truthy name = true ->
    let url :=
      apiBase api ++ "/player?name="
      ++ encodeURIComponent (orElse name EmptyString)
      ++ (if truthy (token api)
          then "&token=" ++ encodeURIComponent (orElse (token api) EmptyString)
          else EmptyString) in
    let w0 := setTimeout (timeout api) (logger_debug ["[API] GET " ++ url] w) in
    (forall (r : Response) (w1 : World),
        fetch url w0 = (Returned r, w1) -> ok r = false ->
        let msg := "HTTP " ++ Number_toString (status r) ++ ": " ++ statusText r in
        action api cfg prefix label session_messageId options_mode name w
        = (Returned (ReplyText Buffer ("❌ 查询玩家失败: " ++ msg)),
           logger_error ("查询玩家失败: Error: " ++ msg)
             (clearTimeout (clearTimeout w1))))
    /\ (forall (e : JsError) (w1 : World),
           fetch url w0 = (Thrown e, w1) -> error_name e = "AbortError" ->
           let msg := "请求超时 (" ++ Number_toString (timeout api) ++ "ms)" in
           action api cfg prefix label session_messageId options_mode name w
           = (Returned (ReplyText Buffer ("❌ 查询玩家失败: " ++ msg)),
              logger_error ("查询玩家失败: Error: " ++ msg) (clearTimeout w1))).
Proof.
  intros api cfg prefix label session_messageId options_mode name w T url w0.
  pose proof (get_paths fetch response_json responseText logger_debug setTimeout
                clearTimeout api "/player"
                (Some [("name", orElse name EmptyString)]) w) as P.
  cbv zeta in P. rewrite player_url in P. fold url in P. fold w0 in P.
  split.
  - intros r w1 F K msg. unfold playerAction. rewrite T. cbn [negb].
    unfold tryCatch, bind at 1. rewrite P, F, K. reflexivity.
  - intros e w1 F K msg. unfold playerAction. rewrite T. cbn [negb].
    unfold tryCatch, bind at 1. rewrite P, F, K. reflexivity.
Qed.


End PlayerRequest.

Lemma player_request_failures_witness :
  playerAction
    (fun endpoint name =>
       sampleRequest (Returned notFound) endpoint (Some [("name", name)]))
    sample_getTypstRenderer sample_toPng (fun _ => defaultTheme) sample_clock
    sample_log sample_log defaultConfig "mcinfo" "[mc]" (Some "msg-1") None
    (Some "Ste ve") []
  = (Returned (ReplyText string "❌ 查询玩家失败: HTTP 404: Not Found"),
     ["[API] GET http://127.0.0.1:60202/api/player?name=Ste%20ve&token=s3cret";
      "setTimeout 5000";
      "fetch http://127.0.0.1:60202/api/player?name=Ste%20ve&token=s3cret";
      "clearTimeout"; "clearTimeout";
      "查询玩家失败: Error: HTTP 404: Not Found"]).
Proof.
  exact (proj1 (player_request_failures
                  (sample_fetch (Returned notFound)) sample_json
                  (fun _ => "{...}") sample_debug sample_setTimeout
                  sample_clearTimeout sample_getTypstRenderer sample_toPng
                  (fun _ => defaultTheme) sample_clock sample_log sample_log
                  sampleApi defaultConfig "mcinfo" "[mc]" (Some "msg-1") None
                  (Some "Ste ve") [] eq_refl)
           notFound _ eq_refl eq_refl).
Defined.

(** * The shared renderer *)

Section RendererFacts.

Context {host : JsHost}.

Variable Env : Type.
Variable Module : Type.
Variable ctx_node : Env -> bool.
Variable ctx_toImageService : Env -> bool.
Variable resvg : Env -> bool.
Variable sleep : Z -> Env -> Env.
Variable safeImport : string -> Async Env (option Module).
Variable logger_info : string -> Env -> Env.

Local Abbreviation wait := (waitForResvg resvg sleep).
Local Abbreviation start :=
  (init ctx_node ctx_toImageService resvg sleep safeImport logger_info).
Local Abbreviation obtain :=
  (getTypstRenderer ctx_node ctx_toImageService resvg sleep safeImport
     logger_info).
Local Abbreviation calls :=
  (rendererCalls ctx_node ctx_toImageService resvg sleep safeImport
     logger_info).

Lemma waitForResvg_rounds (n : nat) :
  forall (fuel : nat) (waited : Z) (e : Env),
    (waited = maxWaitMs - intervalMs * Z.of_nat n)%Z -> n <= fuel ->
    exists k,
      k <= n
      /\ wait fuel waited e = Some (sleeps sleep k e)
      /\ (forall j, j < k -> resvg (sleeps sleep j e) = false)
      /\ (k < n -> resvg (sleeps sleep k e) = true).
Proof.
  unfold maxWaitMs, intervalMs.
  induction n as [|n IH]; intros fuel waited e W F.
  - exists 0. split; [lia|]. split; [|split; intros; lia].
    assert (L : (waited <? maxWaitMs)%Z = false)
      by (apply Z.ltb_ge; unfold maxWaitMs; lia).
    destruct fuel; cbn [waitForResvg sleeps]; rewrite L, andb_false_r;
      reflexivity.
  - destruct (resvg e) eqn:R.
    + exists 0. split; [lia|]. split; [|split; [intros; lia|intros _; exact R]].
      destruct fuel; cbn [waitForResvg sleeps]; rewrite R; reflexivity.
    + assert (L : (waited <? maxWaitMs)%Z = true)
        by (apply Z.ltb_lt; unfold maxWaitMs; lia).
      destruct fuel as [|fuel]; [lia|].
      cbn [waitForResvg]. rewrite R, L. cbn [negb andb].
      destruct (IH fuel (waited + intervalMs)%Z (sleep intervalMs e))
        as (k & Hk & E & Before & At); [unfold intervalMs; lia|lia|].
      exists (S k). split; [lia|]. split; [exact E|]. split.
      * intros [|j] Hj; [exact R|]. cbn [sleeps]. apply Before. lia.
      * intros Hlt. cbn [sleeps]. apply At. lia.
Qed.

(** X25 (TypstRenderer.init): the wait loop ends.  With fuel for fifty
    rounds the loop always returns, after the first round count [k] at
    which the rasteriser is there, and after fifty rounds of 200 ms, ten
    seconds in all, at the latest. *)
Theorem init_waits_at_most_fifty_rounds :
  forall (fuel : nat) (e : Env),
    50 <= fuel ->
    exists k,
      k <= 50
      /\ wait fuel 0%Z e = Some (sleeps sleep k e)
      /\ (forall j, j < k -> resvg (sleeps sleep j e) = false)
      /\ (k < 50 -> resvg (sleeps sleep k e) = true).
Proof.
  intros fuel e F. apply waitForResvg_rounds; [reflexivity|exact F].
Qed.

Lemma init_paths (fuel : nat) (this : TypstRenderer Module) (e : Env) :
  50 <= fuel ->
  exists k,
    k <= 50
    /\ (forall j, j < k -> resvg (sleeps sleep j e) = false)
    /\ (k < 50 -> resvg (sleeps sleep k e) = true)
    /\ start fuel this e
       = if negb (ctx_node e) then
           Some (Thrown (newError "w-node 服务未启用，无法使用 Typst 渲染"), (this, e))
         else if negb (ctx_toImageService e) then
           Some (Thrown (newError "to-image-service 服务未启用，无法使用 Typst 渲染"),
                 (this, e))
         else if negb (resvg (sleeps sleep k e)) then
           Some (Thrown (newError "to-image-service 的 svgToImage.resvg 在 10000ms 内未就绪"),
                 (this, sleeps sleep k e))
         else
           match safeImport typstModuleName (sleeps sleep k e) with
           | (Thrown err, e2) => Some (Thrown err, (this, e2))
           | (Returned m, e2) =>
               Some (Returned tt,
                     ({| renderer_cfg := renderer_cfg this; typst := m;
                         initialized := true |},
                      logger_info "Typst 模块加载成功" e2))
           end.
Proof.
  intros F.
  destruct (@waitForResvg_rounds 50 fuel 0%Z e eq_refl F)
    as (k & Hk & E & Before & At).
  exists k. split; [exact Hk|]. split; [exact Before|]. split; [exact At|].
  unfold init. rewrite E. reflexivity.
Qed.

(** X26 (TypstRenderer.init): the outcomes of [init].  With fuel for fifty
    rounds [init] always ends.  It throws the [w-node] message when that
    service is missing, else the [to-image-service] message when that one
    is missing, both at once and without waiting; when the rasteriser is
    not there after any of the fifty rounds it throws the message about
    10000 ms, after exactly fifty rounds.  Whenever it throws, the fields of
    the renderer are as before; when it returns, [initialized] is set, the
    configuration is kept and both services were there. *)
Theorem init_outcomes :
  forall (fuel : nat) (this : TypstRenderer Module) (e : Env),
    50 <= fuel ->
    exists (res : outcome unit) (this' : TypstRenderer Module) (e' : Env),
      start fuel this e = Some (res, (this', e'))
      /\ renderer_cfg this' = renderer_cfg this
      /\ match res with
         | Thrown _ => this' = this
         | Returned _ =>
             initialized this' = true
             /\ ctx_node e = true /\ ctx_toImageService e = true
         end
      /\ (ctx_node e = false ->
          res = Thrown (newError "w-node 服务未启用，无法使用 Typst 渲染") /\ e' = e)
      /\ (ctx_node e = true -> ctx_toImageService e = false ->
          res = Thrown (newError "to-image-service 服务未启用，无法使用 Typst 渲染")
          /\ e' = e)
      /\ (ctx_node e = true -> ctx_toImageService e = true ->
          (forall j, j <= 50 -> resvg (sleeps sleep j e) = false) ->
          res = Thrown (newError
                          "to-image-service 的 svgToImage.resvg 在 10000ms 内未就绪")
          /\ e' = sleeps sleep 50 e).
Proof.
  intros fuel this e F.
  destruct (@init_paths fuel this e F) as (k & Hk & Before & At & ->).
  destruct (ctx_node e) eqn:N; cbn [negb].
  2:{ eexists _, _, _. split; [reflexivity|]. split; [reflexivity|].
      split; [reflexivity|]. split; [now split|]. split; discriminate. }
  destruct (ctx_toImageService e) eqn:S; cbn [negb].
  2:{ eexists _, _, _. split; [reflexivity|]. split; [reflexivity|].
      split; [reflexivity|]. split; [discriminate|]. split; [now split|].
      discriminate. }
  destruct (resvg (sleeps sleep k e)) eqn:R; cbn [negb].
  2:{ eexists _, _, _. split; [reflexivity|]. split; [reflexivity|].
      split; [reflexivity|]. split; [discriminate|]. split; [discriminate|].
      intros _ _ Never. split; [reflexivity|].
      assert (k = 50) as ->
        by (destruct (Nat.eq_dec k 50) as [K|K];
            [exact K|assert (L : k < 50) by lia; specialize (At L);
                     discriminate At]).
      reflexivity. }
  destruct (safeImport typstModuleName (sleeps sleep k e)) as [[m|err] e2].
  - eexists _, _, _. split; [reflexivity|]. split; [reflexivity|].
    split; [repeat split|]. split; [discriminate|]. split; [discriminate|].
    intros _ _ Never. rewrite (Never k Hk) in R. discriminate R.
  - eexists _, _, _. split; [reflexivity|]. split; [reflexivity|].
    split; [reflexivity|]. split; [discriminate|]. split; [discriminate|].
    intros _ _ Never. rewrite (Never k Hk) in R. discriminate R.
Qed.

Lemma getTypstRenderer_ready (fuel : nat) (cfg : Config)
  (r : TypstRenderer Module) (e : Env) :
  isReady r = true -> obtain fuel cfg (Some r, e) = Some (Returned r, (Some r, e)).
Proof. intros R. unfold getTypstRenderer. rewrite R. reflexivity. Qed.

Lemma getTypstRenderer_slot (fuel : nat) (cfg : Config)
  (shared : option (TypstRenderer Module)) (e : Env) :
  50 <= fuel ->
  exists (res : outcome (TypstRenderer Module)) (r : TypstRenderer Module)
         (e' : Env),
    obtain fuel cfg (shared, e) = Some (res, (Some r, e'))
    /\ renderer_cfg r
       = match shared with Some r0 => renderer_cfg r0 | None => cfg end
    /\ match res with
       | Returned r' => r' = r
       | Thrown _ =>
           r = match shared with Some r0 => r0 | None => newTypstRenderer Module cfg end
           /\ isReady r = false
       end.
Proof.
  intros F. unfold getTypstRenderer.
  set (renderer := match shared with
                   | Some r0 => r0
                   | None => newTypstRenderer Module cfg
                   end).
  assert (C : renderer_cfg renderer
              = match shared with Some r0 => renderer_cfg r0 | None => cfg end)
    by (subst renderer; destruct shared; reflexivity).
  destruct (isReady renderer) eqn:R; cbn [negb].
  - exists (Returned renderer), renderer, e. now repeat split.
  - destruct (@init_paths fuel renderer e F) as (k & _ & _ & _ & ->).
    destruct (ctx_node e); cbn [negb];
      [|eexists _, _, _; split; [reflexivity|]; now repeat split].
    destruct (ctx_toImageService e); cbn [negb];
      [|eexists _, _, _; split; [reflexivity|]; now repeat split].
    destruct (resvg (sleeps sleep k e)); cbn [negb];
      [|eexists _, _, _; split; [reflexivity|]; now repeat split].
    destruct (safeImport typstModuleName (sleeps sleep k e)) as [[m|err] e2];
      eexists _, _, _; (split; [reflexivity|]); now repeat split.
Qed.

(** X27 (getTypstRenderer): one renderer, ready once.  When a call returns
    a renderer that is ready, every later call returns that same renderer
    and leaves the module variable and the environment as they are: it
    neither waits nor imports, whatever fuel and whatever configuration it
    is given. *)
Theorem getTypstRenderer_reuses_the_ready_renderer :
  forall (fuel fuel' : nat) (cfg cfg' : Config)
         (w w' : option (TypstRenderer Module) * Env)
         (r : TypstRenderer Module),
    50 <= fuel ->
    obtain fuel cfg w = Some (Returned r, w') ->
    isReady r = true ->
    obtain fuel' cfg' w' = Some (Returned r, w').
Proof.
  intros fuel fuel' cfg cfg' [shared e] w' r F G R.
  destruct (@getTypstRenderer_slot fuel cfg shared e F) as (res & r1 & e' & E & _ & S).
  rewrite E in G. injection G as -> <-. subst r1.
  now apply (@getTypstRenderer_ready fuel' cfg' r).
Qed.

(** X28 (getTypstRenderer): the first configuration stays.  After any
    sequence of calls that starts with an empty module variable, the
    variable holds a renderer, and that renderer has the configuration of
    the first call: the configurations of the later calls are ignored. *)
Theorem getTypstRenderer_keeps_the_first_configuration :
  forall (fuel : nat) (cfg : Config) (cfgs : list Config) (e : Env),
    50 <= fuel ->
    exists (r : TypstRenderer Module) (e' : Env),
      calls fuel (cfg :: cfgs) (None, e) = Some (Some r, e')
      /\ renderer_cfg r = cfg.
Proof.
  intros fuel cfg cfgs e F.
  assert (G : forall (l : list Config) (r0 : TypstRenderer Module) (e0 : Env),
             exists r e', calls fuel l (Some r0, e0) = Some (Some r, e')
                          /\ renderer_cfg r = renderer_cfg r0).
  { induction l as [|c l IH]; intros r0 e0.
    - exists r0, e0. now split.
    - destruct (@getTypstRenderer_slot fuel c (Some r0) e0 F)
        as (res & r1 & e1 & E & C & _).
      cbn [rendererCalls]. rewrite E.
      destruct (IH r1 e1) as (r & e' & E' & C').
      exists r, e'. split; [exact E'|congruence]. }
  destruct (@getTypstRenderer_slot fuel cfg None e F) as (res & r1 & e1 & E & C & _).
  cbn [rendererCalls]. rewrite E.
  destruct (G cfgs r1 e1) as (r & e' & E' & C').
  exists r, e'. split; [exact E'|congruence].
Qed.

(** X29 (getTypstRenderer): a failure is not kept.  When a call throws,
    the module variable holds the renderer as it was before the call (the
    new one, if the variable was empty), which is not ready; so the next
    call runs [init] again, and on an empty variable it behaves as a first
    call with the first configuration on the environment the failure left,
    whatever configuration it is given. *)
Theorem getTypstRenderer_retries_after_a_failure :
  forall (fuel : nat) (cfg cfg' : Config) (e e1 : Env) (err : thrown)
         (slot : option (TypstRenderer Module)),
    50 <= fuel ->
    obtain fuel cfg (None, e) = Some (Thrown err, (slot, e1)) ->
    slot = Some (newTypstRenderer Module cfg)
    /\ obtain fuel cfg' (slot, e1) = obtain fuel cfg (None, e1).
Proof.
  intros fuel cfg cfg' e e1 err slot F G.
  destruct (@getTypstRenderer_slot fuel cfg None e F) as (res & r1 & e' & E & _ & S).
  rewrite E in G. injection G as -> <- <-. destruct S as [-> _].
  split; reflexivity.
Qed.

End RendererFacts.

Lemma init_waits_at_most_fifty_rounds_witness :
  exists k,
    k <= 50
    /\ waitForResvg sample_resvg sample_sleep 50 0%Z 0
       = Some (sleeps sample_sleep k 0)
    /\ (forall j, j < k -> sample_resvg (sleeps sample_sleep j 0) = false)
    /\ (k < 50 -> sample_resvg (sleeps sample_sleep k 0) = true).
Proof.
  apply (@init_waits_at_most_fifty_rounds SampleEnv sample_resvg sample_sleep
           50 0).
  apply le_n.
Defined.

Lemma init_outcomes_witness :
  exists res this' e',
    init (fun _ => true) (fun _ => true) sample_resvg sample_sleep
      sample_safeImport (fun _ e => e) 50 (newTypstRenderer unit defaultConfig) 0
    = Some (res, (this', e'))
    /\ renderer_cfg this' = defaultConfig.
Proof.
  destruct (@init_outcomes _ SampleEnv unit (fun _ => true) (fun _ => true)
              sample_resvg sample_sleep sample_safeImport (fun _ e => e) 50
              (newTypstRenderer unit defaultConfig) 0 (le_n 50))
    as (res & this' & e' & E & C & _).
  exists res, this', e'. split; [exact E|exact C].
Defined.

Lemma getTypstRenderer_reuses_the_ready_renderer_witness :
  sampleRenderer true 50 defaultConfig (None, 0)
  = Some (Returned readyRenderer, (Some readyRenderer, 3))
  /\ sampleRenderer true 0 configWithoutHealth (Some readyRenderer, 3)
     = Some (Returned readyRenderer, (Some readyRenderer, 3)).
Proof.
  split; [reflexivity|].
  exact (@getTypstRenderer_reuses_the_ready_renderer _ SampleEnv unit
           (fun _ => true) (fun _ => true) sample_resvg sample_sleep
           sample_safeImport (fun _ e => e) 50 0 defaultConfig
           configWithoutHealth (None, 0) (Some readyRenderer, 3) readyRenderer
           (le_n 50) eq_refl eq_refl).
Defined.

Lemma getTypstRenderer_keeps_the_first_configuration_witness :
  exists r e',
    rendererCalls (fun _ => true) (fun _ => true) sample_resvg sample_sleep
      sample_safeImport (fun _ e => e) 50
      [defaultConfig; configWithoutHealth; configWithoutExperience] (None, 0)
    = Some (Some r, e')
    /\ renderer_cfg r = defaultConfig.
Proof.
  apply (@getTypstRenderer_keeps_the_first_configuration _ SampleEnv unit
           (fun _ => true) (fun _ => true) sample_resvg sample_sleep
           sample_safeImport (fun _ e => e) 50 defaultConfig
           [configWithoutHealth; configWithoutExperience] 0).
  apply le_n.
Defined.

Lemma getTypstRenderer_retries_after_a_failure_witness :
  sampleRenderer false 50 defaultConfig (None, 0)
  = Some (Thrown (newError "w-node 服务未启用，无法使用 Typst 渲染"),
          (Some (newTypstRenderer unit defaultConfig), 0))
  /\ sampleRenderer false 50 configWithoutHealth
       (Some (newTypstRenderer unit defaultConfig), 0)
     = sampleRenderer false 50 defaultConfig (None, 0).
Proof.
  split; [reflexivity|].
  exact (proj2 (@getTypstRenderer_retries_after_a_failure _ SampleEnv unit
                  (fun _ => false) (fun _ => true) sample_resvg sample_sleep
                  sample_safeImport (fun _ e => e) 50 defaultConfig
                  configWithoutHealth 0 0 _ _ (le_n 50) eq_refl)).
Defined.
